(** * The Perspective session dispatcher ([_PerspectiveManagerInternal])

    A shallow embedding of [perspective/manager/manager_internal.py]: the
    message dispatcher [_process], the method-invocation policy
    [_process_method_call], subscriptions [_process_subscribe], the binary
    transfer [_process_bytes], the encoder [_message_to_json] and the lock
    gate [_is_locked_command].

    Python values are a first-order datatype [pyval]; exceptions are values
    of [exn] carried by [outcome]; the manager's registries, the engine's
    state and the observable effects (frames handed to [post_callback],
    calls into the engine, log lines) are threaded through a small
    state-and-exception monad [M].  The table/view engine, [json.loads] and
    the date validator are outside this module and enter as the fields of a
    [Runtime]. *)

From Stdlib Require Import String Ascii ZArith List Bool Lia DecimalString.
Import ListNotations.
Open Scope string_scope.
Set Warnings "-register-all".

(** ** Python values *)

(** A float is only ever classified by the encoder (finite or not), so a
    finite one is kept as mantissa and binary exponent. *)
Inductive pyfloat : Type :=
| FFinite (m e : Z)
| FNaN
| FInf
| FNegInf.

Definition isfinite (f : pyfloat) : bool :=
  match f with FFinite _ _ => true | _ => false end.

Definition handle := nat.

(** What [json.loads] yields (None, bool, int, float, str, list, dict with
    string keys), plus what the engine may hand back: [bytes], [datetime]
    and arbitrary objects, named by their type. *)
Inductive pyval : Type :=
| VNone
| VBool (b : bool)
| VInt (z : Z)
| VFloat (f : pyfloat)
| VStr (s : string)
| VBytes (b : string)
| VList (l : list pyval)
| VDict (d : list (string * pyval))
| VDatetime (t : Z)
| VObject (ty : string) (ref : nat).

Definition dict := list (string * pyval).

Definition type_name (v : pyval) : string :=
  match v with
  | VNone => "NoneType"
  | VBool _ => "bool"
  | VInt _ => "int"
  | VFloat _ => "float"
  | VStr _ => "str"
  | VBytes _ => "bytes"
  | VList _ => "list"
  | VDict _ => "dict"
  | VDatetime _ => "datetime"
  | VObject ty _ => ty
  end.

(** The name CPython prints for the type of a value in the text of a
    [TypeError] or an [AttributeError] ([tp_name]): for [datetime] it has
    the module in front. *)
Definition tp_name (v : pyval) : string :=
  match v with
  | VDatetime _ => "datetime.datetime"
  | _ => type_name v
  end.

(** The double quote, as CPython puts it around a type in some messages. *)
Definition dquote : string := String "034"%char EmptyString.

(** ** Exceptions

    The classes are those derived from [Exception], the ones a Python
    program raises: [KeyboardInterrupt], [SystemExit] and [GeneratorExit],
    which the interpreter raises on a signal or at exit and which
    [except Exception] lets through, are not modelled. *)

Inductive eclass : Type :=
| PerspectiveError
| PerspectiveCppError
| IndexError
| KeyError
| ValueError
| TypeError
| AttributeError
| UnboundLocalError
| OtherException (name : string).   (** any other subclass of [Exception] *)

(** [exn_text] is what [str(e)] gives. *)
Record exn : Type := Exn { exn_class : eclass; exn_text : string }.

Inductive outcome (A : Type) : Type :=
| Ok (a : A)
| Raise (e : exn).
Arguments Ok {A} a.
Arguments Raise {A} e.

Definition obind {A B} (o : outcome A) (k : A -> outcome B) : outcome B :=
  match o with
  | Ok a => k a
  | Raise e => Raise e
  end.

(** [except (PerspectiveError, PerspectiveCppError)], [except IndexError],
    [except ValueError], [except Exception]. *)
Definition is_perspective_error (c : eclass) : bool :=
  match c with PerspectiveError | PerspectiveCppError => true | _ => false end.
Definition is_IndexError (c : eclass) : bool :=
  match c with IndexError => true | _ => false end.
Definition is_ValueError (c : eclass) : bool :=
  match c with ValueError => true | _ => false end.
(** Every class of [eclass] is derived from [Exception]. *)
Definition is_Exception (c : eclass) : bool := true.

(** ** Dictionaries with string keys *)

Fixpoint dict_get (d : dict) (k : string) : option pyval :=
  match d with
  | [] => None
  | (k', v) :: r => if String.eqb k' k then Some v else dict_get r k
  end.

(** [d.get(k, default)] *)
Definition dict_get_default (d : dict) (k : string) (default : pyval) : pyval :=
  match dict_get d k with
  | Some v => v
  | None => default
  end.

(** [d[k]], a [KeyError] whose text is the repr of the key. *)
Definition getitem (d : dict) (k : string) : outcome pyval :=
  match dict_get d k with
  | Some v => Ok v
  | None => Raise (Exn KeyError ("'" ++ k ++ "'"))
  end.

(** [d[k] = v]: in place when the key is there, appended otherwise. *)
Fixpoint dict_set (d : dict) (k : string) (v : pyval) : dict :=
  match d with
  | [] => [(k, v)]
  | (k', v') :: r =>
      if String.eqb k' k then (k', v) :: r else (k', v') :: dict_set r k v
  end.

(** [d.update(e)] for a dict [e]. *)
Definition dict_update (d e : dict) : dict :=
  fold_left (fun acc kv => dict_set acc (fst kv) (snd kv)) e d.

(** ** Comparisons and conversions of the Python runtime *)

(** [v == "literal"]: only a [str] equals a [str]. *)
Definition eq_str (v : pyval) (s : string) : bool :=
  match v with
  | VStr s' => String.eqb s' s
  | _ => false
  end.

Definition str_in (s : string) (l : list string) : bool :=
  existsb (String.eqb s) l.

(** [v in ("a", "b", ...)] *)
Definition in_strs (v : pyval) (l : list string) : bool :=
  existsb (eq_str v) l.

(** [v is True] *)
Definition is_True (v : pyval) : bool :=
  match v with VBool true => true | _ => false end.

Definition is_None (v : pyval) : bool :=
  match v with VNone => true | _ => false end.

Definition float_is_zero (f : pyfloat) : bool :=
  match f with FFinite m _ => Z.eqb m 0 | _ => false end.

(** Truth value, as in [if callback_id:]. *)
Definition truthy (v : pyval) : bool :=
  match v with
  | VNone => false
  | VBool b => b
  | VInt z => negb (Z.eqb z 0)
  | VFloat f => negb (float_is_zero f)
  | VStr s => negb (String.eqb s "")
  | VBytes b => negb (String.eqb b "")
  | VList l => match l with [] => false | _ => true end
  | VDict d => match d with [] => false | _ => true end
  | VDatetime _ => true
  | VObject _ _ => true
  end.

(** Numeric equality across bool, int and float. *)
Definition num_of (v : pyval) : option pyfloat :=
  match v with
  | VBool b => Some (FFinite (if b then 1 else 0) 0)
  | VInt z => Some (FFinite z 0)
  | VFloat f => Some f
  | _ => None
  end.

Definition float_eq (a b : pyfloat) : bool :=
  match a, b with
  | FFinite m1 e1, FFinite m2 e2 =>
      let k := Z.min e1 e2 in
      Z.eqb (m1 * 2 ^ (e1 - k)) (m2 * 2 ^ (e2 - k))
  | FInf, FInf => true
  | FNegInf, FNegInf => true
  | _, _ => false
  end.

(** [a == b] *)
Fixpoint py_eq (a b : pyval) {struct a} : bool :=
  match num_of a, num_of b with
  | Some x, Some y => float_eq x y
  | Some _, None => false
  | None, Some _ => false
  | None, None =>
      match a, b with
      | VNone, VNone => true
      | VStr s, VStr t => String.eqb s t
      | VBytes s, VBytes t => String.eqb s t
      | VList l, VList l' =>
          (fix go (l l' : list pyval) {struct l} : bool :=
             match l, l' with
             | [], [] => true
             | x :: r, y :: r' => py_eq x y && go r r'
             | _, _ => false
             end) l l'
      | VDict d, VDict d' =>
          Nat.eqb (length d) (length d') &&
          (fix go (d : dict) {struct d} : bool :=
             match d with
             | [] => true
             | (k, v) :: r =>
                 match dict_get d' k with
                 | Some v' => py_eq v v' && go r
                 | None => false
                 end
             end) d
      | VDatetime t, VDatetime t' => Z.eqb t t'
      | VObject _ r, VObject _ r' => Nat.eqb r r'
      | _, _ => false
      end
  end.

Definition string_chars (s : string) : list pyval :=
  map (fun c => VStr (String c EmptyString)) (list_ascii_of_string s).

Definition bytes_ints (s : string) : list pyval :=
  map (fun c => VInt (Z.of_nat (nat_of_ascii c))) (list_ascii_of_string s).

(** The elements an iteration over [v] yields, as in [for d in v] and
    [f( *v )]; a dict yields its keys. *)
Definition py_iter (v : pyval) : outcome (list pyval) :=
  match v with
  | VList l => Ok l
  | VDict d => Ok (map (fun kv => VStr (fst kv)) d)
  | VStr s => Ok (string_chars s)
  | VBytes b => Ok (bytes_ints b)
  | _ => Raise (Exn TypeError ("'" ++ tp_name v ++ "' object is not iterable"))
  end.

(** [f( **v )]: the keywords; the text of the failure is what follows the
    callee's name, which [in_call] puts in front. *)
Definition py_kwargs (v : pyval) : outcome dict :=
  match v with
  | VDict d => Ok d
  | _ => Raise (Exn TypeError
           ("argument after ** must be a mapping, not " ++ tp_name v))
  end.

(** [len(v)] *)
Definition py_len (v : pyval) : outcome nat :=
  match v with
  | VList l => Ok (length l)
  | VDict d => Ok (length d)
  | VStr s => Ok (String.length s)
  | VBytes b => Ok (String.length b)
  | _ => Raise (Exn TypeError
           ("object of type '" ++ tp_name v ++ "' has no len()"))
  end.

Definition index_error (what : string) : exn :=
  Exn IndexError (what ++ " index out of range").

(** [v[i]] for the literal indices 0 and 1 the dispatcher uses. *)
Definition py_index (v : pyval) (i : nat) : outcome pyval :=
  match v with
  | VList l =>
      match nth_error l i with
      | Some x => Ok x
      | None => Raise (index_error "list")
      end
  | VStr s =>
      match nth_error (string_chars s) i with
      | Some x => Ok x
      | None => Raise (index_error "string")
      end
  | VBytes b =>
      match nth_error (bytes_ints b) i with
      | Some x => Ok x
      | None => Raise (Exn IndexError "index out of range")
      end
  | VDict _ => Raise (Exn KeyError (match i with O => "0" | _ => "1" end))
  | _ => Raise (Exn TypeError
           ("'" ++ tp_name v ++ "' object is not subscriptable"))
  end.

(** [a + b] where the dispatcher concatenates strings: one of the two
    operands is a [str].  The sequence types refuse the other operand
    themselves, each with its own text; the other types leave it to the
    interpreter (an object is taken to define no addition). *)
Definition str_add (a b : pyval) : outcome pyval :=
  match a, b with
  | VStr s, VStr t => Ok (VStr (s ++ t))
  | VStr _, _ =>
      Raise (Exn TypeError
        ("can only concatenate str (not " ++ dquote ++ tp_name b ++ dquote
           ++ ") to str"))
  | VList _, _ =>
      Raise (Exn TypeError
        ("can only concatenate list (not " ++ dquote ++ tp_name b ++ dquote
           ++ ") to list"))
  | VBytes _, _ =>
      Raise (Exn TypeError ("can't concat " ++ tp_name b ++ " to bytes"))
  | _, _ =>
      Raise (Exn TypeError
        ("unsupported operand type(s) for +: '" ++ tp_name a
           ++ "' and '" ++ tp_name b ++ "'"))
  end.

(** The callee's name in front of the text of a failed unpacking, as in
    [f() argument after * must be an iterable, not int]. *)
Definition in_call {A} (f : string) (o : outcome A) : outcome A :=
  match o with
  | Ok a => Ok a
  | Raise e => Raise (Exn (exn_class e) (f ++ " " ++ exn_text e))
  end.

(** Keys of a Python dict must be hashable. *)
Definition hashable (v : pyval) : bool :=
  match v with
  | VList _ | VDict _ => false
  | _ => true
  end.

Definition unhashable_error (v : pyval) : exn :=
  Exn TypeError ("unhashable type: '" ++ type_name v ++ "'").

(** ** JSON documents

    The text [json.dumps] returns is identified with the document it
    denotes; with [allow_nan] the tokens NaN and Infinity are part of it. *)
Inductive json : Type :=
| JNull
| JBool (b : bool)
| JInt (z : Z)
| JFloat (f : pyfloat)
| JStr (s : string)
| JArr (l : list json)
| JObj (o : list (string * json)).

Fixpoint json_get (o : list (string * json)) (k : string) : option json :=
  match o with
  | [] => None
  | (k', v) :: r => if String.eqb k' k then Some v else json_get r k
  end.

Definition out_of_range : string :=
  "Out of range float values are not JSON compliant".

Definition not_serializable (v : pyval) : exn :=
  Exn TypeError ("Object of type " ++ type_name v ++ " is not JSON serializable").

Section Encoder.

  (** [_date_validator.to_timestamp], milliseconds since the epoch. *)
Variable to_timestamp : Z -> outcome Z.

  (** [json.dumps(v, allow_nan=..., cls=DateTimeEncoder)] when [dt] is set,
      [json.dumps(v, allow_nan=...)] otherwise.  Values are visited in
      order and the first failure is the one raised.  [DateTimeEncoder.default]
      turns a datetime into its timestamp and passes everything else to the
      base class, which raises [TypeError]. *)
Fixpoint json_dumps (allow_nan dt : bool) (v : pyval) {struct v} : outcome json :=
    match v with
    | VNone => Ok JNull
    | VBool b => Ok (JBool b)
    | VInt z => Ok (JInt z)
    | VFloat f =>
        if isfinite f || allow_nan then Ok (JFloat f)
        else Raise (Exn ValueError out_of_range)
    | VStr s => Ok (JStr s)
    | VList l =>
        obind
          ((fix go (l : list pyval) {struct l} : outcome (list json) :=
              match l with
              | [] => Ok []
              | x :: r =>
                  obind (json_dumps allow_nan dt x) (fun j =>
                  obind (go r) (fun js => Ok (j :: js)))
              end) l)
          (fun js => Ok (JArr js))
    | VDict d =>
        obind
          ((fix go (d : dict) {struct d} : outcome (list (string * json)) :=
              match d with
              | [] => Ok []
              | (k, x) :: r =>
                  obind (json_dumps allow_nan dt x) (fun j =>
                  obind (go r) (fun js => Ok ((k, j) :: js)))
              end) d)
          (fun js => Ok (JObj js))
    | VDatetime t =>
        if dt then obind (to_timestamp t) (fun ms => Ok (JInt ms))
        else Raise (not_serializable v)
    | VBytes _ => Raise (not_serializable v)
    | VObject _ _ => Raise (not_serializable v)
    end.

(** The two loops of the encoder, named. *)
Fixpoint dumps_list (allow_nan dt : bool) (l : list pyval) : outcome (list json) :=
  match l with
  | [] => Ok []
  | x :: r =>
      obind (json_dumps allow_nan dt x) (fun j =>
      obind (dumps_list allow_nan dt r) (fun js => Ok (j :: js)))
  end.

Fixpoint dumps_items (allow_nan dt : bool) (d : dict)
  : outcome (list (string * json)) :=
  match d with
  | [] => Ok []
  | (k, x) :: r =>
      obind (json_dumps allow_nan dt x) (fun j =>
      obind (dumps_items allow_nan dt r) (fun js => Ok ((k, j) :: js)))
  end.

End Encoder.

(** ** The manager, its collaborators and its effects *)

(** Where frames go: the [post_callback] a session hands to [_process]. *)
Definition transport := nat.

Inductive frame : Type :=
| Text (j : json)          (** [post_callback(text)] *)
| Binary (b : string).     (** [post_callback(data, binary=True)] *)

(** The object a method is looked up on: [None], a [Table], the list that
    stands for a table created without arguments, or a [View]. *)
Inductive target : Type :=
| OnNone
| OnTable (h : handle)
| OnList (h : handle)
| OnView (h : handle).

(** [partial(self.callback, msg=msg, post_callback=post_callback)] *)
Record callback : Type := Callback { cb_msg : dict; cb_post : transport }.

(** The dict handed to [_callback_cache.add_callback]. *)
Record cb_record : Type := CbRecord {
  r_client_id : pyval;
  r_callback_id : pyval;
  r_callback : callback;
  r_name : pyval
}.

Inductive event : Type :=
| EvPost (tp : transport) (f : frame)
| EvNewTable (data : pyval) (options : dict)
| EvView (h : handle) (config : dict)
| EvCall (t : target) (method : string) (args : list pyval) (kwargs : dict)
| EvSubscribe (t : target) (method : string) (cb : callback) (kwargs : dict)
| EvAddCallback (r : cb_record)
| EvRemoveCallbacks (callback_id : pyval)
| EvLogWarning (text : string)
| EvLogInfo (msg : dict).

(** What is called with unpacked arguments: the class [Table], or the
    method found under a name on a handle. *)
Inductive callee : Type :=
| TableClass
| Method (t : target) (name : string).

(** What lies outside the module.  [W] is the state of the engine and of
    the objects it owns.  [new_table] is [Table(data, **options)],
    [new_view] is [table.view] applied to the keywords of [config] and [new_list] allocates the
    empty list [[]].  [py_getattr] is the attribute lookup of
    [getattr(obj, name)] and [invoke] the call of the bound method found;
    [subscribe] is that call for the [on_*] methods, whose first argument
    is the callback.  [py_repr] is [repr], as it shows in the text of a
    [KeyError]; [dict_update_seq] is [dict.update] with an argument that
    is no dict.  Two texts are the interpreter's and differ between
    versions of CPython: [py_funcstr] is the name of a callee as it stands
    in front of the text of a failed unpacking, and [py_unbound_local] the
    text of the [UnboundLocalError] for a local variable (up to 3.10
    [local variable 'result' referenced before assignment], from 3.11
    [cannot access local variable 'result' where it is not associated with
    a value]). *)
Record Runtime : Type := {
  W : Type;
  json_loads : string -> outcome pyval;
  to_timestamp : Z -> outcome Z;
  py_repr : pyval -> string;
  py_funcstr : callee -> string;
  py_unbound_local : string -> string;
  new_table : pyval -> dict -> W -> outcome handle * W;
  new_list : W -> handle * W;
  new_view : handle -> dict -> W -> outcome handle * W;
  py_getattr : target -> string -> W -> outcome unit;
  invoke : target -> string -> list pyval -> dict -> W -> outcome pyval * W;
  subscribe : target -> string -> callback -> dict -> W -> outcome pyval * W;
  dict_update_seq : dict -> pyval -> outcome dict
}.

Inductive tentry : Type :=
| TTable (h : handle)
| TList (h : handle).

(** A view and the [_client_id] set on it at creation. *)
Record ventry : Type := VEntry { v_handle : handle; v_client_id : pyval }.

Definition tentry_target (e : tentry) : target :=
  match e with
  | TTable h => OnTable h
  | TList h => OnList h
  end.

(** ** Registries: Python dicts keyed by any hashable value *)

Section Registry.
Context {V : Type}.

Fixpoint reg_get (r : list (pyval * V)) (k : pyval) : option V :=
    match r with
    | [] => None
    | (k', v) :: r' => if py_eq k' k then Some v else reg_get r' k
    end.

Fixpoint reg_set (r : list (pyval * V)) (k : pyval) (v : V) : list (pyval * V) :=
    match r with
    | [] => [(k, v)]
    | (k', v') :: r' =>
        if py_eq k' k then (k', v) :: r' else (k', v') :: reg_set r' k v
    end.

Fixpoint reg_pop (r : list (pyval * V)) (k : pyval) : list (pyval * V) :=
    match r with
    | [] => []
    | (k', v') :: r' =>
        if py_eq k' k then r' else (k', v') :: reg_pop r' k
    end.

Definition reg_keys (r : list (pyval * V)) : list pyval := map fst r.
End Registry.

(** ** A state-and-exception monad

    A raised exception keeps the state reached, as in Python. *)

Definition M (S A : Type) : Type := S -> outcome A * S.

Definition ret {S A} (a : A) : M S A := fun st => (Ok a, st).

Definition raise {S A} (e : exn) : M S A := fun st => (Raise e, st).

Definition lift {S A} (o : outcome A) : M S A := fun st => (o, st).

Definition bind {S A B} (m : M S A) (k : A -> M S B) : M S B :=
  fun st =>
    match m st with
    | (Ok a, st') => k a st'
    | (Raise e, st') => (Raise e, st')
    end.

(** [try: body except <catches> as e: handler e] *)
Definition try_except {S A} (body : M S A) (catches : eclass -> bool)
    (handler : exn -> M S A) : M S A :=
  fun st =>
    match body st with
    | (Ok a, st') => (Ok a, st')
    | (Raise e, st') =>
        if catches (exn_class e) then handler e st' else (Raise e, st')
    end.

Notation "x <- c1 ;; c2" := (bind c1 (fun x => c2))
  (at level 61, c1 at next level, right associativity).
Notation "c1 ;; c2" := (bind c1 (fun _ => c2))
  (at level 61, right associativity).

(** ** The dispatcher *)

Definition LOCKED_COMMANDS : list string :=
  ["table"; "update"; "remove"; "replace"; "clear"].

Definition _make_message (id result : pyval) : dict :=
  [("id", id); ("data", result)].

Definition _make_error_message (id : pyval) (error : string) : dict :=
  [("id", id); ("error", VStr error)].

(** [_is_locked_command], on the value of [self._lock]. *)
Definition _is_locked_command (lock : bool) (msg : dict) : outcome bool :=
  if negb lock then Ok false
  else
    obind (getitem msg "cmd") (fun cmd =>
    let method := dict_get_default msg "method" VNone in
    if eq_str cmd "table_method" && eq_str method "delete" then Ok true
    else Ok (eq_str cmd "table" || in_strs method LOCKED_COMMANDS)).

(** The label of the access-denied error:
    [msg["cmd"] + (("." + msg["method"]) if msg.get("method", None) is not None else "")]. *)
Definition locked_label (msg : dict) : outcome pyval :=
  obind (getitem msg "cmd") (fun cmd =>
  obind (if is_None (dict_get_default msg "method" VNone) then Ok (VStr "")
         else obind (getitem msg "method") (fun m => str_add (VStr ".") m))
        (fun suffix => str_add cmd suffix)).

(** ["`{0}` failed - access denied".format(label)]; the label is a [str]
    whenever [locked_label] returns. *)
Definition access_denied (label : pyval) : string :=
  match label with
  | VStr l => "`" ++ l ++ "` failed - access denied"
  | _ => "`` failed - access denied"
  end.

Definition none_has_no (name : string) : exn :=
  Exn AttributeError ("'NoneType' object has no attribute '" ++ name ++ "'").

(** [method and method[:2] == "on"]: the name when it holds. *)
Definition on_method (method : pyval) : outcome (option string) :=
  if truthy method then
    match method with
    | VStr s => Ok (if prefix "on" s then Some s else None)
    | VBytes _ | VList _ => Ok None
    | VDict _ => Raise (Exn TypeError "unhashable type: 'slice'")
    | _ => Raise (Exn TypeError
             ("'" ++ tp_name method ++ "' object is not subscriptable"))
    end
  else Ok None.

(** [msg["method"].startswith("to_")] needs a [str]. *)
Definition method_name (method : pyval) : outcome string :=
  match method with
  | VStr m => Ok m
  | VBytes _ => Raise (Exn TypeError
      "startswith first arg must be bytes or a tuple of bytes, not str")
  | _ => Raise (Exn AttributeError
      ("'" ++ tp_name method ++ "' object has no attribute 'startswith'"))
  end.

Section Dispatcher.

Variable rt : Runtime.

Record manager : Type := Manager {
  _tables : list (pyval * tentry);
  _views : list (pyval * ventry);
  _callback_cache : list cb_record;
  _lock : bool;
  world : W rt;
  trace : list event
}.

Definition set_tables (t : list (pyval * tentry)) (st : manager) : manager :=
  Manager t (_views st) (_callback_cache st) (_lock st) (world st) (trace st).

Definition set_views (v : list (pyval * ventry)) (st : manager) : manager :=
  Manager (_tables st) v (_callback_cache st) (_lock st) (world st) (trace st).

Definition set_callbacks (c : list cb_record) (st : manager) : manager :=
  Manager (_tables st) (_views st) c (_lock st) (world st) (trace st).

Definition set_world (w : W rt) (st : manager) : manager :=
  Manager (_tables st) (_views st) (_callback_cache st) (_lock st) w (trace st).

Definition emit (e : event) : M manager unit :=
  fun st =>
    (Ok tt, Manager (_tables st) (_views st) (_callback_cache st) (_lock st)
              (world st) (trace st ++ [e])).

Definition post (post_callback : transport) (f : frame) : M manager unit :=
  emit (EvPost post_callback f).

Definition with_world {A} (f : W rt -> outcome A * W rt) : M manager A :=
  fun st => let (o, w) := f (world st) in (o, set_world w st).

(** [getattr(obj, name)]: [None] has only double-underscore attributes. *)
Definition getattr (t : target) (name : string) : M manager unit :=
  match t with
  | OnNone =>
      if prefix "__" name then fun st => (py_getattr rt t name (world st), st)
      else raise (none_has_no name)
  | _ => fun st => (py_getattr rt t name (world st), st)
  end.

(** The call of the bound method, once looked up and its arguments unpacked. *)
Definition call (t : target) (name : string) (args : list pyval) (kwargs : dict)
  : M manager pyval :=
  emit (EvCall t name args kwargs) ;;
  with_world (invoke rt t name args kwargs).

Definition call_on (t : target) (name : string) (cb : callback) (kwargs : dict)
  : M manager pyval :=
  emit (EvSubscribe t name cb kwargs) ;;
  with_world (subscribe rt t name cb kwargs).

(** Registry accesses.  [get] and [pop] take a default, [[]] raises. *)
Definition check_hashable (k : pyval) : M manager unit :=
  if hashable k then ret tt else raise (unhashable_error k).

Definition tables_get (k : pyval) : M manager (option tentry) :=
  check_hashable k ;; fun st => (Ok (reg_get (_tables st) k), st).

Definition views_get (k : pyval) : M manager (option ventry) :=
  check_hashable k ;; fun st => (Ok (reg_get (_views st) k), st).

Definition tables_getitem (k : pyval) : M manager tentry :=
  e <- tables_get k ;;
  match e with
  | Some e => ret e
  | None => raise (Exn KeyError (py_repr rt k))
  end.

Definition views_getitem (k : pyval) : M manager ventry :=
  e <- views_get k ;;
  match e with
  | Some e => ret e
  | None => raise (Exn KeyError (py_repr rt k))
  end.

Definition tables_setitem (k : pyval) (e : tentry) : M manager unit :=
  check_hashable k ;; fun st => (Ok tt, set_tables (reg_set (_tables st) k e) st).

Definition views_setitem (k : pyval) (e : ventry) : M manager unit :=
  check_hashable k ;; fun st => (Ok tt, set_views (reg_set (_views st) k e) st).

Definition views_pop (k : pyval) : M manager unit :=
  check_hashable k ;; fun st => (Ok tt, set_views (reg_pop (_views st) k) st).

(** Modelled from the spec: [_callback_cache.add_callback], of the callback
    registry, is not part of this module; the registry "tracks live
    subscriptions" and the dispatcher "stores the Callback Record". *)
Definition add_callback (r : cb_record) : M manager unit :=
  emit (EvAddCallback r) ;;
  fun st => (Ok tt, set_callbacks (_callback_cache st ++ [r]) st).

(** Modelled from the spec: [_callback_cache.remove_callbacks], not part of
    this module, is a "bulk removal by predicate"; the predicate the
    dispatcher passes is [lambda cb: cb["callback_id"] != callback_id], so
    that it removes "every Callback Record whose callback id does not equal
    the given id". *)
Definition remove_callbacks (callback_id : pyval) : M manager unit :=
  emit (EvRemoveCallbacks callback_id) ;;
  fun st =>
    (Ok tt,
     set_callbacks
       (filter (fun cb => py_eq (r_callback_id cb) callback_id)
          (_callback_cache st)) st).

Definition dumps (allow_nan dt : bool) (v : pyval) : M manager json :=
  lift (json_dumps (to_timestamp rt) allow_nan dt v).

(** [_message_to_json] *)
Definition _message_to_json (id : pyval) (message : dict) : M manager json :=
  try_except (dumps false true (VDict message)) is_ValueError
    (fun error =>
       let error_string := exn_text error in
       let error_string :=
         if String.eqb error_string out_of_range
         then "Cannot serialize `NaN`, `Infinity` or `-Infinity` to JSON."
         else error_string in
       let error_text := "JSON serialization error: " ++ error_string in
       let error_message := _make_error_message id error_text in
       emit (EvLogWarning error_text) ;;
       dumps true false (VDict error_message)).

(** [post_callback(self._message_to_json(msg["id"], message))] *)
Definition respond (msg : dict) (post_callback : transport) (message : dict)
  : M manager unit :=
  id <- lift (getitem msg "id") ;;
  j <- _message_to_json id message ;;
  post post_callback (Text j).

(** [post_callback(self._message_to_json(msg["id"],
      self._make_error_message(msg["id"], text)))] *)
Definition respond_error (msg : dict) (post_callback : transport) (text : string)
  : M manager unit :=
  id <- lift (getitem msg "id") ;;
  respond msg post_callback (_make_error_message id text).

(** [_process_bytes]: the announcement, then the payload.  The flag is set
    on the request's own dict; nothing reads that dict afterwards but for
    its id. *)
Definition _process_bytes (binary : string) (msg : dict) (post_callback : transport)
  : M manager unit :=
  let msg := dict_set msg "is_transferable" (VBool true) in
  j <- dumps true true (VDict msg) ;;
  post post_callback (Text j) ;;
  post post_callback (Binary binary).

(** [post_callback(self._message_to_json(msg["id"],
      self._make_message(msg["id"], result)))] *)
Definition respond_data (msg : dict) (post_callback : transport) (result : pyval)
  : M manager unit :=
  id <- lift (getitem msg "id") ;;
  respond msg post_callback (_make_message id result).

(** [self.callback], the function an [on_*] subscription hands to the
    engine, applied to the positional arguments the engine fires it with;
    [args] is the tuple of them. *)
Definition fire_callback (cb : callback) (args : list pyval) : M manager unit :=
  id <- lift (getitem (cb_msg cb) "id") ;;
  port_id <- lift (match nth_error args 0 with
                   | Some x => Ok x
                   | None => Raise (index_error "tuple")
                   end) ;;
  let msg := _make_message id (VDict [("port_id", port_id)]) in
  match args with
  | _ :: VBytes b :: _ => _process_bytes b msg (cb_post cb)
  | _ => respond msg (cb_post cb) msg
  end.

(** [f( *v )]: the positional arguments; the text of the failure is what
    follows the callee's name, which [in_call] puts in front. *)
Definition py_star (v : pyval) : outcome (list pyval) :=
  match py_iter v with
  | Ok l => Ok l
  | Raise _ => Raise (Exn TypeError
      ("argument after * must be an iterable, not " ++ tp_name v))
  end.

(** [_process_subscribe] *)
Definition _process_subscribe (msg : dict) (table_or_view : target)
    (post_callback : transport) (client_id : pyval) : M manager unit :=
  try_except
    (let callback_id := dict_get_default msg "callback_id" VNone in
     let method := dict_get_default msg "method" VNone in
     let args := dict_get_default msg "args" (VList []) in
     on_name <- lift (on_method method) ;;
     match on_name with
     | Some name =>
         let callback := Callback msg post_callback in
         (if truthy callback_id then
            add_callback
              (CbRecord client_id callback_id callback
                 (dict_get_default msg "name" VNone))
          else ret tt) ;;
         if String.eqb name "on_update" then
           n <- lift (py_len args) ;;
           mode <- (if Nat.ltb 0 n then lift (py_index args 0)
                    else ret (VDict [("mode", VStr "none")])) ;;
           getattr table_or_view name ;;
           kwargs <- lift (in_call (py_funcstr rt (Method table_or_view name))
                             (py_kwargs mode)) ;;
           call_on table_or_view name callback kwargs ;;
           ret tt
         else
           getattr table_or_view name ;;
           call_on table_or_view name callback [] ;;
           ret tt
     | None =>
         (if negb (is_None callback_id) then remove_callbacks callback_id
          else ret tt) ;;
         emit (EvLogInfo msg)
     end)
    is_Exception
    (fun error => respond_error msg post_callback (exn_text error)).

(** [for d in msg.get("args", []): args.update(d)] *)
Fixpoint merge_options (args : dict) (ds : list pyval) : outcome dict :=
  match ds with
  | [] => Ok args
  | d :: r =>
      obind (match d with
             | VDict e => Ok (dict_update args e)
             | _ => dict_update_seq rt args d
             end)
            (fun args' => merge_options args' r)
  end.

(** Lines 113-122 of [_process_method_call]: the local [args]. *)
Definition assemble_args (msg : dict) (m : string) : M manager pyval :=
  if str_in m ["schema"; "computed_schema"; "get_computation_input_types"] then
    ret (VDict [("as_string", VBool true)])
  else if prefix "to_" m then
    ds <- lift (py_iter (dict_get_default msg "args" (VList []))) ;;
    d <- lift (merge_options [] ds) ;;
    ret (VDict d)
  else ret (dict_get_default msg "args" (VList [])).

(** Lines 124-145: the deletion of a view, which returns at once ([None]
    here), or the call on the handle, whose result is returned. *)
Definition call_method (msg : dict) (cmd : pyval) (table_or_view : target)
    (m : string) (args : pyval) : M manager (option pyval) :=
  if String.eqb m "delete" && eq_str cmd "view_method" then
    name <- lift (getitem msg "name") ;;
    v <- views_getitem name ;;
    getattr (OnView (v_handle v)) "delete" ;;
    call (OnView (v_handle v)) "delete" [] [] ;;
    name <- lift (getitem msg "name") ;;
    views_pop name ;;
    ret None
  else
    result <-
      (if prefix "to_" m then
         getattr table_or_view m ;;
         kwargs <- lift (in_call (py_funcstr rt (Method table_or_view m))
                           (py_kwargs args)) ;;
         call table_or_view m [] kwargs
       else if str_in m ["update"; "remove"] then
         data <- lift (py_index args 0) ;;
         n <- lift (py_len args) ;;
         options <- (if Nat.ltb 1 n then
                       a1 <- lift (py_index args 1) ;;
                       ret (match a1 with VDict o => o | _ => [] end)
                     else ret []) ;;
         getattr table_or_view m ;;
         call table_or_view m [data] options
       else if str_in m ["computed_schema"; "get_computation_input_types"] then
         getattr table_or_view m ;;
         pos <- lift (in_call (py_funcstr rt (Method table_or_view m))
                        (py_star (dict_get_default msg "args" (VList [])))) ;;
         kwargs <- lift (in_call (py_funcstr rt (Method table_or_view m))
                           (py_kwargs args)) ;;
         call table_or_view m pos kwargs
       else if negb (String.eqb m "delete") then
         getattr table_or_view m ;;
         pos <- lift (in_call (py_funcstr rt (Method table_or_view m))
                        (py_star args)) ;;
         call table_or_view m pos []
       else raise (Exn UnboundLocalError (py_unbound_local rt "result"))) ;;
    ret (Some result).

(** Lines 146-155: a binary result goes out in two frames, any other one
    in a success message. *)
Definition deliver_result (msg : dict) (m : string) (result : pyval)
    (post_callback : transport) : M manager unit :=
  match result with
  | VBytes b =>
      if negb (String.eqb m "to_csv") then _process_bytes b msg post_callback
      else respond_data msg post_callback result
  | _ => respond_data msg post_callback result
  end.

(** Lines 100-107: the handle the method is called on. *)
Definition resolve (msg : dict) (cmd : pyval) (post_callback : transport)
  : M manager target :=
  if eq_str cmd "table_method" then
    name <- lift (getitem msg "name") ;;
    e <- tables_get name ;;
    ret (match e with Some e => tentry_target e | None => OnNone end)
  else
    name <- lift (getitem msg "name") ;;
    e <- views_get name ;;
    match e with
    | Some v => ret (OnView (v_handle v))
    | None =>
        respond_error msg post_callback "View is not initialized" ;;
        ret OnNone
    end.

(** Lines 113-145: the method call of a message that is no subscription;
    the method name and what [call_method] returned. *)
Definition invocation (msg : dict) (cmd : pyval) (table_or_view : target)
  : M manager (string * option pyval) :=
  method <- lift (getitem msg "method") ;;
  m <- lift (method_name method) ;;
  args <- assemble_args msg m ;;
  r <- call_method msg cmd table_or_view m args ;;
  ret (m, r).

(** Lines 109-155: the body of the [try] block, on the handle resolved. *)
Definition method_call_body (msg : dict) (cmd : pyval) (table_or_view : target)
    (post_callback : transport) (client_id : pyval) : M manager unit :=
  if is_True (dict_get_default msg "subscribe" (VBool false)) then
    _process_subscribe msg table_or_view post_callback client_id
  else
    mr <- invocation msg cmd table_or_view ;;
    match snd mr with
    | Some result => deliver_result msg (fst mr) result post_callback
    | None => ret tt
    end.

(** Lines 108-158: the [try] block and its [except Exception]. *)
Definition method_call_on (msg : dict) (cmd : pyval) (table_or_view : target)
    (post_callback : transport) (client_id : pyval) : M manager unit :=
  try_except
    (method_call_body msg cmd table_or_view post_callback client_id)
    is_Exception
    (fun error => respond_error msg post_callback (exn_text error)).

(** [_process_method_call] *)
Definition _process_method_call (msg : dict) (post_callback : transport)
    (client_id : pyval) : M manager unit :=
  cmd <- lift (getitem msg "cmd") ;;
  table_or_view <- resolve msg cmd post_callback ;;
  method_call_on msg cmd table_or_view post_callback client_id.

(** [_process] on a message that is a dict. *)
Definition _process_dict (msg : dict) (post_callback : transport)
    (client_id : pyval) : M manager unit :=
  cmd <- lift (getitem msg "cmd") ;;
  locked <- (fun st => (_is_locked_command (_lock st) msg, st)) ;;
  if locked : bool then
    label <- lift (locked_label msg) ;;
    respond_error msg post_callback (access_denied label)
  else
    try_except
      (if eq_str cmd "init" then
         respond_data msg post_callback VNone
       else if eq_str cmd "table" then
         try_except
           (args <- lift (getitem msg "args") ;;
            data_or_schema <- lift (py_index args 0) ;;
            options <- lift (in_call (py_funcstr rt TableClass)
                               (py_kwargs (dict_get_default msg "options" (VDict [])))) ;;
            emit (EvNewTable data_or_schema options) ;;
            h <- with_world (new_table rt data_or_schema options) ;;
            name <- lift (getitem msg "name") ;;
            tables_setitem name (TTable h))
           is_IndexError
           (fun _ =>
              h <- with_world (fun w => let (h, w') := new_list rt w in (Ok h, w')) ;;
              name <- lift (getitem msg "name") ;;
              tables_setitem name (TList h))
       else if eq_str cmd "view" then
         table_name <- lift (getitem msg "table_name") ;;
         e <- tables_getitem table_name ;;
         match e with
         | TTable h =>
             config <- lift (in_call (py_funcstr rt (Method (OnTable h) "view"))
                              (py_kwargs (dict_get_default msg "config" (VDict [])))) ;;
             emit (EvView h config) ;;
             v <- with_world (new_view rt h config) ;;
             view_name <- lift (getitem msg "view_name") ;;
             views_setitem view_name (VEntry v client_id)
         | TList _ =>
             raise (Exn AttributeError "'list' object has no attribute 'view'")
         end
       else if eq_str cmd "table_method" || eq_str cmd "view_method" then
         _process_method_call msg post_callback client_id
       else ret tt)
      is_perspective_error
      (fun e => respond_error msg post_callback (exn_text e)).

(** [_process]: a string is the heartbeat or JSON text; anything that is
    not a dict by then is refused. *)
Definition _process (msg : pyval) (post_callback : transport) (client_id : pyval)
  : M manager unit :=
  match msg with
  | VStr s =>
      if String.eqb s "heartbeat" then ret tt
      else
        decoded <- lift (json_loads rt s) ;;
        match decoded with
        | VDict d => _process_dict d post_callback client_id
        | _ => raise (Exn PerspectiveError
                 "Message passed into `_process` should either be a JSON-serialized string or a dict.")
        end
  | VDict d => _process_dict d post_callback client_id
  | _ => raise (Exn PerspectiveError
           "Message passed into `_process` should either be a JSON-serialized string or a dict.")
  end.

(** The frames a run handed to the transport callbacks, in order. *)
Fixpoint frames (tr : list event) : list frame :=
  match tr with
  | [] => []
  | EvPost _ f :: r => f :: frames r
  | _ :: r => frames r
  end.

End Dispatcher.

Arguments Manager {rt}.
Arguments _tables {rt}.
Arguments _views {rt}.
Arguments _callback_cache {rt}.
Arguments _lock {rt}.
Arguments world {rt}.
Arguments trace {rt}.

(** ** A small engine to run the dispatcher on

    Handles are allocated in sequence; [to_arrow] returns bytes, [to_csv]
    and [schema] text, [to_numpy] an array object, anything else [None].
    The texts of the interpreter are those of CPython 3.8. *)
Definition toy : Runtime := {|
  W := nat;
  json_loads := fun _ => Raise (Exn ValueError "Expecting value");
  to_timestamp := fun t => Ok t;
  py_repr := fun v => match v with VStr s => "'" ++ s ++ "'" | _ => "?" end;
  py_funcstr := fun c =>
    match c with TableClass => "type object" | Method _ m => m ++ "()" end;
  py_unbound_local := fun x =>
    "local variable '" ++ x ++ "' referenced before assignment";
  new_table := fun _ _ w => (Ok w, S w);
  new_list := fun w => (w, S w);
  new_view := fun _ _ w => (Ok w, S w);
  py_getattr := fun _ _ _ => Ok tt;
  invoke := fun _ m _ _ w =>
    (Ok (if String.eqb m "to_arrow" then VBytes "ARROW1"
         else if String.eqb m "to_csv" then VStr "a,b"
         else if String.eqb m "schema" then VDict [("a", VStr "integer")]
         else if String.eqb m "to_numpy" then VDict [("a", VObject "ndarray" 0)]
         else VNone), w);
  subscribe := fun _ _ _ _ w => (Ok VNone, w);
  dict_update_seq := fun d _ => Ok d
|}.

Definition toy_manager (lock : bool) : manager toy :=
  @Manager toy [] [] [] lock O [].

(** A manager holding table "t" (handle 0) and view "v" (handle 1). *)
Definition toy_manager_tv (lock : bool) : manager toy :=
  @Manager toy [(VStr "t", TTable 0)] [(VStr "v", VEntry 1 (VStr "c1"))] []
    lock 2 [].

(** ** Induction on values, through lists and dicts *)

Section PyvalInduction.

Variable P : pyval -> Prop.
Hypothesis HNone : P VNone.
Hypothesis HBool : forall b, P (VBool b).
Hypothesis HInt : forall z, P (VInt z).
Hypothesis HFloat : forall f, P (VFloat f).
Hypothesis HStr : forall s, P (VStr s).
Hypothesis HBytes : forall b, P (VBytes b).
Hypothesis HList : forall l, Forall P l -> P (VList l).
Hypothesis HDict : forall d, Forall (fun kv => P (snd kv)) d -> P (VDict d).
Hypothesis HDatetime : forall t, P (VDatetime t).
Hypothesis HObject : forall ty r, P (VObject ty r).

Fixpoint pyval_nested_ind (v : pyval) : P v :=
  match v with
  | VNone => HNone
  | VBool b => HBool b
  | VInt z => HInt z
  | VFloat f => HFloat f
  | VStr s => HStr s
  | VBytes b => HBytes b
  | VList l =>
      HList l
        ((fix go (l : list pyval) : Forall P l :=
            match l with
            | [] => Forall_nil P
            | x :: r => Forall_cons x (pyval_nested_ind x) (go r)
            end) l)
  | VDict d =>
      HDict d
        ((fix go (d : dict) : Forall (fun kv => P (snd kv)) d :=
            match d with
            | [] => Forall_nil _
            | (k, x) :: r =>
                Forall_cons (k, x) (pyval_nested_ind x) (go r)
            end) d)
  | VDatetime t => HDatetime t
  | VObject ty r => HObject ty r
  end.

End PyvalInduction.

(** ** Vocabulary of the statements *)

(** The state after one more observable effect. *)
Definition add_event {rt} (e : event) (st : manager rt) : manager rt :=
  Manager (_tables st) (_views st) (_callback_cache st) (_lock st) (world st)
    (trace st ++ [e]).

(** The success and error responses. *)
Definition data_response (jid data : json) : frame :=
  Text (JObj [("id", jid); ("data", data)]).

Definition error_response (jid : json) (text : string) : frame :=
  Text (JObj [("id", jid); ("error", JStr text)]).

(** A text frame whose document carries the id of the request. *)
Definition correlated (jid : json) (f : frame) : Prop :=
  exists o, f = Text (JObj o) /\ json_get o "id" = Some jid.

(** The id encodes under the strictest settings of the encoder (no
    non-finite float, no datetime, no foreign object). *)
Definition encodes (rt : Runtime) (v : pyval) (j : json) : Prop :=
  json_dumps (to_timestamp rt) false false v = Ok j.

(** What [json.loads] can produce. *)
Fixpoint from_json (v : pyval) : bool :=
  match v with
  | VNone | VBool _ | VInt _ | VFloat _ | VStr _ => true
  | VList l => forallb from_json l
  | VDict d => forallb (fun kv => from_json (snd kv)) d
  | VBytes _ | VDatetime _ | VObject _ _ => false
  end.

(** A non-finite float occurs in the value. *)
Fixpoint has_nonfinite (v : pyval) : bool :=
  match v with
  | VFloat f => negb (isfinite f)
  | VList l => existsb has_nonfinite l
  | VDict d => existsb (fun kv => has_nonfinite (snd kv)) d
  | _ => false
  end.

(** The keyword options of [update] and [remove]: the second positional
    argument when it is a dict. *)
Definition options_of (rest : list pyval) : dict :=
  match rest with
  | VDict o :: _ => o
  | _ => []
  end.

(** The lock gate in the words of the specification: the table command,
    a method call with a method in {update, remove, replace, clear}, and
    the deletion of a table. *)
Definition spec_isBlocked (lock : bool) (msg : dict) : bool :=
  let cmd := dict_get_default msg "cmd" VNone in
  let method := dict_get_default msg "method" VNone in
  lock &&
  (eq_str cmd "table"
   || ((eq_str cmd "table_method" || eq_str cmd "view_method")
       && in_strs method ["update"; "remove"; "replace"; "clear"])
   || (eq_str cmd "table_method" && eq_str method "delete")).

(** A message deletes a view. *)
Definition is_view_delete (msg : dict) : bool :=
  eq_str (dict_get_default msg "cmd" VNone) "view_method"
  && eq_str (dict_get_default msg "method" VNone) "delete".

(** The dict [_process] works on, when there is one. *)
Definition decoded (rt : Runtime) (msg : pyval) : option dict :=
  match msg with
  | VDict d => Some d
  | VStr s =>
      if String.eqb s "heartbeat" then None
      else match json_loads rt s with
           | Ok (VDict d) => Some d
           | _ => None
           end
  | _ => None
  end.

(** The engine is asked to delete nothing but views. *)
Definition deletes_views_only (e : event) : Prop :=
  match e with
  | EvCall t m _ _ => m = "delete" -> exists h, t = OnView h
  | _ => True
  end.

(** No call into the engine. *)
Definition no_engine_call (e : event) : Prop :=
  match e with
  | EvCall _ _ _ _ | EvSubscribe _ _ _ _ | EvNewTable _ _ | EvView _ _ => False
  | _ => True
  end.

(** Every name registered stays registered. *)
Definition keeps_names {V} (r r' : list (pyval * V)) : Prop :=
  forall k, reg_get r k <> None -> reg_get r' k <> None.

(** An event that is a call of a method of the engine. *)
Definition is_call (e : event) : Prop :=
  match e with
  | EvCall _ _ _ _ => True
  | _ => False
  end.

(** [progress P vd st st']: every table name of [st] is a table name of
    [st'], the trace of [st'] extends that of [st] by events that satisfy
    [P], and, unless [vd] allows the removal of a view, every view name of
    [st] is a view name of [st']. *)
Definition progress {rt} (P : event -> Prop) (vd : bool) (st st' : manager rt)
  : Prop :=
  keeps_names (_tables st) (_tables st')
  /\ (vd = false -> keeps_names (_views st) (_views st'))
  /\ exists evs, trace st' = (trace st ++ evs)%list /\ Forall P evs.

(** A relation between states that holds of no step, and of steps in
    sequence. *)
Class Steps {rt : Runtime} (R : manager rt -> manager rt -> Prop) : Prop := {
  steps_refl : forall st, R st st;
  steps_trans : forall a b c, R a b -> R b c -> R a c
}.

(** A computation every run of which relates the state it starts from to
    the state it ends in, whether it returns or raises. *)
Definition invariant (rt : Runtime) (R : manager rt -> manager rt -> Prop) {A}
    (m : M (manager rt) A) : Prop :=
  forall st, R st (snd (m st)).

(** A computation all of whose runs make progress. *)
Definition preserves (rt : Runtime) (P : event -> Prop) (vd : bool) {A}
    (m : M (manager rt) A) : Prop :=
  invariant rt (progress P vd) m.

(** [settled st st']: the callback registry is the same and the trace of
    [st'] extends that of [st]. *)
Definition settled {rt} (st st' : manager rt) : Prop :=
  _callback_cache st' = _callback_cache st
  /\ exists evs, trace st' = (trace st ++ evs)%list.

(** Between [st] and [st'] a frame that carries the id was delivered. *)
Definition answered {rt} (jid : json) (st st' : manager rt) : Prop :=
  exists evs f,
    trace st' = (trace st ++ evs)%list /\ In f (frames evs) /\ correlated jid f.

(** *** Messages of the scenarios *)

Definition msg_create_table : dict :=
  [("id", VInt 1); ("cmd", VStr "table"); ("name", VStr "t");
   ("args", VList [VDict [("a", VStr "integer")]])].

Definition msg_method_named_table : dict :=
  [("id", VInt 1); ("cmd", VStr "view_method"); ("name", VStr "v");
   ("method", VStr "table")].

Definition msg_locked_update : dict :=
  [("id", VInt 2); ("cmd", VStr "table_method"); ("name", VStr "t");
   ("method", VStr "update"); ("args", VList [VList []])].

Definition msg_schema_of_missing_view : dict :=
  [("id", VInt 1); ("cmd", VStr "view_method"); ("name", VStr "v");
   ("method", VStr "schema")].

Definition msg_with_array : dict :=
  [("id", VInt 1); ("data", VDict [("a", VObject "ndarray" 0)])].

Definition msg_table_schema : dict :=
  [("id", VInt 1); ("cmd", VStr "table_method"); ("name", VStr "t");
   ("method", VStr "schema"); ("args", VList [])].

Definition msg_computed_schema : dict :=
  [("id", VInt 1); ("cmd", VStr "table_method"); ("name", VStr "t");
   ("method", VStr "computed_schema"); ("args", VList [VList []])].

Definition msg_update : dict :=
  [("id", VInt 1); ("cmd", VStr "table_method"); ("name", VStr "t");
   ("method", VStr "update");
   ("args", VList [VList [VDict [("a", VInt 1)]]; VStr "ignored"])].

Definition msg_to_arrow : dict :=
  [("id", VInt 1); ("cmd", VStr "view_method"); ("name", VStr "v");
   ("method", VStr "to_arrow"); ("args", VList [])].

Definition msg_subscribe_id0 : dict :=
  [("id", VInt 1); ("cmd", VStr "view_method"); ("name", VStr "v");
   ("method", VStr "on_update"); ("subscribe", VBool true);
   ("callback_id", VInt 0)].

Definition msg_subscribe_id7 : dict :=
  [("id", VInt 1); ("cmd", VStr "view_method"); ("name", VStr "v");
   ("method", VStr "on_update"); ("subscribe", VBool true);
   ("callback_id", VInt 7)].

Definition msg_subscribe_nothing : dict :=
  [("id", VInt 1); ("cmd", VStr "table_method"); ("name", VStr "missing");
   ("method", VStr "foo"); ("subscribe", VBool true)].

Definition msg_missing_table : dict :=
  [("id", VInt 1); ("cmd", VStr "table_method"); ("name", VStr "missing");
   ("method", VStr "size")].

(** ** Garbage collection of a client's views *)

Section GarbageCollection.

Variable rt : Runtime.

(** The first loop of [clear_views], over the items of [self._views]: a
    view whose [_client_id] equals the client's is deleted in the engine
    and its name noted; [names] holds the names noted so far. *)
Fixpoint sweep_views (client_id : pyval) (items : list (pyval * ventry))
    (names : list pyval) : M (manager rt) (list pyval) :=
  match items with
  | [] => ret names
  | (name, view) :: r =>
      if py_eq (v_client_id view) client_id then
        getattr rt (OnView (v_handle view)) "delete" ;;
        call rt (OnView (v_handle view)) "delete" [] [] ;;
        sweep_views client_id r (names ++ [name])
      else sweep_views client_id r names
  end.

(** [self._views.pop(name)], which raises when the name is not there. *)
Definition views_pop_strict (k : pyval) : M (manager rt) unit :=
  views_getitem rt k ;; views_pop rt k.

(** The second loop of [clear_views]. *)
Fixpoint pop_views (names : list pyval) : M (manager rt) unit :=
  match names with
  | [] => ret tt
  | name :: r => views_pop_strict name ;; pop_views r
  end.

(** ["GC {} views in memory".format(count)] *)
Definition gc_report (count : nat) : string :=
  "GC " ++ NilEmpty.string_of_uint (Nat.to_uint count) ++ " views in memory".

(** [clear_views]; [count] is the number of names noted. *)
Definition clear_views (client_id : pyval) : M (manager rt) unit :=
  if negb (truthy client_id) then
    raise (Exn PerspectiveError
      "Cannot garbage collect views that are not linked to a specific client ID!")
  else
    names <- (fun st => sweep_views client_id (_views st) [] st) ;;
    pop_views names ;;
    emit rt (EvLogWarning (gc_report (length names))).

End GarbageCollection.

(** ** A second engine, on which every operation fails

    Each constructor and each call raises [PerspectiveCppError]; attribute
    lookups succeed. *)
Definition engine_failure : exn := Exn PerspectiveCppError "engine failure".

Definition faulty : Runtime := {|
  W := nat;
  json_loads := fun _ => Raise (Exn ValueError "Expecting value");
  to_timestamp := fun t => Ok t;
  py_repr := fun v => match v with VStr s => "'" ++ s ++ "'" | _ => "?" end;
  py_funcstr := fun c =>
    match c with TableClass => "type object" | Method _ m => m ++ "()" end;
  py_unbound_local := fun x =>
    "local variable '" ++ x ++ "' referenced before assignment";
  new_table := fun _ _ w => (Raise engine_failure, w);
  new_list := fun w => (w, S w);
  new_view := fun _ _ w => (Raise engine_failure, w);
  py_getattr := fun _ _ _ => Ok tt;
  invoke := fun _ _ _ _ w => (Raise engine_failure, w);
  subscribe := fun _ _ _ _ w => (Raise engine_failure, w);
  dict_update_seq := fun d _ => Ok d
|}.

(** A manager of the failing engine holding table "t" and view "v". *)
Definition faulty_manager_tv : manager faulty :=
  @Manager faulty [(VStr "t", TTable 0)] [(VStr "v", VEntry 1 (VStr "c1"))] []
    false 2 [].

(** A third engine, every call of which returns [r]. *)
Definition returning (r : pyval) : Runtime := {|
  W := nat;
  json_loads := fun _ => Raise (Exn ValueError "Expecting value");
  to_timestamp := fun t => Ok t;
  py_repr := fun v => match v with VStr s => "'" ++ s ++ "'" | _ => "?" end;
  py_funcstr := fun c =>
    match c with TableClass => "type object" | Method _ m => m ++ "()" end;
  py_unbound_local := fun x =>
    "local variable '" ++ x ++ "' referenced before assignment";
  new_table := fun _ _ w => (Ok w, S w);
  new_list := fun w => (w, S w);
  new_view := fun _ _ w => (Ok w, S w);
  py_getattr := fun _ _ _ => Ok tt;
  invoke := fun _ _ _ _ w => (Ok r, w);
  subscribe := fun _ _ _ _ w => (Ok VNone, w);
  dict_update_seq := fun d _ => Ok d
|}.

(** ** Vocabulary of the further properties *)

Definition is_str (v : pyval) : bool :=
  match v with VStr _ => true | _ => false end.

(** A registry as the protocol fills it: the names are strings, each
    registered once. *)
Definition string_named {V} (r : list (pyval * V)) : Prop :=
  Forall (fun kv => is_str (fst kv) = true) r /\ NoDup (map fst r).

(** The view belongs to the client. *)
Definition owned_by (client_id : pyval) (kv : pyval * ventry) : bool :=
  py_eq (v_client_id (snd kv)) client_id.

(** The value the last of the dicts that binds [k] gives it. *)
Fixpoint merged_lookup (ds : list dict) (k : string) : option pyval :=
  match ds with
  | [] => None
  | d :: r =>
      match merged_lookup r k with
      | Some v => Some v
      | None => dict_get d k
      end
  end.

(** The value with each datetime replaced by its timestamp [ms]. *)
Fixpoint stamp (ms : Z -> Z) (v : pyval) : pyval :=
  match v with
  | VDatetime t => VInt (ms t)
  | VList l => VList (map (stamp ms) l)
  | VDict d => VDict (map (fun kv => (fst kv, stamp ms (snd kv))) d)
  | _ => v
  end.

(** An event that, if it is a frame, goes to the transport [tp], and if it
    hands a callback to the engine, hands one that answers on [tp]. *)
Definition addressed_to (tp : transport) (e : event) : Prop :=
  match e with
  | EvPost tp' _ => tp' = tp
  | EvSubscribe _ _ cb _ => cb_post cb = tp
  | EvAddCallback r => cb_post (r_callback r) = tp
  | _ => True
  end.

(** The trace of [st'] extends that of [st] by events addressed to [tp],
    and the lock is the same. *)
Definition answers_on {rt} (tp : transport) (st st' : manager rt) : Prop :=
  _lock st' = _lock st
  /\ exists evs, trace st' = (trace st ++ evs)%list
                 /\ Forall (addressed_to tp) evs.

(** The call that asks the engine to delete a registered view. *)
Definition delete_call (kv : pyval * ventry) : event :=
  EvCall (OnView (v_handle (snd kv))) "delete" [] [].

(** The tables, the callback registry and the lock are the same, and the
    trace of [st'] extends that of [st] by events none of which is a
    frame. *)
Definition collects {rt} (st st' : manager rt) : Prop :=
  _tables st' = _tables st
  /\ _callback_cache st' = _callback_cache st
  /\ _lock st' = _lock st
  /\ exists evs, trace st' = (trace st ++ evs)%list /\ frames evs = [].

(** *** Further messages *)

Definition msg_create_empty_table : dict :=
  [("id", VInt 3); ("cmd", VStr "table"); ("name", VStr "e"); ("args", VList [])].

Definition msg_create_view : dict :=
  [("id", VInt 2); ("cmd", VStr "view"); ("table_name", VStr "t");
   ("view_name", VStr "w"); ("config", VDict [])].

Definition msg_unknown : dict :=
  [("id", VInt 4); ("cmd", VStr "dance")].

Definition msg_table_delete : dict :=
  [("id", VInt 5); ("cmd", VStr "table_method"); ("name", VStr "t");
   ("method", VStr "delete")].

Definition msg_update_nothing : dict :=
  [("id", VInt 6); ("cmd", VStr "table_method"); ("name", VStr "t");
   ("method", VStr "update"); ("args", VList [])].

Definition msg_no_method : dict :=
  [("id", VInt 7); ("cmd", VStr "table_method"); ("name", VStr "t")].

Definition msg_to_csv_options : dict :=
  [("id", VInt 8); ("cmd", VStr "view_method"); ("name", VStr "v");
   ("method", VStr "to_csv");
   ("args", VList [VDict [("start_row", VInt 0); ("end_row", VInt 5)];
                   VDict [("end_row", VInt 9)]])].

Definition msg_view_delete : dict :=
  [("id", VInt 9); ("cmd", VStr "view_method"); ("name", VStr "v");
   ("method", VStr "delete")].

Definition msg_size : dict :=
  [("id", VInt 10); ("cmd", VStr "table_method"); ("name", VStr "t");
   ("method", VStr "size"); ("args", VList [])].


(** * Properties *)

(** ** Facts about values and the encoder *)


Lemma eq_str_true (v : pyval) (s : string) : eq_str v s = true <-> v = VStr s.
Proof.
  destruct v; simpl; try (split; [discriminate | intros H; inversion H]).
  rewrite String.eqb_eq. split; intros H; [subst | inversion H]; reflexivity.
Qed.

Lemma in_strs_true (v : pyval) (l : list string) :
  in_strs v l = true <-> exists m, v = VStr m /\ In m l.
Proof.
  unfold in_strs. rewrite existsb_exists. split.
  - intros [s [Hin Heq]]. apply eq_str_true in Heq. exists s. split; assumption.
  - intros [m [Hv Hin]]. exists m. split; [assumption |].
    apply eq_str_true. assumption.
Qed.

Lemma dict_get_set_other (d : dict) (k k' : string) (v : pyval) :
  k' <> k -> dict_get (dict_set d k' v) k = dict_get d k.
Proof.
  intros Hne. induction d as [| [k0 v0] r IH]; simpl.
  - destruct (String.eqb_spec k' k); [contradiction | reflexivity].
  - destruct (String.eqb_spec k0 k') as [E | E]; simpl.
    + subst k0. destruct (String.eqb_spec k' k); [contradiction | reflexivity].
    + destruct (String.eqb k0 k); [reflexivity | exact IH].
Qed.

Lemma dict_get_set_same (d : dict) (k : string) (v : pyval) :
  dict_get (dict_set d k v) k = Some v.
Proof.
  induction d as [| [k0 v0] r IH]; simpl.
  - rewrite String.eqb_refl. reflexivity.
  - destruct (String.eqb k0 k) eqn:E; simpl; rewrite E; [reflexivity | exact IH].
Qed.

Lemma frames_app (a b : list event) :
  frames (a ++ b) = (frames a ++ frames b)%list.
Proof.
  induction a as [| e r IH]; simpl; [reflexivity |].
  destruct e; simpl; rewrite ?IH; reflexivity.
Qed.

Section EncoderFacts.

Variable ts : Z -> outcome Z.

Lemma json_dumps_list a dt l :
  json_dumps ts a dt (VList l)
  = obind (dumps_list ts a dt l) (fun js => Ok (JArr js)).
Proof.
  simpl. f_equal. induction l as [| x r IH]; simpl; [reflexivity |].
  rewrite IH. reflexivity.
Qed.

Lemma json_dumps_dict a dt d :
  json_dumps ts a dt (VDict d)
  = obind (dumps_items ts a dt d) (fun js => Ok (JObj js)).
Proof.
  simpl. f_equal. induction d as [| [k x] r IH]; simpl; [reflexivity |].
  rewrite IH. reflexivity.
Qed.

(** What encodes under the strictest settings encodes the same under any. *)
Lemma encodes_any (v : pyval) :
  forall j a dt,
    json_dumps ts false false v = Ok j -> json_dumps ts a dt v = Ok j.
Proof.
  induction v as [| b | z | f | s | b | l IH | d IH | t | ty r]
    using pyval_nested_ind; intros j a dt H;
    try (simpl in *; congruence).
  - simpl in *. destruct (isfinite f); simpl in *; [assumption | discriminate].
  - rewrite json_dumps_list in *.
    assert (E : forall js, dumps_list ts false false l = Ok js ->
                           dumps_list ts a dt l = Ok js).
    { clear H. induction IH as [| x r Hx _ IHr]; intros js Hjs; simpl in *.
      - assumption.
      - destruct (json_dumps ts false false x) as [jx |] eqn:Ex;
          simpl in Hjs; [| discriminate].
        rewrite (Hx jx a dt eq_refl). simpl.
        destruct (dumps_list ts false false r) as [jr |] eqn:Er;
          simpl in Hjs; [| discriminate].
        rewrite (IHr jr eq_refl). simpl. assumption. }
    destruct (dumps_list ts false false l) as [js |]; simpl in H; [| discriminate].
    rewrite (E js eq_refl). assumption.
  - rewrite json_dumps_dict in *.
    assert (E : forall js, dumps_items ts false false d = Ok js ->
                           dumps_items ts a dt d = Ok js).
    { clear H. induction IH as [| [k x] r Hx _ IHr]; intros js Hjs; simpl in *.
      - assumption.
      - destruct (json_dumps ts false false x) as [jx |] eqn:Ex;
          simpl in Hjs; [| discriminate].
        rewrite (Hx jx a dt eq_refl). simpl.
        destruct (dumps_items ts false false r) as [jr |] eqn:Er;
          simpl in Hjs; [| discriminate].
        rewrite (IHr jr eq_refl). simpl. assumption. }
    destruct (dumps_items ts false false d) as [js |]; simpl in H; [| discriminate].
    rewrite (E js eq_refl). assumption.
Qed.

(** With [allow_nan] every value that came from JSON encodes. *)
Lemma dumps_from_json (v : pyval) :
  forall dt, from_json v = true -> exists j, json_dumps ts true dt v = Ok j.
Proof.
  induction v as [| b | z | f | s | b | l IH | d IH | t | ty r]
    using pyval_nested_ind; intros dt H;
    try (simpl in *; first [discriminate | eexists; reflexivity]).
  - simpl. rewrite orb_true_r. eexists; reflexivity.
  - rewrite json_dumps_list.
    assert (E : exists js, dumps_list ts true dt l = Ok js).
    { simpl in H. induction IH as [| x r Hx _ IHr]; simpl in *.
      - eexists; reflexivity.
      - apply andb_true_iff in H. destruct H as [H1 H2].
        destruct (Hx dt H1) as [jx Ex]. destruct (IHr H2) as [jr Er].
        rewrite Ex, Er. simpl. eexists; reflexivity. }
    destruct E as [js E]. rewrite E. simpl. eexists; reflexivity.
  - rewrite json_dumps_dict.
    assert (E : exists js, dumps_items ts true dt d = Ok js).
    { simpl in H. induction IH as [| [k x] r Hx _ IHr]; simpl in *.
      - eexists; reflexivity.
      - apply andb_true_iff in H. destruct H as [H1 H2].
        destruct (Hx dt H1) as [jx Ex]. destruct (IHr H2) as [jr Er].
        rewrite Ex, Er. simpl. eexists; reflexivity. }
    destruct E as [js E]. rewrite E. simpl. eexists; reflexivity.
Qed.

(** The document of a dict holds, under each key, the document of the value. *)
Lemma dumps_items_get a dt (d : dict) :
  forall o, dumps_items ts a dt d = Ok o ->
  forall k v, dict_get d k = Some v ->
  exists jv, json_get o k = Some jv /\ json_dumps ts a dt v = Ok jv.
Proof.
  induction d as [| [k0 x] r IH]; intros o Ho k v Hk; simpl in *.
  - discriminate.
  - destruct (json_dumps ts a dt x) as [jx |] eqn:Ex; simpl in Ho; [| discriminate].
    destruct (dumps_items ts a dt r) as [jr |] eqn:Er; simpl in Ho; [| discriminate].
    inversion Ho; subst o; clear Ho. simpl.
    destruct (String.eqb k0 k).
    + inversion Hk; subst. exists jx. split; [reflexivity | assumption].
    + apply (IH jr eq_refl k v Hk).
Qed.

Lemma dumps_dict_get a dt (d : dict) (j : json) :
  json_dumps ts a dt (VDict d) = Ok j ->
  exists o, j = JObj o /\
    forall k v, dict_get d k = Some v ->
    exists jv, json_get o k = Some jv /\ json_dumps ts a dt v = Ok jv.
Proof.
  rewrite json_dumps_dict. intros H.
  destruct (dumps_items ts a dt d) as [o |] eqn:E; simpl in H; [| discriminate].
  inversion H; subst j. exists o. split; [reflexivity |].
  apply dumps_items_get. assumption.
Qed.

(** The document of a dict has the keys of the dict and no other. *)
Lemma dumps_dict_get_none a dt (d : dict) (o : list (string * json)) :
  json_dumps ts a dt (VDict d) = Ok (JObj o) ->
  forall k, dict_get d k = None -> json_get o k = None.
Proof.
  rewrite json_dumps_dict. intros H.
  destruct (dumps_items ts a dt d) as [o' |] eqn:E; simpl in H; [| discriminate].
  inversion H; subst o'. clear H. revert o E.
  induction d as [| [k0 x] r IH]; intros o E k Hk; simpl in *.
  - inversion E. reflexivity.
  - destruct (json_dumps ts a dt x) as [jx |]; simpl in E; [| discriminate].
    destruct (dumps_items ts a dt r) as [jr |]; simpl in E; [| discriminate].
    inversion E; subst o. simpl.
    destruct (String.eqb k0 k); [discriminate | apply (IH jr eq_refl k Hk)].
Qed.

(** The strict encoder on a value from JSON: refused with the [ValueError]
    the dispatcher looks for when a non-finite float occurs in it, encoded
    otherwise. *)
Lemma strict_from_json (v : pyval) :
  forall dt, from_json v = true ->
  if has_nonfinite v
  then json_dumps ts false dt v = Raise (Exn ValueError out_of_range)
  else exists j, json_dumps ts false dt v = Ok j.
Proof.
  induction v as [| b | z | f | s | b | l IH | d IH | t | ty r]
    using pyval_nested_ind; intros dt Hj;
    try (simpl in *; first [discriminate | eexists; reflexivity]).
  - simpl in *. destruct (isfinite f); simpl; [eexists |]; reflexivity.
  - rewrite json_dumps_list.
    assert (E : if existsb has_nonfinite l
                then dumps_list ts false dt l = Raise (Exn ValueError out_of_range)
                else exists js, dumps_list ts false dt l = Ok js).
    { simpl in Hj. induction IH as [| x r Hx _ IHr]; simpl in *.
      - eexists; reflexivity.
      - apply andb_true_iff in Hj. destruct Hj as [H1 H2].
        specialize (Hx dt H1). specialize (IHr H2).
        destruct (has_nonfinite x); simpl.
        + rewrite Hx. reflexivity.
        + destruct Hx as [jx Ex]. rewrite Ex. simpl.
          destruct (existsb has_nonfinite r).
          * rewrite IHr. reflexivity.
          * destruct IHr as [jr Er]. rewrite Er. simpl. eexists; reflexivity. }
    change (has_nonfinite (VList l)) with (existsb has_nonfinite l).
    destruct (existsb has_nonfinite l).
    + rewrite E. reflexivity.
    + destruct E as [js E]. rewrite E. simpl. eexists; reflexivity.
  - rewrite json_dumps_dict.
    assert (E : if existsb (fun kv => has_nonfinite (snd kv)) d
                then dumps_items ts false dt d = Raise (Exn ValueError out_of_range)
                else exists js, dumps_items ts false dt d = Ok js).
    { simpl in Hj. induction IH as [| [k x] r Hx _ IHr]; simpl in *.
      - eexists; reflexivity.
      - apply andb_true_iff in Hj. destruct Hj as [H1 H2].
        specialize (Hx dt H1). specialize (IHr H2).
        destruct (has_nonfinite x); simpl.
        + rewrite Hx. reflexivity.
        + destruct Hx as [jx Ex]. rewrite Ex. simpl.
          destruct (existsb (fun kv => has_nonfinite (snd kv)) r).
          * rewrite IHr. reflexivity.
          * destruct IHr as [jr Er]. rewrite Er. simpl. eexists; reflexivity. }
    change (has_nonfinite (VDict d))
      with (existsb (fun kv => has_nonfinite (snd kv)) d).
    destruct (existsb (fun kv => has_nonfinite (snd kv)) d).
    + rewrite E. reflexivity.
    + destruct E as [js E]. rewrite E. simpl. eexists; reflexivity.
Qed.

End EncoderFacts.

(** ** The encoder *)

(** C4 (the code departs from it): [_message_to_json] is documented to
    catch any exception of the serialization and to return an error
    message, and the claim has it never raise; it catches [ValueError]
    only, so on the result of [to_numpy] the [TypeError] of the encoder
    leaves [_message_to_json]. *)
Theorem message_to_json_raises_TypeError (rt : Runtime) (st : manager rt) :
  _message_to_json rt (VInt 1) msg_with_array st
  = (Raise (Exn TypeError "Object of type ndarray is not JSON serializable"), st).
Proof. reflexivity. Qed.

(** What the encoder does catch: a message from JSON values in which a
    non-finite float occurs is refused by [json.dumps], and
    [_message_to_json] logs and returns the error message for the same id,
    whose text names NaN and Infinity. *)
Lemma nonfinite_degrades (rt : Runtime) (st : manager rt) (id : pyval)
    (message : dict) :
  from_json (VDict message) = true -> has_nonfinite (VDict message) = true ->
  from_json id = true ->
  exists jid,
    _message_to_json rt id message st
    = (Ok (JObj [("id", jid);
                 ("error",
                  JStr "JSON serialization error: Cannot serialize `NaN`, `Infinity` or `-Infinity` to JSON.")]),
       add_event
         (EvLogWarning
            "JSON serialization error: Cannot serialize `NaN`, `Infinity` or `-Infinity` to JSON.")
         st).
Proof.
  intros Hj Hn Hid.
  pose proof (strict_from_json (to_timestamp rt) (VDict message) true Hj) as H.
  rewrite Hn in H.
  destruct (dumps_from_json (to_timestamp rt) id false Hid) as [jid Hjid].
  exists jid.
  unfold _message_to_json, try_except, dumps, lift. rewrite H.
  unfold bind, emit. cbn [exn_class is_ValueError exn_text].
  cbn [json_dumps _make_error_message obind]. rewrite Hjid. reflexivity.
Qed.

(** ** Unresolved views *)

(** C3 (the code departs from it): after "View is not initialized" the
    dispatcher goes on with the absent handle and answers the same id a
    second time. *)
Theorem missing_view_answered_twice (rt : Runtime) (w : W rt) :
  _process rt (VDict msg_schema_of_missing_view) 0 VNone
    (Manager [] [] [] false w [])
  = (Ok tt,
     Manager [] [] [] false w
       [EvPost 0 (error_response (JInt 1) "View is not initialized");
        EvPost 0 (error_response (JInt 1)
                    "'NoneType' object has no attribute 'schema'")]).
Proof. reflexivity. Qed.

(** ** Schema methods *)

(** C5 (the code departs from it): for [schema] the dict holding
    [as_string] is unpacked with a single star, so the engine receives the
    string "as_string" as a positional argument and no keyword at all. *)
Theorem schema_called_without_keyword :
  trace (snd (_process toy (VDict msg_table_schema) 0 VNone (toy_manager_tv false)))
  = [EvCall (OnTable 0) "schema" [VStr "as_string"] [];
     EvPost 0 (data_response (JInt 1) (JObj [("a", JStr "integer")]))].
Proof. reflexivity. Qed.


(** The sibling branch: [computed_schema] receives the positional
    arguments and the keyword. *)
Example computed_schema_called_with_keyword :
  trace (snd (_process toy (VDict msg_computed_schema) 0 VNone
                (toy_manager_tv false)))
  = [EvCall (OnTable 0) "computed_schema" [VList []] [("as_string", VBool true)];
     EvPost 0 (data_response (JInt 1) JNull)].
Proof. reflexivity. Qed.

(** ** Running the monad *)

Lemma append_empty_r (s : string) : s ++ "" = s.
Proof. induction s as [| c r IH]; simpl; [| rewrite IH]; reflexivity. Qed.

Section DispatcherFacts.

Variable rt : Runtime.

Lemma bind_ok {A B} (m : M (manager rt) A) (k : A -> M (manager rt) B) st a st1 :
  m st = (Ok a, st1) -> bind m k st = k a st1.
Proof. intros H. unfold bind. rewrite H. reflexivity. Qed.

Lemma bind_raise {A B} (m : M (manager rt) A) (k : A -> M (manager rt) B) st e st1 :
  m st = (Raise e, st1) -> bind m k st = (Raise e, st1).
Proof. intros H. unfold bind. rewrite H. reflexivity. Qed.

Lemma bind_inv_ok {A B} (m : M (manager rt) A) (k : A -> M (manager rt) B) st b st' :
  bind m k st = (Ok b, st') ->
  exists a st1, m st = (Ok a, st1) /\ k a st1 = (Ok b, st').
Proof.
  unfold bind. destruct (m st) as [[a | e] st1]; intros H.
  - exists a, st1. split; [reflexivity | assumption].
  - discriminate.
Qed.

(** An error response for an id that encodes is always delivered. *)
Lemma respond_error_run (msg : dict) (tp : transport) (text : string)
    (st : manager rt) (idv : pyval) (jid : json) :
  dict_get msg "id" = Some idv -> encodes rt idv jid ->
  respond_error rt msg tp text st
  = (Ok tt, add_event (EvPost tp (error_response jid text)) st).
Proof.
  intros Hid Henc.
  unfold respond_error, respond, _message_to_json, dumps, try_except, bind, lift,
    getitem.
  rewrite Hid. cbn [json_dumps _make_error_message obind].
  rewrite (encodes_any _ _ _ false true Henc). reflexivity.
Qed.

(** ** The lock gate *)

Lemma gate_unlocked (msg : dict) : _is_locked_command false msg = Ok false.
Proof. reflexivity. Qed.

Lemma gate_locked (msg : dict) (cmd : pyval) :
  dict_get msg "cmd" = Some cmd ->
  _is_locked_command true msg
  = Ok ((eq_str cmd "table_method"
         && eq_str (dict_get_default msg "method" VNone) "delete")
        || (eq_str cmd "table"
            || in_strs (dict_get_default msg "method" VNone) LOCKED_COMMANDS)).
Proof.
  intros Hc. unfold _is_locked_command, getitem. rewrite Hc. simpl.
  destruct (eq_str cmd "table_method"
            && eq_str (dict_get_default msg "method" VNone) "delete");
    reflexivity.
Qed.

Lemma locked_label_cases (msg : dict) (c label : string) :
  dict_get msg "cmd" = Some (VStr c) ->
  (dict_get_default msg "method" VNone = VNone /\ label = c)
  \/ (exists m, dict_get msg "method" = Some (VStr m) /\ label = c ++ "." ++ m) ->
  locked_label msg = Ok (VStr label).
Proof.
  intros Hc [[Hm Hl] | [m [Hm Hl]]]; unfold locked_label, getitem; rewrite Hc.
  - rewrite Hm. simpl. rewrite append_empty_r. subst. reflexivity.
  - unfold dict_get_default. rewrite Hm. simpl. subst. reflexivity.
Qed.

End DispatcherFacts.

(** C2 (as amended): the gate lets everything through when the manager is
    not locked.  When it is locked, a message is blocked exactly when its
    command is [table], or its method, whatever the command, is one of
    table, update, remove, replace, clear, or it is a [table_method] with
    method delete; the deletion of a view is never blocked.  A blocked
    message whose command is text, whose method is text, [None] or absent
    and whose id encodes has one effect only, the access-denied error for
    its id, labelled with the command and, when there is one, the method;
    no registry is read or changed. *)
Theorem lock_gate (rt : Runtime) (st : manager rt) (msg : dict)
    (tp : transport) (cid cmd : pyval) :
  dict_get msg "cmd" = Some cmd ->
  let method := dict_get_default msg "method" VNone in
  _is_locked_command false msg = Ok false
  /\ (exists b, _is_locked_command true msg = Ok b /\
        (b = true <->
           cmd = VStr "table"
           \/ (exists m, method = VStr m
                 /\ In m ["table"; "update"; "remove"; "replace"; "clear"])
           \/ (cmd = VStr "table_method" /\ method = VStr "delete")))
  /\ (cmd = VStr "view_method" -> method = VStr "delete" ->
      forall lock, _is_locked_command lock msg = Ok false)
  /\ (_is_locked_command (_lock st) msg = Ok true ->
      forall c label idv jid,
        cmd = VStr c ->
        (method = VNone /\ label = c)
        \/ (exists m, dict_get msg "method" = Some (VStr m)
              /\ label = c ++ "." ++ m) ->
        dict_get msg "id" = Some idv -> encodes rt idv jid ->
        _process rt (VDict msg) tp cid st
        = (Ok tt,
           add_event
             (EvPost tp (error_response jid
                           ("`" ++ label ++ "` failed - access denied"))) st)).
Proof.
  intros Hc method. split; [reflexivity |]. split; [| split].
  - eexists. split; [apply gate_locked; exact Hc |].
    fold method. rewrite !orb_true_iff, andb_true_iff, !eq_str_true, in_strs_true.
    unfold LOCKED_COMMANDS. tauto.
  - intros Hcmd Hm [|]; [| reflexivity].
    rewrite (gate_locked msg cmd Hc). fold method. rewrite Hcmd, Hm. reflexivity.
  - intros Hgate c label idv jid Hcmd Hlabel Hid Henc. subst cmd.
    unfold _process, _process_dict.
    rewrite (bind_ok _ _ _ _ (VStr c) st);
      [| unfold lift, getitem; rewrite Hc; reflexivity].
    rewrite (bind_ok _ _ _ _ true st); [| rewrite Hgate; reflexivity].
    rewrite (bind_ok _ _ _ _ (VStr label) st);
      [| unfold lift; rewrite (locked_label_cases msg c label Hc Hlabel);
         reflexivity].
    apply (respond_error_run rt msg tp _ st idv jid Hid Henc).
Qed.

Lemma lock_gate_witness :
  _process toy (VDict msg_locked_update) 0 VNone (toy_manager_tv true)
  = (Ok tt,
     add_event
       (EvPost 0 (error_response (JInt 2)
                    "`table_method.update` failed - access denied"))
       (toy_manager_tv true)).
Proof.
  apply (proj2 (proj2 (proj2
           (lock_gate toy (toy_manager_tv true) msg_locked_update 0 VNone
              (VStr "table_method") eq_refl)))
           eq_refl "table_method" "table_method.update" (VInt 2) (JInt 2)
           eq_refl).
  - right. exists "update". split; reflexivity.
  - reflexivity.
  - reflexivity.
Defined.

(** The message the gate blocks although the specification does not list
    it: a method named "table". *)
Lemma lock_gate_blocks_more_than_listed :
  _is_locked_command true msg_method_named_table = Ok true
  /\ spec_isBlocked true msg_method_named_table = false.
Proof. split; reflexivity. Qed.

(** ** What no step of the dispatcher undoes *)

Section Invariant.

Variable rt : Runtime.
Variable R : manager rt -> manager rt -> Prop.
Context {HR : Steps R}.

Lemma invariant_ret {A} (a : A) : invariant rt R (ret a).
Proof. intros st. apply steps_refl. Qed.

Lemma invariant_raise {A} (e : exn) : invariant rt R (@raise _ A e).
Proof. intros st. apply steps_refl. Qed.

Lemma invariant_lift {A} (o : outcome A) : invariant rt R (lift o).
Proof. intros st. apply steps_refl. Qed.

Lemma invariant_read {A} (f : manager rt -> outcome A) :
  invariant rt R (fun st => (f st, st)).
Proof. intros st. apply steps_refl. Qed.

Lemma invariant_bind {A B} (m : M (manager rt) A) (k : A -> M (manager rt) B) :
  invariant rt R m -> (forall a, invariant rt R (k a)) ->
  invariant rt R (bind m k).
Proof.
  intros Hm Hk st. unfold bind. specialize (Hm st).
  destruct (m st) as [[a | e] st1]; simpl in *.
  - eapply steps_trans; [exact Hm | apply Hk].
  - exact Hm.
Qed.

(** The value bound is the one the lifted outcome holds. *)
Lemma invariant_bind_lift {A B} (o : outcome A) (k : A -> M (manager rt) B) :
  (forall a, o = Ok a -> invariant rt R (k a)) ->
  invariant rt R (bind (lift o) k).
Proof.
  intros Hk st. unfold bind, lift. destruct o as [a | e]; simpl.
  - apply Hk. reflexivity.
  - apply steps_refl.
Qed.

Lemma invariant_try {A} (body : M (manager rt) A) c (h : exn -> M (manager rt) A) :
  invariant rt R body -> (forall e, invariant rt R (h e)) ->
  invariant rt R (try_except body c h).
Proof.
  intros Hb Hh st. unfold try_except. specialize (Hb st).
  destruct (body st) as [[a | e] st1]; simpl in *.
  - exact Hb.
  - destruct (c (exn_class e)); simpl; [| exact Hb].
    eapply steps_trans; [exact Hb | apply Hh].
Qed.

End Invariant.

Section Progress.

Variable rt : Runtime.
Variable P : event -> Prop.
Variable vd : bool.

Lemma progress_refl (st : manager rt) : progress P vd st st.
Proof.
  split; [| split].
  - intros k H; exact H.
  - intros _ k H; exact H.
  - exists []. split; [rewrite app_nil_r; reflexivity | constructor].
Qed.

Lemma progress_trans (a b c : manager rt) :
  progress P vd a b -> progress P vd b c -> progress P vd a c.
Proof.
  intros [T1 [V1 [e1 [E1 F1]]]] [T2 [V2 [e2 [E2 F2]]]]. split; [| split].
  - intros k H. apply T2, T1, H.
  - intros Hvd k H. apply (V2 Hvd), (V1 Hvd), H.
  - exists (e1 ++ e2)%list. split.
    + rewrite E2, E1, app_assoc. reflexivity.
    + apply Forall_app. split; assumption.
Qed.

#[global] Instance progress_steps : Steps (progress P vd) :=
  {| steps_refl := progress_refl; steps_trans := progress_trans |}.

Lemma preserves_ret {A} (a : A) : preserves rt P vd (ret a).
Proof. apply (@invariant_ret rt _ progress_steps). Qed.

Lemma preserves_raise {A} (e : exn) : preserves rt P vd (@raise _ A e).
Proof. apply (@invariant_raise rt _ progress_steps). Qed.

Lemma preserves_lift {A} (o : outcome A) : preserves rt P vd (lift o).
Proof. apply (@invariant_lift rt _ progress_steps). Qed.

Lemma preserves_read {A} (f : manager rt -> outcome A) :
  preserves rt P vd (fun st => (f st, st)).
Proof. apply (@invariant_read rt _ progress_steps). Qed.

Lemma preserves_bind {A B} (m : M (manager rt) A) (k : A -> M (manager rt) B) :
  preserves rt P vd m -> (forall a, preserves rt P vd (k a)) ->
  preserves rt P vd (bind m k).
Proof. apply (@invariant_bind rt _ progress_steps). Qed.

Lemma preserves_bind_lift {A B} (o : outcome A) (k : A -> M (manager rt) B) :
  (forall a, o = Ok a -> preserves rt P vd (k a)) ->
  preserves rt P vd (bind (lift o) k).
Proof. apply (@invariant_bind_lift rt _ progress_steps). Qed.

Lemma preserves_try {A} (body : M (manager rt) A) c (h : exn -> M (manager rt) A) :
  preserves rt P vd body -> (forall e, preserves rt P vd (h e)) ->
  preserves rt P vd (try_except body c h).
Proof. apply (@invariant_try rt _ progress_steps). Qed.

Lemma preserves_emit (e : event) : P e -> preserves rt P vd (emit rt e).
Proof.
  intros He st. split; [| split]; simpl.
  - intros k H; exact H.
  - intros _ k H; exact H.
  - exists [e]. split; [reflexivity | repeat constructor; exact He].
Qed.

Lemma preserves_with_world {A} (f : W rt -> outcome A * W rt) :
  preserves rt P vd (with_world rt f).
Proof.
  intros st. unfold with_world. destruct (f (world st)) as [o w]. simpl.
  split; [| split]; simpl.
  - intros k H; exact H.
  - intros _ k H; exact H.
  - exists []. split; [rewrite app_nil_r; reflexivity | constructor].
Qed.

Lemma reg_set_keeps {V} (r : list (pyval * V)) (k : pyval) (v : V) :
  keeps_names r (reg_set r k v).
Proof.
  intros k0. induction r as [| [k1 v1] r IH]; simpl.
  - intros H. contradiction H. reflexivity.
  - destruct (py_eq k1 k) eqn:E; simpl.
    + destruct (py_eq k1 k0); [discriminate | intros H; exact H].
    + destruct (py_eq k1 k0); [discriminate | exact IH].
Qed.

Lemma preserves_set_callbacks (f : manager rt -> list cb_record) :
  preserves rt P vd (fun st => (Ok tt, set_callbacks rt (f st) st)).
Proof.
  intros st. split; [| split]; simpl.
  - intros k H; exact H.
  - intros _ k H; exact H.
  - exists []. split; [rewrite app_nil_r; reflexivity | constructor].
Qed.

Lemma preserves_check_hashable (k : pyval) : preserves rt P vd (check_hashable rt k).
Proof.
  unfold check_hashable. destruct (hashable k);
    [apply preserves_ret | apply preserves_raise].
Qed.

Lemma preserves_tables_setitem k e : preserves rt P vd (tables_setitem rt k e).
Proof.
  unfold tables_setitem. apply preserves_bind;
    [apply preserves_check_hashable | intros _].
  intros st. split; [| split]; simpl.
  - apply reg_set_keeps.
  - intros _ k0 H; exact H.
  - exists []. split; [rewrite app_nil_r; reflexivity | constructor].
Qed.

Lemma preserves_views_setitem k e : preserves rt P vd (views_setitem rt k e).
Proof.
  unfold views_setitem. apply preserves_bind;
    [apply preserves_check_hashable | intros _].
  intros st. split; [| split]; simpl.
  - intros k0 H; exact H.
  - intros _. apply reg_set_keeps.
  - exists []. split; [rewrite app_nil_r; reflexivity | constructor].
Qed.

Lemma preserves_views_pop k : vd = true -> preserves rt P vd (views_pop rt k).
Proof.
  intros Hvd. unfold views_pop. apply preserves_bind;
    [apply preserves_check_hashable | intros _].
  intros st. split; [| split]; simpl.
  - intros k0 H; exact H.
  - intros Hf. rewrite Hvd in Hf. discriminate.
  - exists []. split; [rewrite app_nil_r; reflexivity | constructor].
Qed.

Lemma preserves_getattr t name : preserves rt P vd (getattr rt t name).
Proof.
  unfold getattr. destruct t; try apply preserves_read.
  destruct (prefix "__" name); [apply preserves_read | apply preserves_raise].
Qed.

Lemma preserves_call t m args kwargs :
  P (EvCall t m args kwargs) -> preserves rt P vd (call rt t m args kwargs).
Proof.
  intros H. unfold call. apply preserves_bind.
  - apply preserves_emit. exact H.
  - intros _. apply preserves_with_world.
Qed.

Lemma preserves_call_on t m cb kwargs :
  P (EvSubscribe t m cb kwargs) -> preserves rt P vd (call_on rt t m cb kwargs).
Proof.
  intros H. unfold call_on. apply preserves_bind.
  - apply preserves_emit. exact H.
  - intros _. apply preserves_with_world.
Qed.

End Progress.

Ltac pres_event :=
  solve
    [ exact I
    | simpl; intros _; eexists; reflexivity
    | simpl; intros ?; contradiction
    | match goal with
      | H : forall t m a k, _ -> ?P (EvCall t m a k) |- ?P (EvCall _ _ _ _) =>
          apply H; solve [intros _; eexists; reflexivity | intros ?; contradiction]
      end ].

Ltac pres :=
  repeat first
    [ apply preserves_ret | apply preserves_raise | apply preserves_lift
    | apply preserves_with_world | apply preserves_getattr
    | apply preserves_check_hashable
    | apply preserves_tables_setitem | apply preserves_views_setitem
    | apply preserves_set_callbacks
    | apply preserves_emit; pres_event
    | apply preserves_call; pres_event
    | apply preserves_call_on; pres_event
    | apply preserves_views_pop; solve [auto]
    | apply preserves_bind; [| intros ?]
    | apply preserves_try; [| intros ?]
    | apply preserves_read
    | match goal with
      | |- preserves _ _ _ (if ?b then _ else _) => destruct b eqn:?
      | |- preserves _ _ _ (match ?x with _ => _ end) => destruct x eqn:?
      end
    | assumption ].

Lemma prefix_to_not_delete (m : string) : prefix "to_" m = true -> m <> "delete".
Proof. intros H E. subst m. discriminate H. Qed.

Lemma str_in_not_delete (m : string) (l : list string) :
  str_in m l = true -> str_in "delete" l = false -> m <> "delete".
Proof. intros H1 H2 E. subst m. congruence. Qed.

Lemma method_name_str (method : pyval) (m : string) :
  method_name method = Ok m -> method = VStr m.
Proof. destruct method; simpl; intros H; inversion H; reflexivity. Qed.

Lemma getitem_ok (d : dict) (k : string) (v : pyval) :
  getitem d k = Ok v -> dict_get d k = Some v.
Proof.
  unfold getitem. destruct (dict_get d k); intros H; inversion H; reflexivity.
Qed.

(** The method call proper, for any property of events that holds of the
    calls it makes. *)
Section ProgressOfInvocation.

Variable rt : Runtime.
Variable P : event -> Prop.
Variable vd : bool.
Hypothesis P_call : forall t m a k,
  (m = "delete" -> exists h, t = OnView h) -> P (EvCall t m a k).

Lemma preserves_assemble_args msg m : preserves rt P vd (assemble_args rt msg m).
Proof. unfold assemble_args. pres. Qed.

Lemma preserves_call_method msg cmd t m args :
  (String.eqb m "delete" && eq_str cmd "view_method" = true -> vd = true) ->
  preserves rt P vd (call_method rt msg cmd t m args).
Proof.
  intros Hvd. unfold call_method.
  destruct (String.eqb m "delete" && eq_str cmd "view_method") eqn:Hd.
  - specialize (Hvd eq_refl). pres.
  - apply preserves_bind; [| intros r; apply preserves_ret].
    destruct (prefix "to_" m) eqn:Hto.
    { pose proof (prefix_to_not_delete m Hto). pres. }
    destruct (str_in m ["update"; "remove"]) eqn:Hur.
    { pose proof (str_in_not_delete m _ Hur eq_refl). pres. }
    destruct (str_in m ["computed_schema"; "get_computation_input_types"]) eqn:Hcs.
    { pose proof (str_in_not_delete m _ Hcs eq_refl). pres. }
    destruct (String.eqb_spec m "delete") as [E | E]; simpl.
    + apply preserves_raise.
    + pres.
Qed.

Lemma preserves_invocation msg cmd t :
  dict_get msg "cmd" = Some cmd ->
  (is_view_delete msg = true -> vd = true) ->
  preserves rt P vd (invocation rt msg cmd t).
Proof.
  intros Hc Hvd. unfold invocation.
  apply preserves_bind_lift. intros method Hm.
  apply preserves_bind_lift. intros m Hn.
  apply preserves_bind; [apply preserves_assemble_args | intros args].
  apply preserves_bind; [| intros r; apply preserves_ret].
  apply preserves_call_method. intros H. apply Hvd.
  apply getitem_ok in Hm. apply method_name_str in Hn. subst method.
  unfold is_view_delete, dict_get_default. rewrite Hc, Hm.
  apply andb_true_iff in H. destruct H as [H1 H2].
  rewrite H2. simpl. exact H1.
Qed.

End ProgressOfInvocation.

Lemma deletes_views_only_call t m a k :
  (m = "delete" -> exists h, t = OnView h) -> deletes_views_only (EvCall t m a k).
Proof. intros H. exact H. Qed.

(** The whole dispatcher deletes nothing but views. *)
Section ProgressOfDispatcher.

Variable rt : Runtime.
Variable vd : bool.

Lemma preserves_add_callback r :
  preserves rt deletes_views_only vd (add_callback rt r).
Proof. unfold add_callback. pres. Qed.

Lemma preserves_remove_callbacks c :
  preserves rt deletes_views_only vd (remove_callbacks rt c).
Proof. unfold remove_callbacks. pres. Qed.

Lemma preserves_message_to_json id message :
  preserves rt deletes_views_only vd (_message_to_json rt id message).
Proof. unfold _message_to_json, dumps. pres. Qed.

Lemma preserves_respond msg tp message :
  preserves rt deletes_views_only vd (respond rt msg tp message).
Proof. unfold respond, post. pres; try apply preserves_message_to_json. Qed.

Lemma preserves_respond_error msg tp text :
  preserves rt deletes_views_only vd (respond_error rt msg tp text).
Proof. unfold respond_error. pres; try apply preserves_respond. Qed.

Lemma preserves_respond_data msg tp result :
  preserves rt deletes_views_only vd (respond_data rt msg tp result).
Proof. unfold respond_data. pres; try apply preserves_respond. Qed.

Lemma preserves_process_bytes b msg tp :
  preserves rt deletes_views_only vd (_process_bytes rt b msg tp).
Proof. unfold _process_bytes, dumps, post. pres. Qed.

Lemma preserves_process_subscribe msg t tp cid :
  preserves rt deletes_views_only vd (_process_subscribe rt msg t tp cid).
Proof.
  unfold _process_subscribe. apply preserves_try.
  - pres;
      try first [apply preserves_add_callback | apply preserves_remove_callbacks].
  - intros e. apply preserves_respond_error.
Qed.

Lemma preserves_deliver_result msg m result tp :
  preserves rt deletes_views_only vd (deliver_result rt msg m result tp).
Proof.
  unfold deliver_result.
  pres; try first [apply preserves_process_bytes | apply preserves_respond_data].
Qed.

Lemma preserves_resolve msg cmd tp :
  preserves rt deletes_views_only vd (resolve rt msg cmd tp).
Proof.
  unfold resolve, tables_get, views_get.
  pres; try first [apply preserves_read | apply preserves_respond_error].
Qed.

Lemma preserves_method_call_body msg cmd t tp cid :
  dict_get msg "cmd" = Some cmd ->
  (is_view_delete msg = true -> vd = true) ->
  preserves rt deletes_views_only vd (method_call_body rt msg cmd t tp cid).
Proof.
  intros Hc Hvd. unfold method_call_body.
  destruct (is_True (dict_get_default msg "subscribe" (VBool false))).
  - apply preserves_process_subscribe.
  - apply preserves_bind.
    + apply preserves_invocation;
        [exact deletes_views_only_call | assumption | assumption].
    + intros [m [result |]]; simpl;
        [apply preserves_deliver_result | apply preserves_ret].
Qed.

Lemma preserves_method_call_on msg cmd t tp cid :
  dict_get msg "cmd" = Some cmd ->
  (is_view_delete msg = true -> vd = true) ->
  preserves rt deletes_views_only vd (method_call_on rt msg cmd t tp cid).
Proof.
  intros Hc Hvd. unfold method_call_on. apply preserves_try.
  - apply preserves_method_call_body; assumption.
  - intros e. apply preserves_respond_error.
Qed.

Lemma preserves_process_method_call msg tp cid :
  (is_view_delete msg = true -> vd = true) ->
  preserves rt deletes_views_only vd (_process_method_call rt msg tp cid).
Proof.
  intros Hvd. unfold _process_method_call.
  apply preserves_bind_lift. intros cmd Hc. apply getitem_ok in Hc.
  apply preserves_bind; [apply preserves_resolve | intros t].
  apply preserves_method_call_on; assumption.
Qed.

Lemma preserves_process_dict msg tp cid :
  (is_view_delete msg = true -> vd = true) ->
  preserves rt deletes_views_only vd (_process_dict rt msg tp cid).
Proof.
  intros Hvd. unfold _process_dict.
  apply preserves_bind; [apply preserves_lift | intros cmd].
  apply preserves_bind; [apply preserves_read | intros locked].
  destruct locked.
  - pres; try apply preserves_respond_error.
  - apply preserves_try; [| intros e; apply preserves_respond_error].
    destruct (eq_str cmd "init"); [apply preserves_respond_data |].
    destruct (eq_str cmd "table"); [pres |].
    destruct (eq_str cmd "view"); [unfold tables_getitem, tables_get; pres |].
    destruct (eq_str cmd "table_method" || eq_str cmd "view_method");
      [apply preserves_process_method_call; assumption | apply preserves_ret].
Qed.

Lemma preserves_process msg tp cid :
  (forall d, decoded rt msg = Some d -> is_view_delete d = true -> vd = true) ->
  preserves rt deletes_views_only vd (_process rt msg tp cid).
Proof.
  intros Hvd. unfold _process.
  destruct msg; try apply preserves_raise.
  - simpl in Hvd. destruct (String.eqb s "heartbeat"); [apply preserves_ret |].
    apply preserves_bind_lift. intros v Hv. rewrite Hv in Hvd.
    destruct v; try apply preserves_raise.
    apply preserves_process_dict. apply Hvd. reflexivity.
  - apply preserves_process_dict. apply Hvd. reflexivity.
Qed.

End ProgressOfDispatcher.

(** ** Tables are never removed *)

(** C8: whatever the message, every table registered before it is
    registered after it (an entry is added or overwritten, never removed),
    and the engine is never asked to [delete] anything but a view, so that
    a [table_method] "delete" deletes no table; a view leaves its registry
    only through a [view_method] "delete". *)
Theorem tables_never_removed (rt : Runtime) (msg : pyval) (tp : transport)
    (cid : pyval) (st : manager rt) :
  let st' := snd (_process rt msg tp cid st) in
  keeps_names (_tables st) (_tables st')
  /\ (exists evs, trace st' = (trace st ++ evs)%list
                  /\ Forall deletes_views_only evs)
  /\ ((forall d, decoded rt msg = Some d -> is_view_delete d = false) ->
      keeps_names (_views st) (_views st')).
Proof.
  intros st'.
  pose (vd := match decoded rt msg with
              | Some d => is_view_delete d
              | None => false
              end).
  assert (Hvd : forall d, decoded rt msg = Some d ->
                          is_view_delete d = true -> vd = true).
  { intros d Hd Hv. unfold vd. rewrite Hd. exact Hv. }
  destruct (preserves_process rt vd msg tp cid Hvd st) as [T [V E]].
  split; [exact T |]. split; [exact E |].
  intros Hno. apply V. unfold vd.
  destruct (decoded rt msg) as [d |] eqn:Hd; [apply Hno |]; reflexivity.
Qed.

(** ** Arguments of update and remove *)

Section Arguments.

Variable rt : Runtime.

Lemma progress_trace P vd (st st' : manager rt) :
  progress P vd st st' -> exists evs, trace st' = (trace st ++ evs)%list.
Proof. intros [_ [_ [evs [E _]]]]. exists evs. exact E. Qed.

Lemma getattr_ok (t : target) (m : string) (st : manager rt) :
  t <> OnNone -> py_getattr rt t m (world st) = Ok tt ->
  getattr rt t m st = (Ok tt, st).
Proof.
  intros Ht Ha. destruct t; [contradiction | | |]; simpl; rewrite Ha; reflexivity.
Qed.

End Arguments.

(** The encoder and the transport leave the engine alone. *)
Lemma respond_world (rt : Runtime) (msg : dict) (tp : transport)
    (message : dict) (st : manager rt) :
  world (snd (respond rt msg tp message st)) = world st.
Proof.
  unfold respond, _message_to_json, dumps, try_except, bind, lift, post, emit.
  destruct (getitem msg "id") as [id |]; [| reflexivity].
  destruct (json_dumps (to_timestamp rt) false true (VDict message)) as [j | e];
    [reflexivity |].
  destruct (is_ValueError (exn_class e)); [| reflexivity]. cbn beta iota.
  destruct (json_dumps (to_timestamp rt) true false _); reflexivity.
Qed.

Lemma respond_error_world (rt : Runtime) (msg : dict) (tp : transport)
    (text : string) (st : manager rt) :
  world (snd (respond_error rt msg tp text st)) = world st.
Proof.
  unfold respond_error, bind at 1, lift.
  destruct (getitem msg "id") as [id |]; [| reflexivity]. apply respond_world.
Qed.

Lemma deliver_result_world (rt : Runtime) (msg : dict) (m : string)
    (result : pyval) (tp : transport) (st : manager rt) :
  world (snd (deliver_result rt msg m result tp st)) = world st.
Proof.
  assert (D : forall r, world (snd (respond_data rt msg tp r st)) = world st).
  { intros r. unfold respond_data, bind at 1, lift.
    destruct (getitem msg "id") as [id |]; [| reflexivity]. apply respond_world. }
  unfold deliver_result. destruct result; try apply D.
  destruct (negb (String.eqb m "to_csv")); [| apply D].
  unfold _process_bytes, dumps, bind, lift, post, emit.
  destruct (json_dumps (to_timestamp rt) true true _); reflexivity.
Qed.

(** C6: on a resolved handle that has the method, a call of [update] or
    [remove] that is not a subscription invokes the method with the first
    element of [args] as its only positional argument and, as keyword
    options, the second element when it is a dict; a second element that
    is no dict is left out, and the method is invoked all the same.  The
    call is the first thing the message does, the state of the engine
    after the message is the one that call left, and what the call
    returned or raised is what the client is answered. *)
Theorem update_remove_arguments (rt : Runtime) (st : manager rt) (msg : dict)
    (tp : transport) (cid cmd : pyval) (t : target) (m : string)
    (data : pyval) (rest : list pyval) :
  dict_get msg "cmd" = Some cmd ->
  resolve rt msg cmd tp st = (Ok t, st) ->
  t <> OnNone ->
  py_getattr rt t m (world st) = Ok tt ->
  is_True (dict_get_default msg "subscribe" (VBool false)) = false ->
  dict_get msg "method" = Some (VStr m) ->
  m = "update" \/ m = "remove" ->
  dict_get msg "args" = Some (VList (data :: rest)) ->
  let st1 := add_event (EvCall t m [data] (options_of rest)) st in
  (exists evs,
     trace (snd (_process_method_call rt msg tp cid st))
     = (trace st ++ EvCall t m [data] (options_of rest) :: evs)%list)
  /\ world (snd (_process_method_call rt msg tp cid st))
     = snd (invoke rt t m [data] (options_of rest) (world st))
  /\ (forall idv jid,
        dict_get msg "id" = Some idv -> encodes rt idv jid ->
        match invoke rt t m [data] (options_of rest) (world st) with
        | (Ok r, w) =>
            forall jr, json_dumps (to_timestamp rt) false true r = Ok jr ->
              _process_method_call rt msg tp cid st
              = (Ok tt, add_event (EvPost tp (data_response jid jr))
                          (set_world rt w st1))
        | (Raise e, w) =>
            _process_method_call rt msg tp cid st
            = (Ok tt, add_event (EvPost tp (error_response jid (exn_text e)))
                        (set_world rt w st1))
        end).
Proof.
  intros Hc Hres Ht Hattr Hsub Hm Hor Hargs st1.
  pose (k := try_except
          (result <- with_world rt (invoke rt t m [data] (options_of rest)) ;;
           deliver_result rt msg m result tp)
          is_Exception
          (fun error => respond_error rt msg tp (exn_text error))).
  assert (E : _process_method_call rt msg tp cid st = k st1).
  { unfold _process_method_call.
    rewrite (bind_ok rt _ _ _ cmd st);
      [| unfold lift, getitem; rewrite Hc; reflexivity].
    rewrite (bind_ok rt _ _ _ t st Hres).
    pose proof (getattr_ok rt t m st Ht Hattr) as Hg.
    unfold method_call_on, method_call_body, k, st1. rewrite Hsub.
    unfold invocation, assemble_args, call_method, call, getitem, dict_get_default.
    rewrite Hm, Hargs.
    destruct Hor; subst m; destruct rest as [| a1 rest'];
      repeat (progress (unfold try_except, bind, lift, ret, emit;
                        cbn -[getattr with_world deliver_result respond_error]));
      rewrite Hg; unfold add_event, options_of;
      try match goal with
          | |- context [match ?a with VDict _ => _ | _ => _ end] => destruct a
          end;
      match goal with
      | |- context [with_world ?r ?f ?s] =>
          destruct (with_world r f s) as [[? | ?] ?]
      end; reflexivity. }
  rewrite E.
  assert (K : k st1
              = match invoke rt t m [data] (options_of rest) (world st) with
                | (Ok r, w) =>
                    try_except (deliver_result rt msg m r tp) is_Exception
                      (fun error => respond_error rt msg tp (exn_text error))
                      (set_world rt w st1)
                | (Raise e, w) =>
                    respond_error rt msg tp (exn_text e) (set_world rt w st1)
                end).
  { unfold k, try_except, bind, with_world. cbn [world st1 add_event].
    destruct (invoke rt t m [data] (options_of rest) (world st)) as [[r | e] w];
      reflexivity. }
  split; [| split].
  - assert (P : preserves rt deletes_views_only true k).
    { unfold k. apply preserves_try.
      - apply preserves_bind; [pres | intros result].
        apply preserves_deliver_result.
      - intros e. apply preserves_respond_error. }
    destruct (progress_trace rt _ true _ _ (P st1)) as [evs Hevs].
    exists evs. rewrite Hevs. simpl. rewrite <- app_assoc. reflexivity.
  - rewrite K.
    destruct (invoke rt t m [data] (options_of rest) (world st)) as [[r | e] w];
      cbn [snd].
    + unfold try_except.
      pose proof (deliver_result_world rt msg m r tp (set_world rt w st1)) as D.
      destruct (deliver_result rt msg m r tp (set_world rt w st1))
        as [[[] | e] s2]; simpl in D; simpl.
      * exact D.
      * rewrite respond_error_world. exact D.
    + rewrite respond_error_world. reflexivity.
  - intros idv jid Hid Henc. rewrite K.
    destruct (invoke rt t m [data] (options_of rest) (world st)) as [[r | e] w].
    + intros jr Hr.
      assert (Ed : deliver_result rt msg m r tp = respond_data rt msg tp r).
      { unfold deliver_result. destruct r; try reflexivity. discriminate Hr. }
      rewrite Ed.
      unfold try_except, respond_data, respond, _message_to_json, dumps,
        try_except, bind, lift, getitem, post, emit.
      rewrite Hid. cbn [json_dumps _make_message obind].
      rewrite (encodes_any _ _ _ false true Henc), Hr. reflexivity.
    + apply (respond_error_run rt msg tp _ _ idv jid Hid Henc).
Qed.

Lemma update_remove_arguments_witness :
  _process_method_call toy msg_update 0 VNone (toy_manager_tv false)
  = (Ok tt,
     @Manager toy [(VStr "t", TTable 0)] [(VStr "v", VEntry 1 (VStr "c1"))] []
       false 2
       [EvCall (OnTable 0) "update" [VList [VDict [("a", VInt 1)]]] [];
        EvPost 0 (data_response (JInt 1) JNull)]).
Proof.
  exact (proj2 (proj2
           (update_remove_arguments toy (toy_manager_tv false) msg_update 0 VNone
              (VStr "table_method") (OnTable 0) "update"
              (VList [VDict [("a", VInt 1)]]) [VStr "ignored"]
              eq_refl eq_refl ltac:(discriminate) eq_refl eq_refl eq_refl
              (or_introl eq_refl) eq_refl))
           (VInt 1) (JInt 1) eq_refl eq_refl JNull eq_refl).
Defined.

(** ** Binary results *)

Lemma frames_of_calls (evs : list event) : Forall is_call evs -> frames evs = [].
Proof.
  induction 1 as [| e r He _ IH]; simpl; [reflexivity |].
  destruct e; simpl in He; try contradiction. exact IH.
Qed.

Lemma from_json_dict_set (d : dict) (k : string) (v : pyval) :
  from_json (VDict d) = true -> from_json v = true ->
  from_json (VDict (dict_set d k v)) = true.
Proof.
  simpl. intros Hd Hv. induction d as [| [k0 v0] r IH]; simpl in *.
  - rewrite Hv. reflexivity.
  - apply andb_true_iff in Hd. destruct Hd as [H0 Hr].
    destruct (String.eqb k0 k); simpl.
    + rewrite Hv, Hr. reflexivity.
    + rewrite H0, (IH Hr). reflexivity.
Qed.

(** The method call itself sends nothing. *)
Lemma invocation_quiet (rt : Runtime) (msg : dict) (cmd : pyval) (t : target)
    (st : manager rt) :
  dict_get msg "cmd" = Some cmd ->
  frames (trace (snd (invocation rt msg cmd t st))) = frames (trace st).
Proof.
  intros Hc.
  destruct (preserves_invocation rt is_call true (fun _ _ _ _ _ => I)
              msg cmd t Hc (fun _ => eq_refl) st) as [_ [_ [evs [E F]]]].
  rewrite E, frames_app, (frames_of_calls evs F), app_nil_r. reflexivity.
Qed.

(** C7 (as amended): when the call of a message from JSON that is no
    subscription returns bytes and the method is not [to_csv], the call
    having sent nothing, exactly two frames follow it: a JSON object that
    has the fields of the request, each encoded, the field
    [is_transferable] with the value true and no other field, and then the
    bytes, flagged binary.  A [to_csv] result never takes that way: it is
    wrapped by [_make_message] and handed to the encoder; a text result
    goes out as the one frame {id, data}, and a bytes result, which the
    encoder refuses, is answered by the one frame {id, error}. *)
Theorem binary_result_frames (rt : Runtime) (st st1 : manager rt) (msg : dict)
    (tp : transport) (cid cmd : pyval) (t : target) (m : string)
    (result : pyval) :
  dict_get msg "cmd" = Some cmd ->
  is_True (dict_get_default msg "subscribe" (VBool false)) = false ->
  from_json (VDict msg) = true ->
  invocation rt msg cmd t st = (Ok (m, Some result), st1) ->
  frames (trace st1) = frames (trace st)
  /\ (forall b, result = VBytes b -> m <> "to_csv" ->
      exists o,
        json_get o "is_transferable" = Some (JBool true)
        /\ (forall k v, k <> "is_transferable" -> dict_get msg k = Some v ->
            exists jv, json_get o k = Some jv
                       /\ json_dumps (to_timestamp rt) true true v = Ok jv)
        /\ (forall k, k <> "is_transferable" -> dict_get msg k = None ->
            json_get o k = None)
        /\ method_call_on rt msg cmd t tp cid st
           = (Ok tt,
              add_event (EvPost tp (Binary b))
                (add_event (EvPost tp (Text (JObj o))) st1)))
  /\ (m = "to_csv" ->
      forall idv jid,
        dict_get msg "id" = Some idv -> encodes rt idv jid ->
        (forall s, result = VStr s ->
           method_call_on rt msg cmd t tp cid st
           = (Ok tt, add_event (EvPost tp (data_response jid (JStr s))) st1))
        /\ (forall b, result = VBytes b ->
            method_call_on rt msg cmd t tp cid st
            = (Ok tt,
               add_event
                 (EvPost tp (error_response jid
                    "Object of type bytes is not JSON serializable")) st1))).
Proof.
  intros Hc Hsub Hjson Hinv.
  assert (Hrun : method_call_on rt msg cmd t tp cid st
                 = try_except (deliver_result rt msg m result tp) is_Exception
                     (fun error => respond_error rt msg tp (exn_text error)) st1).
  { unfold method_call_on, method_call_body, try_except. rewrite Hsub.
    rewrite (bind_ok rt _ _ _ _ _ Hinv). reflexivity. }
  split; [| split].
  - pose proof (invocation_quiet rt msg cmd t st Hc) as Hq.
    rewrite Hinv in Hq. exact Hq.
  - intros b Hb Hm. subst result.
    destruct (dumps_from_json (to_timestamp rt)
                (VDict (dict_set msg "is_transferable" (VBool true))) true
                (from_json_dict_set msg "is_transferable" (VBool true) Hjson
                   eq_refl)) as [j Hj].
    destruct (dumps_dict_get (to_timestamp rt) true true _ j Hj) as [o [Ej Ho]].
    subst j. exists o. split; [| split; [| split]].
    + destruct (Ho "is_transferable" (VBool true)
                  (dict_get_set_same msg "is_transferable" (VBool true)))
        as [jv [Hget Hv]].
      simpl in Hv. inversion Hv. subst jv. exact Hget.
    + intros k v Hk Hkv. apply Ho.
      rewrite (dict_get_set_other msg k "is_transferable" (VBool true));
        [exact Hkv | intros E; apply Hk; symmetry; exact E].
    + intros k Hk Hkn.
      apply (dumps_dict_get_none (to_timestamp rt) true true _ o Hj).
      rewrite (dict_get_set_other msg k "is_transferable" (VBool true));
        [exact Hkn | intros E; apply Hk; symmetry; exact E].
    + rewrite Hrun. unfold try_except, deliver_result.
      destruct (String.eqb_spec m "to_csv") as [E | E]; [contradiction |]. simpl.
      unfold _process_bytes, dumps, post, bind, lift, emit. rewrite Hj.
      reflexivity.
  - intros Hm idv jid Hid Henc. subst m.
    assert (Hd : deliver_result rt msg "to_csv" result tp
                 = respond_data rt msg tp result).
    { unfold deliver_result. destruct result; reflexivity. }
    rewrite Hrun, Hd. split.
    + intros s Hs. subst result.
      unfold try_except, respond_data, respond, _message_to_json, dumps,
        try_except, bind, lift, getitem, post, emit.
      rewrite Hid. cbn [json_dumps _make_message obind].
      rewrite (encodes_any _ _ _ false true Henc). reflexivity.
    + intros b Hb. subst result.
      assert (Hr : respond_data rt msg tp (VBytes b) st1
                   = (Raise (not_serializable (VBytes b)), st1)).
      { unfold respond_data, respond, _message_to_json, dumps, try_except,
          bind, lift, getitem.
        rewrite Hid. cbn [json_dumps _make_message obind].
        rewrite (encodes_any _ _ _ false true Henc). reflexivity. }
      unfold try_except. rewrite Hr. cbn beta iota.
      apply (respond_error_run rt msg tp _ st1 idv jid Hid Henc).
Qed.

Lemma binary_result_frames_witness :
  frames (trace (add_event (EvCall (OnView 1) "to_arrow" [] [])
                   (toy_manager_tv false)))
  = frames (trace (toy_manager_tv false))
  /\ exists o,
       json_get o "is_transferable" = Some (JBool true)
       /\ method_call_on toy msg_to_arrow (VStr "view_method") (OnView 1) 0 VNone
            (toy_manager_tv false)
          = (Ok tt,
             add_event (EvPost 0 (Binary "ARROW1"))
               (add_event (EvPost 0 (Text (JObj o)))
                  (add_event (EvCall (OnView 1) "to_arrow" [] [])
                     (toy_manager_tv false)))).
Proof.
  destruct (binary_result_frames toy (toy_manager_tv false)
              (add_event (EvCall (OnView 1) "to_arrow" [] []) (toy_manager_tv false))
              msg_to_arrow 0 VNone (VStr "view_method") (OnView 1) "to_arrow"
              (VBytes "ARROW1") eq_refl eq_refl eq_refl eq_refl)
    as [Hq [Hb _]].
  split; [exact Hq |].
  destruct (Hb "ARROW1" eq_refl ltac:(discriminate)) as [o [Ht [_ [_ Hrun]]]].
  exists o. split; [exact Ht | exact Hrun].
Defined.

(** A [to_csv] that returns bytes: the result is not sent as {id, data};
    the encoder refuses it and the request is answered by an error. *)
Lemma to_csv_bytes_answered_by_error :
  _process (returning (VBytes "a,b")) (VDict msg_to_csv_options) 0 VNone
    (@Manager (returning (VBytes "a,b")) [(VStr "t", TTable 0)]
       [(VStr "v", VEntry 1 (VStr "c1"))] [] false 2 [])
  = (Ok tt,
     @Manager (returning (VBytes "a,b")) [(VStr "t", TTable 0)]
       [(VStr "v", VEntry 1 (VStr "c1"))] [] false 2
       [EvCall (OnView 1) "to_csv" []
          [("start_row", VInt 0); ("end_row", VInt 9)];
        EvPost 0 (error_response (JInt 8)
                    "Object of type bytes is not JSON serializable")]).
Proof. reflexivity. Qed.

(** ** Messages on a table that is not registered *)

Section MissingTable.

Variable rt : Runtime.

Lemma lift_run {A} (o : outcome A) (st : manager rt) :
  lift o st = (o, st).
Proof. reflexivity. Qed.

Lemma assemble_args_pure (msg : dict) (m : string) (st : manager rt) :
  snd (assemble_args rt msg m st) = st.
Proof.
  unfold assemble_args.
  destruct (str_in m _); [reflexivity |].
  destruct (prefix "to_" m); [| reflexivity].
  unfold bind, lift, ret.
  destruct (py_iter _) as [ds | e]; [| reflexivity].
  destruct (merge_options rt [] ds); reflexivity.
Qed.

Lemma getattr_none (m : string) (st : manager rt) :
  prefix "__" m = false -> getattr rt OnNone m st = (Raise (none_has_no m), st).
Proof. intros H. unfold getattr. rewrite H. reflexivity. Qed.

(** With the absent handle the call raises before anything is done. *)
Lemma call_method_none (msg : dict) (cmd : pyval) (m : string) (args : pyval)
    (st : manager rt) :
  eq_str cmd "view_method" = false -> prefix "__" m = false ->
  exists e, call_method rt msg cmd OnNone m args st = (Raise e, st).
Proof.
  intros Hcmd Hm. unfold call_method. rewrite Hcmd, andb_false_r.
  pose proof (getattr_none m st Hm) as Hg.
  destruct (prefix "to_" m).
  { unfold bind at 1 2. rewrite Hg. eexists; reflexivity. }
  destruct (str_in m ["update"; "remove"]).
  { unfold bind, lift, ret.
    destruct (py_index args 0); [| eexists; reflexivity].
    destruct (py_len args) as [n |]; [| eexists; reflexivity].
    destruct (Nat.ltb 1 n).
    - destruct (py_index args 1); [| eexists; reflexivity].
      rewrite Hg. eexists; reflexivity.
    - rewrite Hg. eexists; reflexivity. }
  destruct (str_in m ["computed_schema"; "get_computation_input_types"]).
  { unfold bind at 1 2. rewrite Hg. eexists; reflexivity. }
  destruct (negb (String.eqb m "delete")).
  - unfold bind at 1 2. rewrite Hg. eexists; reflexivity.
  - eexists; reflexivity.
Qed.

Lemma invocation_none (msg : dict) (cmd : pyval) (st : manager rt) :
  eq_str cmd "view_method" = false ->
  (forall m, dict_get msg "method" = Some (VStr m) -> prefix "__" m = false) ->
  exists e, invocation rt msg cmd OnNone st = (Raise e, st).
Proof.
  intros Hcmd Hm. unfold invocation.
  destruct (getitem msg "method") as [method | e] eqn:Eg;
    [| exists e; reflexivity].
  rewrite (bind_ok rt _ _ st method st (lift_run _ st)).
  destruct (method_name method) as [m | e] eqn:En; [| exists e; reflexivity].
  rewrite (bind_ok rt _ _ st m st (lift_run _ st)).
  apply getitem_ok in Eg. apply method_name_str in En. subst method.
  specialize (Hm m Eg).
  pose proof (assemble_args_pure msg m st) as Ha.
  destruct (assemble_args rt msg m st) as [[args | e] st0] eqn:Ea;
    simpl in Ha; subst st0.
  - rewrite (bind_ok rt _ _ st args st Ea).
    destruct (call_method_none msg cmd m args st Hcmd Hm) as [e He].
    exists e. rewrite (bind_raise rt _ _ st e st He). reflexivity.
  - exists e. rewrite (bind_raise rt _ _ st e st Ea). reflexivity.
Qed.

End MissingTable.

(** C10 (as amended): a [table_method] message with a hashable name that
    is not registered and an id that encodes gets no error of its own for
    the missing table: the lookup sends nothing and the dispatcher goes on
    with the absent handle.  When the message is no subscription and its
    method, if it is text, does not begin with two underscores (a name
    that may be an attribute [None] has), the method call raises, nothing
    having been done, and the one effect of the message is the response
    {id, error} whose text is the text of that exception; so it is through
    [_process] when the gate lets the message through. *)
Theorem missing_table_generic_error (rt : Runtime) (st : manager rt) (msg : dict)
    (tp : transport) (cid name idv : pyval) (jid : json) :
  dict_get msg "cmd" = Some (VStr "table_method") ->
  dict_get msg "name" = Some name -> hashable name = true ->
  reg_get (_tables st) name = None ->
  dict_get msg "id" = Some idv -> encodes rt idv jid ->
  resolve rt msg (VStr "table_method") tp st = (Ok OnNone, st)
  /\ _process_method_call rt msg tp cid st
     = method_call_on rt msg (VStr "table_method") OnNone tp cid st
  /\ (is_True (dict_get_default msg "subscribe" (VBool false)) = false ->
      (forall m, dict_get msg "method" = Some (VStr m) -> prefix "__" m = false) ->
      exists e,
        invocation rt msg (VStr "table_method") OnNone st = (Raise e, st)
        /\ _process_method_call rt msg tp cid st
           = (Ok tt, add_event (EvPost tp (error_response jid (exn_text e))) st)
        /\ (_is_locked_command (_lock st) msg = Ok false ->
            _process rt (VDict msg) tp cid st
            = (Ok tt,
               add_event (EvPost tp (error_response jid (exn_text e))) st))).
Proof.
  intros Hc Hname Hhash Hreg Hid Henc.
  assert (Hres : resolve rt msg (VStr "table_method") tp st = (Ok OnNone, st)).
  { unfold resolve. simpl. unfold getitem. rewrite Hname.
    repeat (progress (unfold bind, lift, ret, tables_get, check_hashable;
                      cbn beta iota)).
    rewrite Hhash. cbn beta iota. rewrite Hreg. reflexivity. }
  assert (Hmc : _process_method_call rt msg tp cid st
                = method_call_on rt msg (VStr "table_method") OnNone tp cid st).
  { unfold _process_method_call.
    rewrite (bind_ok rt _ _ st (VStr "table_method") st);
      [| unfold lift, getitem; rewrite Hc; reflexivity].
    rewrite (bind_ok rt _ _ st OnNone st Hres). reflexivity. }
  split; [exact Hres |]. split; [exact Hmc |].
  intros Hsub Hm.
  destruct (invocation_none rt msg (VStr "table_method") st eq_refl Hm) as [e He].
  assert (E : _process_method_call rt msg tp cid st
              = (Ok tt, add_event (EvPost tp (error_response jid (exn_text e))) st)).
  { rewrite Hmc. unfold method_call_on, method_call_body, try_except.
    rewrite Hsub. rewrite (bind_raise rt _ _ st e st He). simpl.
    apply (respond_error_run rt msg tp _ st idv jid Hid Henc). }
  exists e. split; [exact He |]. split; [exact E |].
  intros Hgate. unfold _process, _process_dict.
  rewrite (bind_ok rt _ _ st (VStr "table_method") st);
    [| unfold lift, getitem; rewrite Hc; reflexivity].
  rewrite (bind_ok rt _ _ st false st); [| rewrite Hgate; reflexivity].
  cbn [eq_str String.eqb Ascii.eqb Bool.eqb orb].
  unfold try_except at 1. rewrite E. reflexivity.
Qed.

Lemma missing_table_generic_error_witness :
  resolve toy msg_missing_table (VStr "table_method") 0 (toy_manager_tv false)
  = (Ok OnNone, toy_manager_tv false)
  /\ exists e,
       invocation toy msg_missing_table (VStr "table_method") OnNone
         (toy_manager_tv false) = (Raise e, toy_manager_tv false)
       /\ _process toy (VDict msg_missing_table) 0 VNone (toy_manager_tv false)
          = (Ok tt,
             add_event (EvPost 0 (error_response (JInt 1) (exn_text e)))
               (toy_manager_tv false)).
Proof.
  destruct (missing_table_generic_error toy (toy_manager_tv false)
              msg_missing_table 0 VNone (VStr "missing") (VInt 1) (JInt 1)
              eq_refl eq_refl eq_refl eq_refl eq_refl eq_refl)
    as [Hres [_ Hcall]].
  split; [exact Hres |].
  destruct (Hcall eq_refl) as [e [He [_ Hp]]].
  - intros m H. inversion H. reflexivity.
  - exists e. split; [exact He | exact (Hp eq_refl)].
Defined.

(** ** Registration of callbacks *)

Lemma prefix_on (m : string) :
  prefix "on" m = true -> exists r, m = String "o" (String "n" r).
Proof.
  intros H. apply prefix_correct in H.
  destruct m as [| a [| b r]]; simpl in H; try discriminate H.
  inversion H. exists r. reflexivity.
Qed.

Section Subscriptions.

Variable rt : Runtime.

(** An [on] method is no locked command. *)
Lemma gate_on (lock : bool) (msg : dict) (c m : string) :
  dict_get msg "cmd" = Some (VStr c) ->
  c = "table_method" \/ c = "view_method" ->
  dict_get msg "method" = Some (VStr m) -> prefix "on" m = true ->
  _is_locked_command lock msg = Ok false.
Proof.
  intros Hc Hcc Hm Hon. destruct lock; [| reflexivity].
  rewrite (gate_locked msg (VStr c) Hc). unfold dict_get_default. rewrite Hm.
  destruct (prefix_on m Hon) as [r Hr]. subst m.
  destruct Hcc; subst c; reflexivity.
Qed.

Lemma settled_refl (st : manager rt) : settled st st.
Proof. split; [reflexivity |]. exists []. rewrite app_nil_r. reflexivity. Qed.

Lemma settled_trans (a b c : manager rt) : settled a b -> settled b c -> settled a c.
Proof.
  intros [C1 [e1 E1]] [C2 [e2 E2]]. split; [congruence |].
  exists (e1 ++ e2)%list. rewrite E2, E1, app_assoc. reflexivity.
Qed.

#[global] Instance settled_steps : Steps (@settled rt) :=
  {| steps_refl := settled_refl; steps_trans := settled_trans |}.

Lemma settled_emit (e : event) : invariant rt settled (emit rt e).
Proof. intros st. split; [reflexivity |]. exists [e]. reflexivity. Qed.

Lemma settled_with_world {A} (f : W rt -> outcome A * W rt) :
  invariant rt settled (with_world rt f).
Proof.
  intros st. unfold with_world. destruct (f (world st)) as [o w].
  split; [reflexivity |]. exists []. simpl. rewrite app_nil_r. reflexivity.
Qed.

Lemma settled_getattr (t : target) (name : string) :
  invariant rt settled (getattr rt t name).
Proof.
  unfold getattr. destruct t; try apply (@invariant_read rt _ settled_steps).
  destruct (prefix "__" name);
    [apply (@invariant_read rt _ settled_steps)
    | apply (@invariant_raise rt _ settled_steps)].
Qed.

Ltac settle :=
  repeat first
    [ apply (@invariant_ret rt _ settled_steps)
    | apply (@invariant_raise rt _ settled_steps)
    | apply (@invariant_lift rt _ settled_steps)
    | apply settled_emit | apply settled_with_world | apply settled_getattr
    | apply (@invariant_bind rt _ settled_steps); [| intros ?]
    | apply (@invariant_try rt _ settled_steps); [| intros ?]
    | match goal with
      | |- invariant _ _ (if ?b then _ else _) => destruct b eqn:?
      | |- invariant _ _ (match ?x with _ => _ end) => destruct x eqn:?
      end ].

Lemma settled_respond_error (msg : dict) (tp : transport) (text : string) :
  invariant rt settled (respond_error rt msg tp text).
Proof.
  unfold respond_error, respond, _message_to_json, dumps, post. settle.
Qed.

(** The record is stored first; what follows leaves it in place. *)
Lemma subscribe_stores (msg : dict) (t : target) (tp : transport)
    (cid idv : pyval) (jid : json) (m : string) (st : manager rt) :
  dict_get msg "method" = Some (VStr m) -> prefix "on" m = true ->
  truthy (dict_get_default msg "callback_id" VNone) = true ->
  dict_get msg "id" = Some idv -> encodes rt idv jid ->
  let r := CbRecord cid (dict_get_default msg "callback_id" VNone)
             (Callback msg tp) (dict_get_default msg "name" VNone) in
  exists st' post,
    _process_subscribe rt msg t tp cid st = (Ok tt, st')
    /\ trace st' = (trace st ++ EvAddCallback r :: post)%list
    /\ _callback_cache st' = (_callback_cache st ++ [r])%list.
Proof.
  intros Hm Hon Hcb Hid Henc r.
  destruct (prefix_on m Hon) as [rest Hr].
  assert (Hom : on_method (VStr m) = Ok (Some m)).
  { unfold on_method. rewrite Hon. subst m. reflexivity. }
  pose (args := dict_get_default msg "args" (VList [])).
  pose (k := try_except
          (if String.eqb m "on_update" then
             n <- lift (py_len args) ;;
             mode <- (if Nat.ltb 0 n then lift (py_index args 0)
                      else ret (VDict [("mode", VStr "none")])) ;;
             getattr rt t m ;;
             kwargs <- lift (in_call (py_funcstr rt (Method t m))
                               (py_kwargs mode)) ;;
             call_on rt t m (Callback msg tp) kwargs ;;
             ret tt
           else
             getattr rt t m ;;
             call_on rt t m (Callback msg tp) [] ;;
             ret tt)
          is_Exception
          (fun error => respond_error rt msg tp (exn_text error))).
  pose (st_a := set_callbacks rt (_callback_cache st ++ [r])%list
                  (add_event (EvAddCallback r) st)).
  assert (E : _process_subscribe rt msg t tp cid st = k st_a).
  { unfold _process_subscribe, try_except.
    replace (dict_get_default msg "method" VNone) with (VStr m)
      by (unfold dict_get_default; rewrite Hm; reflexivity).
    rewrite (bind_ok rt _ _ st (Some m) st); [| rewrite Hom; reflexivity].
    rewrite Hcb. fold r.
    rewrite (bind_ok rt _ _ st tt st_a); reflexivity. }
  assert (Hk : invariant rt settled k).
  { unfold k, call_on. apply (@invariant_try rt _ settled_steps).
    - settle.
    - intros e. apply settled_respond_error. }
  assert (Hout : fst (k st_a) = Ok tt).
  { unfold k, try_except.
    match goal with
    | |- context [let (o, st') := ?c st_a in _] =>
        destruct (c st_a) as [[[] | e] s]
    end; [reflexivity |]. simpl.
    rewrite (respond_error_run rt msg tp _ s idv jid Hid Henc). reflexivity. }
  destruct (Hk st_a) as [Hc [evs Hevs]].
  rewrite E. destruct (k st_a) as [o st']. simpl in *. subst o.
  exists st', evs. split; [reflexivity |]. split.
  - rewrite Hevs. simpl. rewrite <- app_assoc. reflexivity.
  - rewrite Hc. reflexivity.
Qed.

End Subscriptions.

Lemma resolve_run (rt : Runtime) (msg : dict) (cmd name idv : pyval) (jid : json)
    (tp : transport) (st : manager rt) :
  dict_get msg "name" = Some name -> hashable name = true ->
  dict_get msg "id" = Some idv -> encodes rt idv jid ->
  exists t st_r pre,
    resolve rt msg cmd tp st = (Ok t, st_r)
    /\ trace st_r = (trace st ++ pre)%list
    /\ Forall no_engine_call pre
    /\ _callback_cache st_r = _callback_cache st.
Proof.
  intros Hname Hhash Hid Henc. unfold resolve.
  destruct (eq_str cmd "table_method").
  - exists (match reg_get (_tables st) name with
            | Some e => tentry_target e
            | None => OnNone
            end), st, [].
    split; [| split; [rewrite app_nil_r; reflexivity | split; [constructor | reflexivity]]].
    unfold getitem. rewrite Hname.
    repeat (progress (unfold bind, lift, ret, tables_get, check_hashable;
                      cbn beta iota)).
    rewrite Hhash. reflexivity.
  - unfold getitem. rewrite Hname.
    repeat (progress (unfold bind at 1, lift, ret, views_get, check_hashable;
                      cbn beta iota)).
    rewrite Hhash. cbn beta iota.
    destruct (reg_get (_views st) name) as [v |].
    + exists (OnView (v_handle v)), st, [].
      split; [reflexivity |].
      split; [rewrite app_nil_r; reflexivity | split; [constructor | reflexivity]].
    + unfold bind. rewrite (respond_error_run rt msg tp _ st idv jid Hid Henc).
      eexists OnNone, _, [_]. split; [reflexivity |].
      split; [reflexivity | split; [| reflexivity]].
      repeat constructor.
Qed.

(** C9 (as amended): for a subscription ([subscribe] is [True]) sent as a
    [table_method] or [view_method] with a hashable name and an id that
    encodes, whose method name begins with "on" and whose [callback_id] is
    true in the sense of Python (not 0, not empty), the record of client
    id, callback id, wrapped callback and name is added to the callback
    registry before any call into the engine, and is there when the
    message is done. *)
Theorem callback_record_stored (rt : Runtime) (st : manager rt) (msg : dict)
    (tp : transport) (cid name idv : pyval) (jid : json) (c m : string) :
  dict_get msg "cmd" = Some (VStr c) ->
  c = "table_method" \/ c = "view_method" ->
  is_True (dict_get_default msg "subscribe" (VBool false)) = true ->
  dict_get msg "method" = Some (VStr m) -> prefix "on" m = true ->
  truthy (dict_get_default msg "callback_id" VNone) = true ->
  dict_get msg "name" = Some name -> hashable name = true ->
  dict_get msg "id" = Some idv -> encodes rt idv jid ->
  let r := CbRecord cid (dict_get_default msg "callback_id" VNone)
             (Callback msg tp) name in
  let st' := snd (_process rt (VDict msg) tp cid st) in
  exists pre post,
    trace st' = (trace st ++ pre ++ EvAddCallback r :: post)%list
    /\ Forall no_engine_call pre
    /\ _callback_cache st' = (_callback_cache st ++ [r])%list.
Proof.
  intros Hc Hcc Hsub Hm Hon Hcb Hname Hhash Hid Henc r st'.
  destruct (resolve_run rt msg (VStr c) name idv jid tp st Hname Hhash Hid Henc)
    as [t [st_r [pre [Hres [Htr [Hpre Hcache]]]]]].
  destruct (subscribe_stores rt msg t tp cid idv jid m st_r Hm Hon Hcb Hid Henc)
    as [st2 [post [Hrun [Htr2 Hcache2]]]].
  assert (E : _process rt (VDict msg) tp cid st = (Ok tt, st2)).
  { unfold _process, _process_dict.
    rewrite (bind_ok rt _ _ st (VStr c) st);
      [| unfold lift, getitem; rewrite Hc; reflexivity].
    rewrite (bind_ok rt _ _ st false st);
      [| rewrite (gate_on (_lock st) msg c m Hc Hcc Hm Hon); reflexivity].
    assert (Emc : _process_method_call rt msg tp cid st = (Ok tt, st2)).
    { unfold _process_method_call.
      rewrite (bind_ok rt _ _ st (VStr c) st);
        [| unfold lift, getitem; rewrite Hc; reflexivity].
      rewrite (bind_ok rt _ _ st t st_r Hres).
      unfold method_call_on, method_call_body, try_except.
      rewrite Hsub, Hrun. reflexivity. }
    unfold try_except.
    destruct Hcc; subst c; cbn [eq_str String.eqb Ascii.eqb Bool.eqb orb];
      rewrite Emc; reflexivity. }
  unfold st'. rewrite E. simpl. exists pre, post.
  split; [| split; [exact Hpre |]].
  - rewrite Htr2, Htr, <- app_assoc.
    unfold r, dict_get_default. rewrite Hname. reflexivity.
  - rewrite Hcache2, Hcache. unfold r, dict_get_default. rewrite Hname.
    reflexivity.
Qed.

Lemma callback_record_stored_witness :
  exists pre post,
    trace (snd (_process toy (VDict msg_subscribe_id7) 0 (VStr "c1")
                  (toy_manager_tv false)))
    = (trace (toy_manager_tv false) ++ pre
         ++ EvAddCallback
              (CbRecord (VStr "c1") (VInt 7) (Callback msg_subscribe_id7 0)
                 (VStr "v")) :: post)%list
    /\ Forall no_engine_call pre
    /\ _callback_cache (snd (_process toy (VDict msg_subscribe_id7) 0 (VStr "c1")
                               (toy_manager_tv false)))
       = (_callback_cache (toy_manager_tv false)
            ++ [CbRecord (VStr "c1") (VInt 7) (Callback msg_subscribe_id7 0)
                  (VStr "v")])%list.
Proof.
  apply (callback_record_stored toy (toy_manager_tv false) msg_subscribe_id7 0
           (VStr "c1") (VStr "v") (VInt 1) (JInt 1) "view_method" "on_update");
    try reflexivity.
  right. reflexivity.
Defined.

(** With the callback id 0 the [on_update] method is invoked and no record
    is stored. *)
Lemma callback_id_zero_not_stored :
  _process toy (VDict msg_subscribe_id0) 0 (VStr "c1") (toy_manager_tv false)
  = (Ok tt,
     add_event
       (EvSubscribe (OnView 1) "on_update" (Callback msg_subscribe_id0 0)
          [("mode", VStr "none")])
       (toy_manager_tv false))
  /\ _callback_cache
       (snd (_process toy (VDict msg_subscribe_id0) 0 (VStr "c1")
               (toy_manager_tv false))) = [].
Proof. split; reflexivity. Qed.

(** ** Which requests are answered *)

Section Answers.

Variable rt : Runtime.
Variable msg : dict.
Variable tp : transport.
Variable idv : pyval.
Variable jid : json.
Hypothesis Hid : dict_get msg "id" = Some idv.
Hypothesis Henc : encodes rt idv jid.

Lemma answered_before (st st1 st2 : manager rt) (e1 : list event) :
  trace st1 = (trace st ++ e1)%list -> answered jid st1 st2 -> answered jid st st2.
Proof.
  intros H1 [evs [f [H2 [Hin Hc]]]]. exists (e1 ++ evs)%list, f.
  split; [rewrite H2, H1, app_assoc; reflexivity |].
  split; [rewrite frames_app; apply in_or_app; right; exact Hin | exact Hc].
Qed.

Lemma answered_after (st st1 st2 : manager rt) (e2 : list event) :
  answered jid st st1 -> trace st2 = (trace st1 ++ e2)%list -> answered jid st st2.
Proof.
  intros [evs [f [H1 [Hin Hc]]]] H2. exists (evs ++ e2)%list, f.
  split; [rewrite H2, H1, app_assoc; reflexivity |].
  split; [rewrite frames_app; apply in_or_app; left; exact Hin | exact Hc].
Qed.

Lemma answered_post (st : manager rt) (f : frame) :
  correlated jid f -> answered jid st (add_event (EvPost tp f) st).
Proof.
  intros Hc. exists [EvPost tp f], f.
  split; [reflexivity | split; [left; reflexivity | exact Hc]].
Qed.

Lemma correlated_error (text : string) : correlated jid (error_response jid text).
Proof. eexists. split; reflexivity. Qed.

Lemma settled_message_to_json (id : pyval) (message : dict) :
  invariant rt settled (_message_to_json rt id message).
Proof.
  unfold _message_to_json, dumps.
  apply (@invariant_try rt _ (settled_steps rt)).
  - apply (@invariant_lift rt _ (settled_steps rt)).
  - intros e. apply (@invariant_bind rt _ (settled_steps rt)).
    + apply settled_emit.
    + intros _. apply (@invariant_lift rt _ (settled_steps rt)).
Qed.

(** Whatever [_message_to_json] returns for a message that begins with
    the id carries the id. *)
Lemma message_to_json_correlated (rest : dict) (st st1 : manager rt) (j : json) :
  _message_to_json rt idv (("id", idv) :: rest) st = (Ok j, st1) ->
  correlated jid (Text j).
Proof.
  unfold _message_to_json, try_except, dumps, lift.
  rewrite json_dumps_dict. cbn [dumps_items].
  rewrite (encodes_any _ _ _ false true Henc). cbn [obind].
  destruct (dumps_items (to_timestamp rt) false true rest) as [js | e];
    cbn [obind].
  - intros H. inversion H. eexists. split; reflexivity.
  - destruct (is_ValueError (exn_class e)); [| discriminate].
    unfold bind, emit. cbn [json_dumps _make_error_message obind].
    rewrite (encodes_any _ _ _ true false Henc). cbn [obind].
    intros H. inversion H. eexists. split; reflexivity.
Qed.

Lemma respond_answered (rest : dict) (st st' : manager rt) :
  respond rt msg tp (("id", idv) :: rest) st = (Ok tt, st') ->
  answered jid st st'.
Proof.
  unfold respond, getitem. rewrite Hid.
  rewrite (bind_ok rt _ _ st idv st (lift_run rt _ st)).
  intros H. apply bind_inv_ok in H. destruct H as [j [st1 [Hj Hp]]].
  destruct (settled_message_to_json idv (("id", idv) :: rest) st) as [_ [evs He]].
  rewrite Hj in He. simpl in He.
  unfold post, emit in Hp. inversion Hp.
  apply (answered_before st st1 _ evs He).
  apply (answered_post st1 (Text j)).
  apply (message_to_json_correlated rest st st1 j Hj).
Qed.

Lemma respond_data_answered (result : pyval) (st st' : manager rt) :
  respond_data rt msg tp result st = (Ok tt, st') -> answered jid st st'.
Proof.
  unfold respond_data, getitem. rewrite Hid.
  rewrite (bind_ok rt _ _ st idv st (lift_run rt _ st)).
  apply respond_answered.
Qed.

Lemma process_bytes_answered (b : string) (st st' : manager rt) :
  _process_bytes rt b msg tp st = (Ok tt, st') -> answered jid st st'.
Proof.
  unfold _process_bytes, dumps. intros H.
  apply bind_inv_ok in H. destruct H as [j [st1 [Hj Hp]]].
  unfold lift in Hj. inversion Hj as [[Hd Hs]]. subst st1.
  unfold post, bind, emit in Hp. inversion Hp.
  exists [EvPost tp (Text j); EvPost tp (Binary b)], (Text j).
  split; [simpl; rewrite <- app_assoc; reflexivity |].
  split; [left; reflexivity |].
  destruct (dumps_dict_get _ _ _ _ _ Hd) as [o [Ho Hget]].
  destruct (Hget "id" idv) as [jv [Hjv Hdv]].
  { rewrite dict_get_set_other; [exact Hid | discriminate]. }
  exists o. split; [rewrite Ho; reflexivity |].
  rewrite (encodes_any _ _ _ true true Henc) in Hdv. inversion Hdv. exact Hjv.
Qed.

Lemma deliver_answered (m : string) (result : pyval) (st st' : manager rt) :
  deliver_result rt msg m result tp st = (Ok tt, st') -> answered jid st st'.
Proof.
  unfold deliver_result.
  destruct result; try apply respond_data_answered.
  destruct (negb (String.eqb m "to_csv"));
    [apply process_bytes_answered | apply respond_data_answered].
Qed.

(** Only the deletion of a view returns without a result. *)
Lemma invocation_some (cmd : pyval) (t : target) (st st1 : manager rt)
    (m : string) (r : option pyval) :
  dict_get msg "cmd" = Some cmd -> is_view_delete msg = false ->
  invocation rt msg cmd t st = (Ok (m, r), st1) ->
  exists result, r = Some result.
Proof.
  intros Hc Hvd H. unfold invocation in H.
  apply bind_inv_ok in H. destruct H as [method [s1 [Hm H]]].
  apply bind_inv_ok in H. destruct H as [m' [s2 [Hn H]]].
  apply bind_inv_ok in H. destruct H as [args [s3 [Ha H]]].
  apply bind_inv_ok in H. destruct H as [r' [s4 [Hcall H]]].
  unfold ret in H. inversion H. subst m' r' s4.
  unfold lift in Hm, Hn. inversion Hm as [[Hm' Hs1]]. inversion Hn as [[Hn' Hs2]].
  apply getitem_ok in Hm'. apply method_name_str in Hn'. subst method.
  unfold is_view_delete, dict_get_default in Hvd. rewrite Hc, Hm' in Hvd.
  unfold call_method in Hcall. simpl in Hvd. rewrite andb_comm in Hvd.
  rewrite Hvd in Hcall.
  apply bind_inv_ok in Hcall. destruct Hcall as [result [s5 [_ Hr]]].
  unfold ret in Hr. inversion Hr. exists result. reflexivity.
Qed.

Lemma method_call_answered (cmd : pyval) (t : target) (cid : pyval)
    (st : manager rt) :
  dict_get msg "cmd" = Some cmd -> is_view_delete msg = false ->
  is_True (dict_get_default msg "subscribe" (VBool false)) = false ->
  answered jid st (snd (method_call_on rt msg cmd t tp cid st)).
Proof.
  intros Hc Hvd Hsub. unfold method_call_on, try_except.
  pose proof (preserves_method_call_body rt true msg cmd t tp cid Hc
                (fun _ => eq_refl) st) as Hp.
  apply progress_trace in Hp. destruct Hp as [evs Hevs].
  destruct (method_call_body rt msg cmd t tp cid st) as [[[] | e] st2] eqn:Hb;
    simpl in Hevs.
  - simpl. unfold method_call_body in Hb. rewrite Hsub in Hb.
    apply bind_inv_ok in Hb. destruct Hb as [[m r] [st1 [Hinv Hd]]].
    destruct (invocation_some cmd t st st1 m r Hc Hvd Hinv) as [result Hr].
    subst r. simpl in Hd.
    pose proof (preserves_invocation rt deletes_views_only true
                  deletes_views_only_call msg cmd t Hc (fun _ => eq_refl) st)
      as Hp.
    apply progress_trace in Hp. destruct Hp as [e1 He1].
    rewrite Hinv in He1. simpl in He1.
    apply (answered_before st st1 st2 e1 He1).
    apply (deliver_answered m result st1 st2 Hd).
  - simpl. rewrite (respond_error_run rt msg tp _ st2 idv jid Hid Henc). simpl.
    apply (answered_before st st2 _ evs Hevs).
    apply answered_post. apply correlated_error.
Qed.

End Answers.

(** C1 (as amended): of the requests whose command is text, that carry an
    id that encodes and pass the lock gate, [init] is answered by exactly
    {id, data: null}, and a [table_method] or [view_method] call with a
    hashable name that is no subscription and is not the deletion of a
    view is answered by at least one frame that carries its id (a result,
    an error, or the announcement of a binary result).  The [table]
    command is not answered when it succeeds: with a first argument the
    engine accepts, options that are a dict or absent and a hashable name,
    the table is registered under that name and nothing is sent. *)
Theorem requests_answered (rt : Runtime) (st : manager rt) (msg : dict)
    (tp : transport) (cid idv : pyval) (jid : json) (c : string) :
  dict_get msg "id" = Some idv -> encodes rt idv jid ->
  dict_get msg "cmd" = Some (VStr c) ->
  _is_locked_command (_lock st) msg = Ok false ->
  (c = "init" ->
   _process rt (VDict msg) tp cid st
   = (Ok tt, add_event (EvPost tp (data_response jid JNull)) st))
  /\ (c = "table_method" \/ c = "view_method" ->
      forall name,
        dict_get msg "name" = Some name -> hashable name = true ->
        is_True (dict_get_default msg "subscribe" (VBool false)) = false ->
        is_view_delete msg = false ->
        answered jid st (snd (_process rt (VDict msg) tp cid st)))
  /\ (c = "table" ->
      forall data rest options h w name,
        dict_get msg "args" = Some (VList (data :: rest)) ->
        py_kwargs (dict_get_default msg "options" (VDict [])) = Ok options ->
        new_table rt data options (world st) = (Ok h, w) ->
        dict_get msg "name" = Some name -> hashable name = true ->
        _process rt (VDict msg) tp cid st
        = (Ok tt,
           Manager (reg_set (_tables st) name (TTable h)) (_views st)
             (_callback_cache st) (_lock st) w
             (trace st ++ [EvNewTable data options]))).
Proof.
  intros Hid Henc Hc Hgate.
  assert (Hp : _process rt (VDict msg) tp cid st
               = _process_dict rt msg tp cid st) by reflexivity.
  unfold _process_dict in Hp.
  rewrite (bind_ok rt _ _ st (VStr c) st) in Hp;
    [| unfold lift, getitem; rewrite Hc; reflexivity].
  rewrite (bind_ok rt _ _ st false st) in Hp; [| rewrite Hgate; reflexivity].
  split; [| split].
  - intros E. subst c. rewrite Hp. unfold try_except.
    cbn [eq_str String.eqb Ascii.eqb Bool.eqb].
    unfold respond_data, respond, _message_to_json, dumps, try_except, bind,
      lift, getitem, post, emit.
    rewrite Hid. cbn [json_dumps _make_message obind].
    rewrite (encodes_any _ _ _ false true Henc). reflexivity.
  - intros Hcc name Hname Hhash Hsub Hvd. rewrite Hp. unfold try_except.
    assert (Hmc : answered jid st (snd (_process_method_call rt msg tp cid st))).
    { unfold _process_method_call.
      rewrite (bind_ok rt _ _ st (VStr c) st);
        [| unfold lift, getitem; rewrite Hc; reflexivity].
      destruct (resolve_run rt msg (VStr c) name idv jid tp st Hname Hhash Hid Henc)
        as [t [st_r [pre [Hres [Htr _]]]]].
      rewrite (bind_ok rt _ _ st t st_r Hres).
      apply (answered_before rt jid st st_r _ pre Htr).
      apply (method_call_answered rt msg tp idv jid Hid Henc (VStr c) t cid st_r
               Hc Hvd Hsub). }
    destruct Hcc; subst c; cbn [eq_str String.eqb Ascii.eqb Bool.eqb orb];
      destruct (_process_method_call rt msg tp cid st) as [[[] | e] st3];
      simpl in Hmc; simpl; try exact Hmc;
      (destruct (is_perspective_error (exn_class e)); [| exact Hmc]);
      rewrite (respond_error_run rt msg tp _ st3 idv jid Hid Henc); simpl;
      apply (answered_after rt jid st st3 _
               [EvPost tp (error_response jid (exn_text e))] Hmc);
      reflexivity.
  - intros E data rest options h w name Hargs Hopt Hnew Hname Hhash. subst c.
    rewrite Hp. unfold try_except at 1.
    cbn [eq_str String.eqb Ascii.eqb Bool.eqb].
    unfold try_except, getitem. rewrite Hargs, Hname, Hopt.
    repeat (progress (unfold bind, lift, ret, emit, with_world, tables_setitem,
                        check_hashable;
                      cbn beta iota delta [py_index nth_error world in_call]));
      rewrite Hnew, Hhash. reflexivity.
Qed.

Lemma requests_answered_witness :
  _process toy (VDict msg_create_table) 0 VNone (toy_manager false)
  = (Ok tt,
     @Manager toy
       (reg_set (_tables (toy_manager false)) (VStr "t") (TTable 0))
       [] [] false 1
       (trace (toy_manager false)
          ++ [EvNewTable (VDict [("a", VStr "integer")]) []])%list)
  /\ answered (JInt 1) (toy_manager_tv false)
       (snd (_process toy (VDict msg_table_schema) 0 VNone (toy_manager_tv false))).
Proof.
  split.
  - apply (proj2 (proj2
             (requests_answered toy (toy_manager false) msg_create_table 0 VNone
                (VInt 1) (JInt 1) "table" eq_refl eq_refl eq_refl eq_refl))
             eq_refl (VDict [("a", VStr "integer")]) [] [] 0 1 (VStr "t")
             eq_refl eq_refl eq_refl eq_refl eq_refl).
  - apply (proj1 (proj2
             (requests_answered toy (toy_manager_tv false) msg_table_schema 0
                VNone (VInt 1) (JInt 1) "table_method" eq_refl eq_refl eq_refl
                eq_refl))
             (or_introl eq_refl) (VStr "t") eq_refl eq_refl eq_refl eq_refl).
Defined.

(** The scenario of the specification: the table is created and registered,
    and nothing is sent back. *)
Lemma table_creation_unanswered :
  _process toy (VDict msg_create_table) 0 VNone (toy_manager false)
  = (Ok tt,
     @Manager toy [(VStr "t", TTable 0)] [] [] false 1
       [EvNewTable (VDict [("a", VStr "integer")]) []])
  /\ frames (trace (snd (_process toy (VDict msg_create_table) 0 VNone
                           (toy_manager false)))) = [].
Proof. split; reflexivity. Qed.

(** A [table_method] subscription on a table that is not registered, which
    names no [on] method and no callback id, the branch that finds no
    callback: a line is logged and nothing is sent, no error either. *)
Example subscription_without_callback_unanswered :
  _process toy (VDict msg_subscribe_nothing) 0 (VStr "c1") (toy_manager_tv false)
  = (Ok tt, add_event (EvLogInfo msg_subscribe_nothing) (toy_manager_tv false))
  /\ frames (trace (snd (_process toy (VDict msg_subscribe_nothing) 0 (VStr "c1")
                           (toy_manager_tv false)))) = [].
Proof. split; reflexivity. Qed.

(** * Further properties of the dispatcher *)

(** ** The encoder on values from JSON, and on datetimes *)

(** A value from JSON that encodes, under whatever settings, encodes the
    same with the plain encoder that allows non-finite floats. *)
Lemma from_json_dumps_plain (ts : Z -> outcome Z) (v : pyval) :
  from_json v = true ->
  forall a dt j, json_dumps ts a dt v = Ok j -> json_dumps ts true false v = Ok j.
Proof.
  induction v as [| b | z | f | s | b | l IH | d IH | t | ty r]
    using pyval_nested_ind; intros Hv a dt j H;
    try (simpl in *; congruence).
  - simpl in *. destruct (isfinite f), a; simpl in *; congruence.
  - rewrite json_dumps_list in *. simpl in Hv.
    assert (E : forall js, dumps_list ts a dt l = Ok js ->
                           dumps_list ts true false l = Ok js).
    { clear H. induction IH as [| x r Hx _ IHr]; intros js Hjs; simpl in *.
      - assumption.
      - apply andb_true_iff in Hv. destruct Hv as [Hv1 Hv2].
        destruct (json_dumps ts a dt x) as [jx |] eqn:Ex;
          simpl in Hjs; [| discriminate].
        rewrite (Hx Hv1 a dt jx Ex). simpl.
        destruct (dumps_list ts a dt r) as [jr |] eqn:Er;
          simpl in Hjs; [| discriminate].
        rewrite (IHr Hv2 jr eq_refl). simpl. assumption. }
    destruct (dumps_list ts a dt l) as [js |]; simpl in H; [| discriminate].
    rewrite (E js eq_refl). assumption.
  - rewrite json_dumps_dict in *. simpl in Hv.
    assert (E : forall js, dumps_items ts a dt d = Ok js ->
                           dumps_items ts true false d = Ok js).
    { clear H. induction IH as [| [k x] r Hx _ IHr]; intros js Hjs; simpl in *.
      - assumption.
      - apply andb_true_iff in Hv. destruct Hv as [Hv1 Hv2].
        destruct (json_dumps ts a dt x) as [jx |] eqn:Ex;
          simpl in Hjs; [| discriminate].
        rewrite (Hx Hv1 a dt jx Ex). simpl.
        destruct (dumps_items ts a dt r) as [jr |] eqn:Er;
          simpl in Hjs; [| discriminate].
        rewrite (IHr Hv2 jr eq_refl). simpl. assumption. }
    destruct (dumps_items ts a dt d) as [js |]; simpl in H; [| discriminate].
    rewrite (E js eq_refl). assumption.
Qed.

(** X1: on an id and a message made of JSON values the encoder always
    returns: the message itself, with nothing logged, when no non-finite
    float occurs in it, and otherwise the error message for the id. *)
Theorem message_to_json_total_on_json (rt : Runtime) (st : manager rt)
    (id : pyval) (message : dict) :
  from_json id = true -> from_json (VDict message) = true ->
  exists j,
    fst (_message_to_json rt id message st) = Ok j
    /\ (has_nonfinite (VDict message) = false ->
        _message_to_json rt id message st = (Ok j, st)
        /\ json_dumps (to_timestamp rt) true false (VDict message) = Ok j).
Proof.
  intros Hid Hj.
  pose proof (strict_from_json (to_timestamp rt) (VDict message) true Hj) as H.
  unfold _message_to_json, try_except, dumps, lift.
  destruct (has_nonfinite (VDict message)).
  - rewrite H. cbn [exn_class is_ValueError exn_text].
    destruct (dumps_from_json (to_timestamp rt) id false Hid) as [jid Hjid].
    unfold bind, emit. cbn [json_dumps _make_error_message obind].
    rewrite Hjid. eexists. split; [reflexivity | discriminate].
  - destruct H as [j H]. rewrite H. exists j. split; [reflexivity |].
    intros _. split; [reflexivity |].
    apply (from_json_dumps_plain (to_timestamp rt) (VDict message) Hj false true j H).
Qed.

Lemma message_to_json_total_on_json_witness :
  exists j,
    fst (_message_to_json toy (VInt 1)
           [("id", VInt 1); ("data", VList [VFloat FNaN; VStr "x"])]
           (toy_manager false)) = Ok j
    /\ (has_nonfinite
          (VDict [("id", VInt 1); ("data", VList [VFloat FNaN; VStr "x"])])
        = false ->
        _message_to_json toy (VInt 1)
          [("id", VInt 1); ("data", VList [VFloat FNaN; VStr "x"])]
          (toy_manager false) = (Ok j, toy_manager false)
        /\ json_dumps (to_timestamp toy) true false
             (VDict [("id", VInt 1); ("data", VList [VFloat FNaN; VStr "x"])])
           = Ok j).
Proof.
  apply (message_to_json_total_on_json toy (toy_manager false) (VInt 1)
           [("id", VInt 1); ("data", VList [VFloat FNaN; VStr "x"])]);
    reflexivity.
Defined.

(** X2: when the date validator gives every datetime a timestamp,
    encoding with [DateTimeEncoder] is encoding, without it, the value in
    which each datetime has been replaced by its timestamp. *)
Theorem datetimes_encoded_as_timestamps (ts : Z -> outcome Z) (ms : Z -> Z)
    (v : pyval) (allow_nan : bool) :
  (forall t, ts t = Ok (ms t)) ->
  json_dumps ts allow_nan true v = json_dumps ts allow_nan false (stamp ms v).
Proof.
  intros Hts.
  induction v as [| b | z | f | s | b | l IH | d IH | t | ty r]
    using pyval_nested_ind; try reflexivity.
  - change (stamp ms (VList l)) with (VList (map (stamp ms) l)).
    rewrite !json_dumps_list. f_equal.
    induction IH as [| x r Hx _ IHr]; simpl; [reflexivity |].
    rewrite Hx, IHr. reflexivity.
  - change (stamp ms (VDict d))
      with (VDict (map (fun kv => (fst kv, stamp ms (snd kv))) d)).
    rewrite !json_dumps_dict. f_equal.
    induction IH as [| [k x] r Hx _ IHr]; simpl; [reflexivity |].
    simpl in Hx. rewrite Hx, IHr. reflexivity.
  - simpl. rewrite Hts. reflexivity.
Qed.

Lemma datetimes_encoded_as_timestamps_witness :
  json_dumps (to_timestamp toy) false true
    (VDict [("id", VInt 1); ("data", VList [VDatetime 1577836800000])])
  = json_dumps (to_timestamp toy) false false
      (stamp (fun t => t)
         (VDict [("id", VInt 1); ("data", VList [VDatetime 1577836800000])])).
Proof.
  apply (datetimes_encoded_as_timestamps (to_timestamp toy) (fun t => t)).
  intros t. reflexivity.
Defined.

(** ** Registries as dicts *)

Lemma py_eq_str_r (x : pyval) (a : string) : py_eq x (VStr a) = true <-> x = VStr a.
Proof.
  destruct x as [| b | z | f | s | b | l | d | t | ty r]; simpl;
    try (split; [discriminate | intros H; inversion H]).
  rewrite String.eqb_eq. split; intros H; [subst | inversion H]; reflexivity.
Qed.

Lemma py_eq_str_refl (a : string) : py_eq (VStr a) (VStr a) = true.
Proof. apply py_eq_str_r. reflexivity. Qed.

Section RegistryFacts.

Context {V : Type}.

(** What was stored under a name is what the name resolves to. *)
Lemma reg_get_set_same (r : list (pyval * V)) (k : pyval) (v : V) :
  py_eq k k = true -> reg_get (reg_set r k v) k = Some v.
Proof.
  intros Hk. induction r as [| [k1 v1] r IH]; simpl.
  - rewrite Hk. reflexivity.
  - destruct (py_eq k1 k) eqn:E; simpl; rewrite E; [reflexivity | exact IH].
Qed.

(** The other names resolve as before. *)
Lemma reg_get_set_other (r : list (pyval * V)) (a b : string) (v : V) :
  a <> b -> reg_get (reg_set r (VStr a) v) (VStr b) = reg_get r (VStr b).
Proof.
  intros Hab. induction r as [| [k1 v1] r IH]; simpl.
  - destruct (String.eqb_spec a b); [contradiction | reflexivity].
  - destruct (py_eq k1 (VStr a)) eqn:E; simpl.
    + apply py_eq_str_r in E. subst k1. simpl.
      destruct (String.eqb_spec a b); [contradiction | reflexivity].
    + destruct (py_eq k1 (VStr b)); [reflexivity | exact IH].
Qed.

(** Storing under a registered name adds no entry. *)
Lemma reg_set_length (r : list (pyval * V)) (k : pyval) (v : V) :
  reg_get r k <> None -> length (reg_set r k v) = length r.
Proof.
  induction r as [| [k1 v1] r IH]; simpl; intros H.
  - contradiction H. reflexivity.
  - destruct (py_eq k1 k); simpl; [reflexivity |]. rewrite (IH H). reflexivity.
Qed.

Lemma reg_get_absent (r : list (pyval * V)) (a : string) :
  ~ In (VStr a) (map fst r) -> reg_get r (VStr a) = None.
Proof.
  induction r as [| [k1 v1] r IH]; simpl; intros H; [reflexivity |].
  destruct (py_eq k1 (VStr a)) eqn:E.
  - apply py_eq_str_r in E. contradiction H. left. exact E.
  - apply IH. intros Hin. apply H. right. exact Hin.
Qed.

Lemma reg_pop_absent (r : list (pyval * V)) (a : string) :
  ~ In (VStr a) (map fst r) -> reg_pop r (VStr a) = r.
Proof.
  induction r as [| [k1 v1] r IH]; simpl; intros H; [reflexivity |].
  destruct (py_eq k1 (VStr a)) eqn:E.
  - apply py_eq_str_r in E. contradiction H. left. exact E.
  - rewrite IH; [reflexivity |]. intros Hin. apply H. right. exact Hin.
Qed.

(** In a registry named by strings, a name that was popped resolves no
    more. *)
Lemma reg_get_pop_same (r : list (pyval * V)) (a : string) :
  NoDup (map fst r) -> reg_get (reg_pop r (VStr a)) (VStr a) = None.
Proof.
  induction r as [| [k1 v1] r IH]; simpl; intros H; [reflexivity |].
  inversion H as [| x l Hnot Hnd]; subst.
  destruct (py_eq k1 (VStr a)) eqn:E.
  - apply py_eq_str_r in E. subst k1. apply reg_get_absent. exact Hnot.
  - simpl. rewrite E. apply IH. exact Hnd.
Qed.

End RegistryFacts.

(** ** What [_process] does with its input, and the commands it knows *)

Ltac enter_dispatch rt st cmd Hc Hgate :=
  unfold _process, _process_dict;
  rewrite (bind_ok rt _ _ st cmd st)
    by (unfold lift, getitem; rewrite Hc; reflexivity);
  rewrite (bind_ok rt _ _ st false st) by (rewrite Hgate; reflexivity).

(** X3: the heartbeat does nothing; a text that does not decode leaves
    [_process] with the decoder's exception, a text that decodes to a dict
    is processed as that dict; anything that is neither text nor dict, and
    a dict without [cmd], is refused with an exception that is not turned
    into a response; a dict whose command is none of the five known, and
    which the lock gate lets through, is ignored without a response. *)
Theorem inputs_that_are_no_request (rt : Runtime) (st : manager rt)
    (tp : transport) (cid : pyval) :
  _process rt (VStr "heartbeat") tp cid st = (Ok tt, st)
  /\ (forall s e, s <> "heartbeat" -> json_loads rt s = Raise e ->
      _process rt (VStr s) tp cid st = (Raise e, st))
  /\ (forall s d, s <> "heartbeat" -> json_loads rt s = Ok (VDict d) ->
      _process rt (VStr s) tp cid st = _process rt (VDict d) tp cid st)
  /\ (forall msg, (forall s, msg <> VStr s) -> (forall d, msg <> VDict d) ->
      exists text,
        _process rt msg tp cid st = (Raise (Exn PerspectiveError text), st))
  /\ (forall msg, dict_get msg "cmd" = None ->
      _process rt (VDict msg) tp cid st = (Raise (Exn KeyError "'cmd'"), st))
  /\ (forall msg cmd,
        dict_get msg "cmd" = Some cmd ->
        _is_locked_command (_lock st) msg = Ok false ->
        in_strs cmd ["init"; "table"; "view"; "table_method"; "view_method"]
        = false ->
        _process rt (VDict msg) tp cid st = (Ok tt, st)).
Proof.
  split; [reflexivity |].
  split.
  { intros s e Hs He. unfold _process.
    destruct (String.eqb_spec s "heartbeat"); [contradiction |].
    unfold bind, lift. rewrite He. reflexivity. }
  split.
  { intros s d Hs Hd. unfold _process at 1.
    destruct (String.eqb_spec s "heartbeat"); [contradiction |].
    unfold bind, lift. rewrite Hd. reflexivity. }
  split.
  { intros msg Hs Hd. destruct msg; try (eexists; reflexivity).
    - contradiction (Hs s). reflexivity.
    - contradiction (Hd d). reflexivity. }
  split.
  { intros msg Hc. unfold _process, _process_dict, bind, lift, getitem.
    rewrite Hc. reflexivity. }
  intros msg cmd Hc Hgate Hno.
  enter_dispatch rt st cmd Hc Hgate.
  simpl in Hno. rewrite !orb_false_r in Hno.
  repeat (apply orb_false_iff in Hno; destruct Hno as [? Hno]).
  unfold try_except.
  repeat match goal with H : eq_str cmd _ = false |- _ => rewrite H; clear H end.
  reflexivity.
Qed.

(** ** Tables and views *)

Ltac step :=
  repeat (progress (unfold try_except, bind, lift, ret, raise, emit, with_world,
                      tables_setitem, views_setitem, tables_getitem, tables_get,
                      views_getitem, views_get, views_pop, check_hashable, getitem,
                      in_call;
                    cbn beta iota)).

Ltac enter_table rt st msg Hc Hl :=
  enter_dispatch rt st (VStr "table") Hc
    (f_equal (fun l => _is_locked_command l msg) Hl);
  change (eq_str (VStr "table") "init") with false;
  change (eq_str (VStr "table") "table") with true;
  cbv iota; step.

Ltac enter_view rt st Hc Hgate :=
  enter_dispatch rt st (VStr "view") Hc Hgate;
  change (eq_str (VStr "view") "init") with false;
  change (eq_str (VStr "view") "table") with false;
  change (eq_str (VStr "view") "view") with true;
  cbv iota; step.

(** X4: a [table] message that passes the gate and carries arguments hands
    the first of them, with the options as keywords, to the engine; a table
    the engine returns is registered under the name and nothing is sent; an
    [IndexError] of the engine registers an empty list under the name, as
    if there had been no arguments; a [PerspectiveError] or
    [PerspectiveCppError] registers nothing and is answered by an error
    with its text; any other exception leaves [_process], nothing
    registered. *)
Theorem table_creation (rt : Runtime) (st : manager rt) (msg : dict)
    (tp : transport) (cid args d name idv : pyval) (o : dict) (jid : json) :
  dict_get msg "cmd" = Some (VStr "table") ->
  _lock st = false ->
  dict_get msg "args" = Some args ->
  py_index args 0 = Ok d ->
  py_kwargs (dict_get_default msg "options" (VDict [])) = Ok o ->
  dict_get msg "name" = Some name ->
  hashable name = true ->
  dict_get msg "id" = Some idv ->
  encodes rt idv jid ->
  let st1 := add_event (EvNewTable d o) st in
  _process rt (VDict msg) tp cid st =
  match new_table rt d o (world st) with
  | (Ok h, w) =>
      (Ok tt, set_tables rt (reg_set (_tables st) name (TTable h))
                (set_world rt w st1))
  | (Raise e, w) =>
      if is_IndexError (exn_class e) then
        (Ok tt, set_tables rt
                  (reg_set (_tables st) name (TList (fst (new_list rt w))))
                  (set_world rt (snd (new_list rt w)) st1))
      else if is_perspective_error (exn_class e) then
        (Ok tt, add_event (EvPost tp (error_response jid (exn_text e)))
                  (set_world rt w st1))
      else (Raise e, set_world rt w st1)
  end.
Proof.
  intros Hc Hl Ha Hd Ho Hn Hh Hid Henc st1.
  enter_table rt st msg Hc Hl.
  rewrite Ha, Hd, Ho, Hn, Hh. cbn beta iota. cbn [world].
  destruct (new_table rt d o (world st)) as [[h | e] w]; cbn beta iota.
  - reflexivity.
  - destruct (is_IndexError (exn_class e)) eqn:Ei.
    + cbn [world set_world]. destruct (new_list rt w) as [hl wl]. reflexivity.
    + destruct (is_perspective_error (exn_class e)); [| reflexivity].
      apply (respond_error_run rt msg tp _ _ idv jid Hid Henc).
Qed.

Lemma table_creation_witness :
  _process faulty (VDict msg_create_table) 0 VNone (@Manager faulty [] [] [] false 0 [])
  = (Ok tt,
     @Manager faulty [] [] [] false 0
       [EvNewTable (VDict [("a", VStr "integer")]) [];
        EvPost 0 (error_response (JInt 1) "engine failure")]).
Proof.
  exact (table_creation faulty (@Manager faulty [] [] [] false 0 [])
           msg_create_table 0 VNone
           (VList [VDict [("a", VStr "integer")]]) (VDict [("a", VStr "integer")])
           (VStr "t") (VInt 1) [] (JInt 1)
           eq_refl eq_refl eq_refl eq_refl eq_refl eq_refl eq_refl eq_refl eq_refl).
Defined.

(** X5: a [table] message whose [args] hold no first element (an empty
    list, an empty string) creates no table in the engine: an empty list is
    registered under the name, nothing is sent and nothing is logged.  A
    message with no [args] at all is not treated so: its [KeyError] leaves
    [_process] and the state is as before. *)
Theorem table_without_arguments (rt : Runtime) (st : manager rt) (msg : dict)
    (tp : transport) (cid : pyval) :
  dict_get msg "cmd" = Some (VStr "table") ->
  _lock st = false ->
  (forall args e name,
     dict_get msg "args" = Some args ->
     py_index args 0 = Raise e -> exn_class e = IndexError ->
     dict_get msg "name" = Some name -> hashable name = true ->
     _process rt (VDict msg) tp cid st
     = (Ok tt,
        set_tables rt
          (reg_set (_tables st) name (TList (fst (new_list rt (world st)))))
          (set_world rt (snd (new_list rt (world st))) st)))
  /\ (dict_get msg "args" = None ->
      _process rt (VDict msg) tp cid st = (Raise (Exn KeyError "'args'"), st)).
Proof.
  intros Hc Hl. split.
  - intros args e name Ha Hd He Hn Hh.
    enter_table rt st msg Hc Hl.
    rewrite Ha, Hd, He, Hn, Hh. cbn beta iota.
    destruct (new_list rt (world st)) as [hl wl]. reflexivity.
  - intros Ha. enter_table rt st msg Hc Hl. rewrite Ha. reflexivity.
Qed.

Lemma table_without_arguments_witness :
  _process toy (VDict msg_create_empty_table) 0 VNone (toy_manager_tv false)
  = (Ok tt,
     @Manager toy [(VStr "t", TTable 0); (VStr "e", TList 2)]
       [(VStr "v", VEntry 1 (VStr "c1"))] [] false 3 []).
Proof.
  exact (proj1 (table_without_arguments toy (toy_manager_tv false)
                  msg_create_empty_table 0 VNone eq_refl eq_refl)
           (VList []) (index_error "list") (VStr "e")
           eq_refl eq_refl eq_refl eq_refl eq_refl).
Defined.

(** X6: a [view] message that passes the gate and names a registered table
    asks that table for a view with the config as keywords; the view the
    engine returns is registered under [view_name] together with the
    client id [_process] was called with, and nothing is sent; a
    [PerspectiveError] or [PerspectiveCppError] registers nothing and is
    answered by an error with its text; any other exception leaves
    [_process]. *)
Theorem view_creation (rt : Runtime) (st : manager rt) (msg : dict)
    (tp : transport) (cid tn vn idv : pyval) (h : handle) (c : dict)
    (jid : json) :
  dict_get msg "cmd" = Some (VStr "view") ->
  _is_locked_command (_lock st) msg = Ok false ->
  dict_get msg "table_name" = Some tn ->
  hashable tn = true ->
  reg_get (_tables st) tn = Some (TTable h) ->
  py_kwargs (dict_get_default msg "config" (VDict [])) = Ok c ->
  dict_get msg "view_name" = Some vn ->
  hashable vn = true ->
  dict_get msg "id" = Some idv ->
  encodes rt idv jid ->
  let st1 := add_event (EvView h c) st in
  _process rt (VDict msg) tp cid st =
  match new_view rt h c (world st) with
  | (Ok v, w) =>
      (Ok tt, set_views rt (reg_set (_views st) vn (VEntry v cid))
                (set_world rt w st1))
  | (Raise e, w) =>
      if is_perspective_error (exn_class e) then
        (Ok tt, add_event (EvPost tp (error_response jid (exn_text e)))
                  (set_world rt w st1))
      else (Raise e, set_world rt w st1)
  end.
Proof.
  intros Hc Hgate Htn Hh Ht Hcfg Hvn Hhv Hid Henc st1.
  enter_view rt st Hc Hgate.
  rewrite Htn, Hh. cbn beta iota. rewrite Ht. cbn beta iota.
  rewrite Hcfg. cbn beta iota. cbn [world].
  destruct (new_view rt h c (world st)) as [[v | e] w]; cbn beta iota.
  - rewrite Hvn, Hhv. reflexivity.
  - destruct (is_perspective_error (exn_class e)); [| reflexivity].
    apply (respond_error_run rt msg tp _ _ idv jid Hid Henc).
Qed.

Lemma view_creation_witness :
  _process toy (VDict msg_create_view) 0 (VStr "c2") (toy_manager_tv false)
  = (Ok tt,
     @Manager toy [(VStr "t", TTable 0)]
       [(VStr "v", VEntry 1 (VStr "c1")); (VStr "w", VEntry 2 (VStr "c2"))] []
       false 3 [EvView 0 []]).
Proof.
  exact (view_creation toy (toy_manager_tv false) msg_create_view 0 (VStr "c2")
           (VStr "t") (VStr "w") (VInt 2) 0 [] (JInt 2)
           eq_refl eq_refl eq_refl eq_refl eq_refl eq_refl eq_refl eq_refl
           eq_refl eq_refl).
Defined.

(** X7: a [view] message that names no registered table leaves [_process]
    with the [KeyError] of the lookup; one that names the empty list
    standing for a table created without arguments leaves it with an
    [AttributeError]; in both cases no response is sent and the state is as
    before.  A message without [view_name] has its view created in the
    engine before the [KeyError] leaves [_process], and the view is
    registered nowhere. *)
Theorem view_creation_errors (rt : Runtime) (st : manager rt) (msg : dict)
    (tp : transport) (cid tn : pyval) :
  dict_get msg "cmd" = Some (VStr "view") ->
  _is_locked_command (_lock st) msg = Ok false ->
  dict_get msg "table_name" = Some tn ->
  hashable tn = true ->
  (reg_get (_tables st) tn = None ->
   _process rt (VDict msg) tp cid st = (Raise (Exn KeyError (py_repr rt tn)), st))
  /\ (forall h, reg_get (_tables st) tn = Some (TList h) ->
      _process rt (VDict msg) tp cid st
      = (Raise (Exn AttributeError "'list' object has no attribute 'view'"), st))
  /\ (forall h c v w,
        reg_get (_tables st) tn = Some (TTable h) ->
        py_kwargs (dict_get_default msg "config" (VDict [])) = Ok c ->
        new_view rt h c (world st) = (Ok v, w) ->
        dict_get msg "view_name" = None ->
        _process rt (VDict msg) tp cid st
        = (Raise (Exn KeyError "'view_name'"),
           set_world rt w (add_event (EvView h c) st))).
Proof.
  intros Hc Hgate Htn Hh. split; [| split].
  - intros Ht. enter_view rt st Hc Hgate.
    rewrite Htn, Hh. cbn beta iota. rewrite Ht. reflexivity.
  - intros h Ht. enter_view rt st Hc Hgate.
    rewrite Htn, Hh. cbn beta iota. rewrite Ht. reflexivity.
  - intros h c v w Ht Hcfg Hv Hvn. enter_view rt st Hc Hgate.
    rewrite Htn, Hh. cbn beta iota. rewrite Ht. cbn beta iota.
    rewrite Hcfg. cbn beta iota. cbn [world]. rewrite Hv. cbn beta iota.
    rewrite Hvn. reflexivity.
Qed.

Lemma view_creation_errors_witness :
  _process toy (VDict msg_create_view) 0 VNone (toy_manager false)
  = (Raise (Exn KeyError "'t'"), toy_manager false).
Proof.
  exact (proj1 (view_creation_errors toy (toy_manager false) msg_create_view 0
                  VNone (VStr "t") eq_refl eq_refl eq_refl eq_refl) eq_refl).
Defined.

(** X8: a table created under a name and a view then requested on that
    name: the view is built on the handle the engine returned for the
    table, in the engine state the table creation left, and is registered
    for the client of the second message; the table stays registered. *)
Theorem table_then_view (rt : Runtime) (st : manager rt) (m1 m2 : dict)
    (tp : transport) (cid1 cid2 args d vn : pyval) (n : string) (o c : dict)
    (h v : handle) (w1 w2 : W rt) :
  dict_get m1 "cmd" = Some (VStr "table") ->
  _lock st = false ->
  dict_get m1 "args" = Some args ->
  py_index args 0 = Ok d ->
  py_kwargs (dict_get_default m1 "options" (VDict [])) = Ok o ->
  dict_get m1 "name" = Some (VStr n) ->
  new_table rt d o (world st) = (Ok h, w1) ->
  dict_get m2 "cmd" = Some (VStr "view") ->
  dict_get m2 "table_name" = Some (VStr n) ->
  py_kwargs (dict_get_default m2 "config" (VDict [])) = Ok c ->
  dict_get m2 "view_name" = Some vn ->
  hashable vn = true ->
  new_view rt h c w1 = (Ok v, w2) ->
  (_process rt (VDict m1) tp cid1 ;; _process rt (VDict m2) tp cid2) st
  = (Ok tt,
     Manager (reg_set (_tables st) (VStr n) (TTable h))
       (reg_set (_views st) vn (VEntry v cid2))
       (_callback_cache st) false w2
       (trace st ++ [EvNewTable d o; EvView h c])).
Proof.
  intros Hc1 Hl Ha Hd Ho Hn Ht Hc2 Htn Hcfg Hvn Hhv Hv.
  set (st1 := set_tables rt (reg_set (_tables st) (VStr n) (TTable h))
                (set_world rt w1 (add_event (EvNewTable d o) st))).
  rewrite (bind_ok rt _ _ st tt st1).
  - enter_view rt st1 Hc2
      (f_equal (fun l => _is_locked_command l m2) (Hl : _lock st1 = false)).
    rewrite Htn. cbn [hashable]. cbn beta iota.
    unfold st1 at 1. cbn [_tables set_tables].
    rewrite (reg_get_set_same _ _ _ (py_eq_str_refl n)). cbn beta iota.
    rewrite Hcfg. cbn beta iota. cbn [world st1 set_tables set_world add_event].
    rewrite Hv. cbn beta iota. rewrite Hvn, Hhv. cbn beta iota.
    unfold set_views, st1, set_tables, set_world, add_event. cbn.
    rewrite Hl, <- app_assoc. reflexivity.
  - enter_table rt st m1 Hc1 Hl.
    rewrite Ha, Hd, Ho, Hn. cbn [hashable]. cbn beta iota. cbn [world].
    rewrite Ht. reflexivity.
Qed.

Lemma table_then_view_witness :
  (_process toy (VDict msg_create_table) 0 (VStr "c1") ;;
   _process toy (VDict msg_create_view) 0 (VStr "c2")) (toy_manager false)
  = (Ok tt,
     @Manager toy [(VStr "t", TTable 0)] [(VStr "w", VEntry 1 (VStr "c2"))] []
       false 2 [EvNewTable (VDict [("a", VStr "integer")]) []; EvView 0 []]).
Proof.
  exact (table_then_view toy (toy_manager false) msg_create_table msg_create_view
           0 (VStr "c1") (VStr "c2") (VList [VDict [("a", VStr "integer")]])
           (VDict [("a", VStr "integer")]) (VStr "w") "t" [] [] 0 1 1 2
           eq_refl eq_refl eq_refl eq_refl eq_refl eq_refl eq_refl eq_refl
           eq_refl eq_refl eq_refl eq_refl eq_refl).
Defined.

(** X9: creating a table under a name that is taken replaces the entry:
    the name resolves to the new table, every other name resolves as
    before, the registry has as many entries as before, and the engine is
    asked to delete nothing. *)
Theorem table_name_reuse (rt : Runtime) (st : manager rt) (msg : dict)
    (tp : transport) (cid args d : pyval) (n : string) (o : dict)
    (h : handle) (w : W rt) :
  dict_get msg "cmd" = Some (VStr "table") ->
  _lock st = false ->
  dict_get msg "args" = Some args ->
  py_index args 0 = Ok d ->
  py_kwargs (dict_get_default msg "options" (VDict [])) = Ok o ->
  dict_get msg "name" = Some (VStr n) ->
  new_table rt d o (world st) = (Ok h, w) ->
  reg_get (_tables st) (VStr n) <> None ->
  let st' := snd (_process rt (VDict msg) tp cid st) in
  reg_get (_tables st') (VStr n) = Some (TTable h)
  /\ (forall n', n <> n' ->
      reg_get (_tables st') (VStr n') = reg_get (_tables st) (VStr n'))
  /\ length (_tables st') = length (_tables st)
  /\ _views st' = _views st
  /\ trace st' = (trace st ++ [EvNewTable d o])%list.
Proof.
  intros Hc Hl Ha Hd Ho Hn Ht Hold st'.
  assert (E : st' = set_tables rt (reg_set (_tables st) (VStr n) (TTable h))
                      (set_world rt w (add_event (EvNewTable d o) st))).
  { unfold st'. enter_table rt st msg Hc Hl.
    rewrite Ha, Hd, Ho, Hn. cbn [hashable]. cbn beta iota. cbn [world].
    rewrite Ht. reflexivity. }
  rewrite E. cbn [_tables _views trace set_tables set_world add_event].
  split; [apply reg_get_set_same, py_eq_str_refl |].
  split; [intros n' Hne; apply reg_get_set_other; exact Hne |].
  split; [apply reg_set_length; exact Hold |].
  split; reflexivity.
Qed.

Lemma table_name_reuse_witness :
  reg_get (_tables (snd (_process toy (VDict msg_create_table) 0 VNone
                           (toy_manager_tv false)))) (VStr "t")
  = Some (TTable 2).
Proof.
  exact (proj1 (table_name_reuse toy (toy_manager_tv false) msg_create_table 0
                  VNone (VList [VDict [("a", VStr "integer")]])
                  (VDict [("a", VStr "integer")]) "t" [] 2 3
                  eq_refl eq_refl eq_refl eq_refl eq_refl eq_refl eq_refl
                  ltac:(discriminate))).
Defined.

(** ** Method calls *)

Section MethodCalls.

Variable rt : Runtime.
Variable msg : dict.
Variable tp : transport.
Variable idv : pyval.
Variable jid : json.
Hypothesis Hid : dict_get msg "id" = Some idv.
Hypothesis Henc : encodes rt idv jid.

(** With an id that encodes, the [try] block of a method call ends without
    an exception, whatever its body does. *)
Lemma method_call_on_raise (cmd : pyval) (t : target) (cid : pyval)
    (st st2 : manager rt) (e : exn) :
  method_call_body rt msg cmd t tp cid st = (Raise e, st2) ->
  method_call_on rt msg cmd t tp cid st
  = (Ok tt, add_event (EvPost tp (error_response jid (exn_text e))) st2).
Proof.
  intros H. unfold method_call_on, try_except. rewrite H. cbn beta iota.
  apply (respond_error_run rt msg tp _ st2 idv jid Hid Henc).
Qed.

Lemma method_call_on_done (cmd : pyval) (t : target) (cid : pyval)
    (st st2 : manager rt) :
  method_call_body rt msg cmd t tp cid st = (Ok tt, st2) ->
  method_call_on rt msg cmd t tp cid st = (Ok tt, st2).
Proof. intros H. unfold method_call_on, try_except. rewrite H. reflexivity. Qed.

Lemma method_call_on_ok (cmd : pyval) (t : target) (cid : pyval)
    (st : manager rt) :
  fst (method_call_on rt msg cmd t tp cid st) = Ok tt.
Proof.
  destruct (method_call_body rt msg cmd t tp cid st) as [[[] | e] st2] eqn:E.
  - rewrite (method_call_on_done cmd t cid st st2 E). reflexivity.
  - rewrite (method_call_on_raise cmd t cid st st2 e E). reflexivity.
Qed.

(** A method-call message that passes the gate: [_process] is the [try]
    block on the handle resolved. *)
Lemma process_method_call (c : string) (t : target) (cid : pyval)
    (st st1 : manager rt) :
  dict_get msg "cmd" = Some (VStr c) ->
  c = "table_method" \/ c = "view_method" ->
  _is_locked_command (_lock st) msg = Ok false ->
  resolve rt msg (VStr c) tp st = (Ok t, st1) ->
  _process rt (VDict msg) tp cid st
  = method_call_on rt msg (VStr c) t tp cid st1.
Proof.
  intros Hc Hcc Hgate Hres.
  enter_dispatch rt st (VStr c) Hc Hgate.
  assert (E : _process_method_call rt msg tp cid st
              = method_call_on rt msg (VStr c) t tp cid st1).
  { unfold _process_method_call.
    rewrite (bind_ok rt _ _ st (VStr c) st)
      by (unfold lift, getitem; rewrite Hc; reflexivity).
    rewrite (bind_ok rt _ _ st t st1 Hres). reflexivity. }
  pose proof (method_call_on_ok (VStr c) t cid st1) as Hok.
  unfold try_except.
  destruct Hcc; subst c;
    cbn [eq_str String.eqb Ascii.eqb Bool.eqb orb];
    rewrite E;
    destruct (method_call_on rt msg _ t tp cid st1) as [[[] | e] s];
    simpl in Hok; try discriminate Hok; reflexivity.
Qed.

Lemma resolve_table (name : pyval) (st : manager rt) :
  dict_get msg "name" = Some name -> hashable name = true ->
  resolve rt msg (VStr "table_method") tp st
  = (Ok (match reg_get (_tables st) name with
         | Some e => tentry_target e
         | None => OnNone
         end), st).
Proof.
  intros Hn Hh. unfold resolve. cbn [eq_str String.eqb Ascii.eqb Bool.eqb].
  step. rewrite Hn, Hh. reflexivity.
Qed.

Lemma resolve_view (name : pyval) (v : ventry) (st : manager rt) :
  dict_get msg "name" = Some name -> hashable name = true ->
  reg_get (_views st) name = Some v ->
  resolve rt msg (VStr "view_method") tp st = (Ok (OnView (v_handle v)), st).
Proof.
  intros Hn Hh Hv. unfold resolve. cbn [eq_str String.eqb Ascii.eqb Bool.eqb].
  step. rewrite Hn, Hh. cbn beta iota. rewrite Hv. reflexivity.
Qed.

(** A success response for an id and a result that encode. *)
Lemma respond_data_run (result : pyval) (jr : json) (st : manager rt) :
  json_dumps (to_timestamp rt) false true result = Ok jr ->
  respond_data rt msg tp result st
  = (Ok tt, add_event (EvPost tp (data_response jid jr)) st).
Proof.
  intros Hr.
  unfold respond_data, respond, _message_to_json, dumps, try_except, bind, lift,
    getitem.
  rewrite Hid. cbn [json_dumps _make_message obind].
  rewrite (encodes_any _ _ _ false true Henc), Hr. reflexivity.
Qed.

(** A message the gate blocks has a method that is text. *)
Lemma blocked_method_text (c : string) :
  dict_get msg "cmd" = Some (VStr c) ->
  c = "table_method" \/ c = "view_method" ->
  _is_locked_command true msg = Ok true ->
  exists m, dict_get msg "method" = Some (VStr m).
Proof.
  intros Hc Hcc Hg. rewrite (gate_locked msg (VStr c) Hc) in Hg.
  injection Hg as Hb.
  assert (Hm : exists m, dict_get_default msg "method" VNone = VStr m).
  { apply orb_true_iff in Hb. destruct Hb as [Hb | Hb].
    - apply andb_true_iff in Hb. destruct Hb as [_ Hb].
      apply eq_str_true in Hb. eexists; exact Hb.
    - apply orb_true_iff in Hb. destruct Hb as [Hb | Hb].
      + destruct Hcc; subst c; discriminate Hb.
      + destruct (dict_get_default msg "method" VNone); simpl in Hb;
          try discriminate Hb. eexists; reflexivity. }
  destruct Hm as [m Hm]. exists m. unfold dict_get_default in Hm.
  destruct (dict_get msg "method"); [rewrite Hm; reflexivity | discriminate Hm].
Qed.

End MethodCalls.

(** X10: a [table_method] or [view_method] message with a name that can be
    looked up and an id that encodes never makes [_process] raise, locked
    or not and whichever exception the engine raises.  A message the gate
    blocks has the access-denied response as its one effect; in a message
    the gate lets through, an exception that leaves the body of the [try]
    block of the method call, be it the engine's or the dispatcher's own,
    ends as the response {id, error} with its text. *)
Theorem method_calls_never_raise (rt : Runtime) (st : manager rt) (msg : dict)
    (tp : transport) (cid name idv : pyval) (jid : json) (c : string) :
  dict_get msg "cmd" = Some (VStr c) ->
  c = "table_method" \/ c = "view_method" ->
  dict_get msg "name" = Some name -> hashable name = true ->
  dict_get msg "id" = Some idv -> encodes rt idv jid ->
  fst (_process rt (VDict msg) tp cid st) = Ok tt
  /\ (_is_locked_command (_lock st) msg = Ok true ->
      exists m,
        dict_get msg "method" = Some (VStr m)
        /\ _process rt (VDict msg) tp cid st
           = (Ok tt,
              add_event
                (EvPost tp (error_response jid
                   ("`" ++ (c ++ "." ++ m) ++ "` failed - access denied"))) st))
  /\ (_is_locked_command (_lock st) msg = Ok false ->
      exists t st1,
        resolve rt msg (VStr c) tp st = (Ok t, st1)
        /\ forall e st2,
             method_call_body rt msg (VStr c) t tp cid st1 = (Raise e, st2) ->
             _process rt (VDict msg) tp cid st
             = (Ok tt,
                add_event (EvPost tp (error_response jid (exn_text e))) st2)).
Proof.
  intros Hc Hcc Hn Hh Hid Henc.
  assert (Hblocked : _is_locked_command (_lock st) msg = Ok true ->
            exists m,
              dict_get msg "method" = Some (VStr m)
              /\ _process rt (VDict msg) tp cid st
                 = (Ok tt,
                    add_event
                      (EvPost tp (error_response jid
                         ("`" ++ (c ++ "." ++ m) ++ "` failed - access denied")))
                      st)).
  { intros Hgate.
    destruct (_lock st) eqn:Hl; [| discriminate Hgate].
    destruct (blocked_method_text msg c Hc Hcc Hgate) as [m Hm].
    exists m. split; [exact Hm |].
    unfold _process, _process_dict.
    rewrite (bind_ok rt _ _ st (VStr c) st)
      by (unfold lift, getitem; rewrite Hc; reflexivity).
    rewrite (bind_ok rt _ _ st true st) by (rewrite Hl, Hgate; reflexivity).
    rewrite (bind_ok rt _ _ st (VStr (c ++ "." ++ m)) st).
    - apply (respond_error_run rt msg tp _ st idv jid Hid Henc).
    - unfold lift. rewrite (locked_label_cases msg c (c ++ "." ++ m) Hc);
        [reflexivity |].
      right. exists m. split; [exact Hm | reflexivity]. }
  assert (Hopen : _is_locked_command (_lock st) msg = Ok false ->
            exists t st1,
              resolve rt msg (VStr c) tp st = (Ok t, st1)
              /\ _process rt (VDict msg) tp cid st
                 = method_call_on rt msg (VStr c) t tp cid st1).
  { intros Hgate.
    destruct (resolve_run rt msg (VStr c) name idv jid tp st Hn Hh Hid Henc)
      as [t [st1 [pre [Hres _]]]].
    exists t, st1. split; [exact Hres |].
    apply (process_method_call rt msg tp idv jid Hid Henc c t cid st st1
             Hc Hcc Hgate Hres). }
  split; [| split].
  - destruct (_is_locked_command (_lock st) msg) as [[|] | e] eqn:Hgate.
    + destruct (Hblocked eq_refl) as [m [_ E]]. rewrite E. reflexivity.
    + destruct (Hopen eq_refl) as [t [st1 [_ E]]]. rewrite E.
      apply (method_call_on_ok rt msg tp idv jid Hid Henc).
    + destruct (_lock st); [| discriminate Hgate].
      rewrite (gate_locked msg (VStr c) Hc) in Hgate. discriminate Hgate.
  - exact Hblocked.
  - intros Hgate. destruct (Hopen Hgate) as [t [st1 [Hres E]]].
    exists t, st1. split; [exact Hres |].
    intros e st2 Hbody. rewrite E.
    apply (method_call_on_raise rt msg tp idv jid Hid Henc _ _ cid st1 st2 e
             Hbody).
Qed.

Lemma method_calls_never_raise_witness :
  fst (_process faulty (VDict msg_size) 0 VNone faulty_manager_tv) = Ok tt.
Proof.
  exact (proj1 (method_calls_never_raise faulty faulty_manager_tv msg_size 0
                  VNone (VStr "t") (VInt 10) (JInt 10) "table_method"
                  eq_refl (or_introl eq_refl) eq_refl eq_refl eq_refl eq_refl)).
Defined.

(** X11: the deletion of a table, when the manager is not locked, calls
    nothing: no branch of the method call assigns a result for the method
    [delete] on a table, and the request is answered by the text the
    interpreter gives the [UnboundLocalError] of reading the local
    [result]; the table stays registered and the engine is not asked
    anything. *)
Theorem table_delete_unlocked (rt : Runtime) (st : manager rt) (msg : dict)
    (tp : transport) (cid name idv : pyval) (jid : json) :
  dict_get msg "cmd" = Some (VStr "table_method") ->
  dict_get msg "method" = Some (VStr "delete") ->
  is_True (dict_get_default msg "subscribe" (VBool false)) = false ->
  _lock st = false ->
  dict_get msg "name" = Some name -> hashable name = true ->
  dict_get msg "id" = Some idv -> encodes rt idv jid ->
  _process rt (VDict msg) tp cid st
  = (Ok tt,
     add_event
       (EvPost tp (error_response jid (py_unbound_local rt "result"))) st).
Proof.
  intros Hc Hm Hsub Hl Hn Hh Hid Henc.
  rewrite (process_method_call rt msg tp idv jid Hid Henc "table_method" _ cid
             st st Hc (or_introl eq_refl)
             (f_equal (fun l => _is_locked_command l msg) Hl)
             (resolve_table rt msg tp name st Hn Hh)).
  apply (method_call_on_raise rt msg tp idv jid Hid Henc _ _ cid st st
           (Exn UnboundLocalError (py_unbound_local rt "result"))).
  unfold method_call_body. rewrite Hsub.
  unfold invocation, getitem. rewrite Hm. reflexivity.
Qed.

Lemma table_delete_unlocked_witness :
  _process toy (VDict msg_table_delete) 0 VNone (toy_manager_tv false)
  = (Ok tt,
     add_event
       (EvPost 0 (error_response (JInt 5)
          "local variable 'result' referenced before assignment"))
       (toy_manager_tv false)).
Proof.
  exact (table_delete_unlocked toy (toy_manager_tv false) msg_table_delete 0
           VNone (VStr "t") (VInt 5) (JInt 5)
           eq_refl eq_refl eq_refl eq_refl eq_refl eq_refl eq_refl eq_refl).
Defined.

(** X12: two malformed calls are answered without the engine being asked.
    An [update] or [remove] whose [args] are empty or absent is answered
    by the text of the [IndexError] of taking the first argument; a call
    that is no subscription and has no [method] is answered by the text of
    the [KeyError], the quoted key. *)
Theorem malformed_calls (rt : Runtime) (st st1 : manager rt) (msg : dict)
    (tp : transport) (cid idv : pyval) (jid : json) (c : string) (t : target) :
  dict_get msg "cmd" = Some (VStr c) ->
  c = "table_method" \/ c = "view_method" ->
  _is_locked_command (_lock st) msg = Ok false ->
  resolve rt msg (VStr c) tp st = (Ok t, st1) ->
  is_True (dict_get_default msg "subscribe" (VBool false)) = false ->
  dict_get msg "id" = Some idv -> encodes rt idv jid ->
  (forall m, dict_get msg "method" = Some (VStr m) ->
     m = "update" \/ m = "remove" ->
     dict_get_default msg "args" (VList []) = VList [] ->
     _process rt (VDict msg) tp cid st
     = (Ok tt,
        add_event (EvPost tp (error_response jid "list index out of range")) st1))
  /\ (dict_get msg "method" = None ->
      _process rt (VDict msg) tp cid st
      = (Ok tt, add_event (EvPost tp (error_response jid "'method'")) st1)).
Proof.
  intros Hc Hcc Hgate Hres Hsub Hid Henc.
  rewrite (process_method_call rt msg tp idv jid Hid Henc c t cid st st1
             Hc Hcc Hgate Hres).
  split.
  - intros m Hm Hor Ha.
    apply (method_call_on_raise rt msg tp idv jid Hid Henc
             (VStr c) t cid st1 st1 (index_error "list")).
    unfold method_call_body. rewrite Hsub.
    unfold invocation, getitem. rewrite Hm.
    unfold assemble_args, call_method.
    destruct Hor; subst m;
      repeat (progress (unfold bind, lift, ret; cbn -[py_index])); rewrite Ha;
      reflexivity.
  - intros Hm.
    apply (method_call_on_raise rt msg tp idv jid Hid Henc
             (VStr c) t cid st1 st1 (Exn KeyError "'method'")).
    unfold method_call_body. rewrite Hsub.
    unfold invocation, getitem. rewrite Hm. reflexivity.
Qed.

Lemma malformed_calls_witness :
  _process toy (VDict msg_update_nothing) 0 VNone (toy_manager_tv false)
  = (Ok tt,
     add_event (EvPost 0 (error_response (JInt 6) "list index out of range"))
       (toy_manager_tv false))
  /\ _process toy (VDict msg_no_method) 0 VNone (toy_manager_tv false)
     = (Ok tt,
        add_event (EvPost 0 (error_response (JInt 7) "'method'"))
          (toy_manager_tv false)).
Proof.
  split.
  - exact (proj1 (malformed_calls toy (toy_manager_tv false)
                    (toy_manager_tv false) msg_update_nothing 0 VNone (VInt 6)
                    (JInt 6) "table_method" (OnTable 0)
                    eq_refl (or_introl eq_refl) eq_refl eq_refl eq_refl eq_refl
                    eq_refl)
             "update" eq_refl (or_introl eq_refl) eq_refl).
  - exact (proj2 (malformed_calls toy (toy_manager_tv false)
                    (toy_manager_tv false) msg_no_method 0 VNone (VInt 7)
                    (JInt 7) "table_method" (OnTable 0)
                    eq_refl (or_introl eq_refl) eq_refl eq_refl eq_refl eq_refl
                    eq_refl)
             eq_refl).
Defined.

(** *** The arguments of the call *)

Lemma dict_get_absent (d : dict) (k : string) :
  ~ In k (map fst d) -> dict_get d k = None.
Proof.
  induction d as [| [k0 v0] r IH]; simpl; intros H; [reflexivity |].
  destruct (String.eqb_spec k0 k) as [E | E].
  - contradiction H. left. exact E.
  - apply IH. intros Hin. apply H. right. exact Hin.
Qed.

(** [d.update(e)]: the keys of [e] take the values of [e], the others keep
    theirs. *)
Lemma dict_get_update (e d : dict) (k : string) :
  NoDup (map fst e) ->
  dict_get (dict_update d e) k
  = match dict_get e k with Some v => Some v | None => dict_get d k end.
Proof.
  unfold dict_update. revert d.
  induction e as [| [k1 v1] r IH]; intros d Hnd; [reflexivity |].
  inversion Hnd as [| x l Hnot Hr]; subst. simpl. rewrite (IH _ Hr).
  destruct (String.eqb_spec k1 k) as [E | E].
  - subst k1. rewrite (dict_get_absent r k Hnot). apply dict_get_set_same.
  - rewrite (dict_get_set_other d k k1 v1 E). reflexivity.
Qed.

Lemma merge_options_dicts (rt : Runtime) (ds : list dict) (a : dict) :
  merge_options rt a (map VDict ds) = Ok (fold_left dict_update ds a).
Proof.
  revert a. induction ds as [| d r IH]; intros a; simpl; [reflexivity | apply IH].
Qed.

Lemma merged_get (ds : list dict) (a : dict) (k : string) :
  Forall (fun d => NoDup (map fst d)) ds ->
  dict_get (fold_left dict_update ds a) k
  = match merged_lookup ds k with Some v => Some v | None => dict_get a k end.
Proof.
  intros H. revert a. induction H as [| d r Hd _ IH]; intros a; [reflexivity |].
  simpl. rewrite IH. destruct (merged_lookup r k); [reflexivity |].
  apply dict_get_update. exact Hd.
Qed.

Lemma prefix_to_plain (m : string) :
  prefix "to_" m = true ->
  str_in m ["schema"; "computed_schema"; "get_computation_input_types"] = false.
Proof.
  intros H. apply prefix_correct in H.
  destruct m as [| a [| b [| c r]]]; simpl in H; try discriminate H.
  inversion H. reflexivity.
Qed.

(** What follows the call of a method: its trace extends the trace. *)
Lemma deliver_trace (rt : Runtime) (msg : dict) (tp : transport) (t : target)
    (m : string) (pos : list pyval) (kw : dict) (st : manager rt) :
  exists evs,
    trace (snd (try_except
                  (result <- with_world rt (invoke rt t m pos kw) ;;
                   deliver_result rt msg m result tp)
                  is_Exception
                  (fun error => respond_error rt msg tp (exn_text error)) st))
    = (trace st ++ evs)%list.
Proof.
  apply (progress_trace rt deletes_views_only true).
  apply preserves_try.
  - apply preserves_bind; [pres | intros result].
    apply preserves_deliver_result.
  - intros e. apply preserves_respond_error.
Qed.

(** X13: a call of a method whose name begins with [to_] passes no
    positional argument: the dicts in [args] are merged into one set of
    keyword options, and where two of them bind the same option the later
    one decides. *)
Theorem to_format_options (rt : Runtime) (st : manager rt) (msg : dict)
    (tp : transport) (cid cmd : pyval) (t : target) (m : string)
    (ds : list dict) :
  dict_get msg "cmd" = Some cmd ->
  resolve rt msg cmd tp st = (Ok t, st) ->
  t <> OnNone ->
  py_getattr rt t m (world st) = Ok tt ->
  is_True (dict_get_default msg "subscribe" (VBool false)) = false ->
  dict_get msg "method" = Some (VStr m) ->
  prefix "to_" m = true ->
  dict_get msg "args" = Some (VList (map VDict ds)) ->
  Forall (fun d => NoDup (map fst d)) ds ->
  exists kw evs,
    trace (snd (_process_method_call rt msg tp cid st))
    = (trace st ++ EvCall t m [] kw :: evs)%list
    /\ forall k, dict_get kw k = merged_lookup ds k.
Proof.
  intros Hc Hres Ht Hattr Hsub Hm Hto Hargs Hnd.
  exists (fold_left dict_update ds []).
  pose (k := try_except
          (result <- with_world rt
                       (invoke rt t m [] (fold_left dict_update ds [])) ;;
           deliver_result rt msg m result tp)
          is_Exception
          (fun error => respond_error rt msg tp (exn_text error))).
  assert (E : _process_method_call rt msg tp cid st
              = k (add_event (EvCall t m [] (fold_left dict_update ds [])) st)).
  { unfold _process_method_call.
    rewrite (bind_ok rt _ _ _ cmd st)
      by (unfold lift, getitem; rewrite Hc; reflexivity).
    rewrite (bind_ok rt _ _ _ t st Hres).
    pose proof (getattr_ok rt t m st Ht Hattr) as Hg.
    unfold method_call_on, method_call_body, k. rewrite Hsub.
    unfold invocation, getitem. rewrite Hm.
    repeat (progress (unfold try_except, bind, lift, ret;
                      cbn beta iota delta [method_name])).
    assert (Hd : String.eqb m "delete" = false).
    { apply String.eqb_neq. apply prefix_to_not_delete. exact Hto. }
    unfold assemble_args, call_method, call, dict_get_default.
    rewrite Hargs, (prefix_to_plain m Hto), Hto, Hd.
    repeat (progress (unfold try_except, bind, lift, ret, emit;
                      cbn -[getattr with_world deliver_result respond_error
                            merge_options]));
      rewrite merge_options_dicts; cbn beta iota;
      rewrite Hg; unfold add_event; cbn [py_kwargs in_call]; cbn beta iota.
    match goal with
    | |- context [with_world ?r ?f ?s] =>
        destruct (with_world r f s) as [[? | ?] ?]
    end; reflexivity. }
  rewrite E.
  destruct (deliver_trace rt msg tp t m [] (fold_left dict_update ds [])
              (add_event (EvCall t m [] (fold_left dict_update ds [])) st))
    as [evs Hevs].
  exists evs. split.
  - fold k in Hevs. rewrite Hevs. simpl. rewrite <- app_assoc. reflexivity.
  - intros key. rewrite (merged_get ds [] key Hnd).
    destruct (merged_lookup ds key); reflexivity.
Qed.

Lemma to_format_options_witness :
  exists kw evs,
    trace (snd (_process_method_call toy msg_to_csv_options 0 VNone
                  (toy_manager_tv false)))
    = ([] ++ EvCall (OnView 1) "to_csv" [] kw :: evs)%list
    /\ forall k,
         dict_get kw k
         = merged_lookup [[("start_row", VInt 0); ("end_row", VInt 5)];
                          [("end_row", VInt 9)]] k.
Proof.
  apply (to_format_options toy (toy_manager_tv false) msg_to_csv_options 0 VNone
           (VStr "view_method") (OnView 1) "to_csv"
           [[("start_row", VInt 0); ("end_row", VInt 5)]; [("end_row", VInt 9)]]).
  - reflexivity.
  - reflexivity.
  - discriminate.
  - reflexivity.
  - reflexivity.
  - reflexivity.
  - reflexivity.
  - reflexivity.
  - repeat constructor; simpl; intuition discriminate.
Defined.

(** *** The deletion of a view, and the plain call *)

(** X14: the deletion of a registered view is never held back by the lock.
    The engine is asked to delete the view; when it has, the name is
    removed from the registry and nothing is sent, not even a success
    response; when the engine raises, the view stays registered and the
    text of the exception is sent as an error.  In a registry whose names
    are distinct, the name resolves to nothing afterwards. *)
Theorem view_deletion (rt : Runtime) (st : manager rt) (msg : dict)
    (tp : transport) (cid name idv : pyval) (v : ventry) (jid : json) :
  dict_get msg "cmd" = Some (VStr "view_method") ->
  dict_get msg "method" = Some (VStr "delete") ->
  is_True (dict_get_default msg "subscribe" (VBool false)) = false ->
  dict_get msg "name" = Some name -> hashable name = true ->
  reg_get (_views st) name = Some v ->
  py_getattr rt (OnView (v_handle v)) "delete" (world st) = Ok tt ->
  dict_get msg "id" = Some idv -> encodes rt idv jid ->
  let st1 := add_event (EvCall (OnView (v_handle v)) "delete" [] []) st in
  _process rt (VDict msg) tp cid st
  = match invoke rt (OnView (v_handle v)) "delete" [] [] (world st) with
    | (Ok _, w) =>
        (Ok tt, set_views rt (reg_pop (_views st) name) (set_world rt w st1))
    | (Raise e, w) =>
        (Ok tt, add_event (EvPost tp (error_response jid (exn_text e)))
                  (set_world rt w st1))
    end
  /\ (forall n, name = VStr n -> NoDup (map fst (_views st)) ->
      reg_get (reg_pop (_views st) name) name = None).
Proof.
  intros Hc Hm Hsub Hn Hh Hv Hattr Hid Henc st1.
  split; [| intros n E Hnd; subst name; apply reg_get_pop_same; exact Hnd].
  assert (Hgate : _is_locked_command (_lock st) msg = Ok false).
  { destruct (_lock st); [| reflexivity].
    rewrite (gate_locked msg _ Hc). unfold dict_get_default. rewrite Hm.
    reflexivity. }
  rewrite (process_method_call rt msg tp idv jid Hid Henc "view_method" _ cid
             st st Hc (or_intror eq_refl) Hgate
             (resolve_view rt msg tp name v st Hn Hh Hv)).
  assert (Hg : getattr rt (OnView (v_handle v)) "delete" st = (Ok tt, st)).
  { apply getattr_ok; [discriminate | exact Hattr]. }
  assert (E : method_call_body rt msg (VStr "view_method") (OnView (v_handle v))
                tp cid st
              = match invoke rt (OnView (v_handle v)) "delete" [] [] (world st) with
                | (Ok _, w) =>
                    (Ok tt, set_views rt (reg_pop (_views st) name)
                              (set_world rt w st1))
                | (Raise e, w) => (Raise e, set_world rt w st1)
                end).
  { unfold method_call_body. rewrite Hsub.
    unfold invocation, getitem. rewrite Hm.
    repeat (progress (unfold try_except, bind, lift, ret;
                      cbn beta iota delta [method_name])).
    unfold assemble_args, call_method.
    cbn [str_in existsb String.eqb Ascii.eqb Bool.eqb orb andb eq_str].
    change (prefix "to_" "delete") with false. cbn beta iota.
    repeat (progress (unfold bind, lift, ret, getitem; cbn beta iota)).
    rewrite Hn. cbn beta iota.
    unfold views_getitem, views_get, check_hashable.
    repeat (progress (unfold bind, lift, ret; cbn beta iota)).
    rewrite Hh. cbn beta iota. rewrite Hv. cbn beta iota.
    rewrite Hg. cbn beta iota.
    unfold call, emit, with_world, views_pop, check_hashable.
    repeat (progress (unfold bind, lift, ret; cbn beta iota)).
    cbn [world].
    destruct (invoke rt (OnView (v_handle v)) "delete" [] [] (world st))
      as [[r | e] w]; cbn beta iota; [| reflexivity].
    rewrite Hh. reflexivity. }
  destruct (invoke rt (OnView (v_handle v)) "delete" [] [] (world st))
    as [[r | e] w].
  - apply (method_call_on_done rt msg tp _ _ cid st _ E).
  - apply (method_call_on_raise rt msg tp idv jid Hid Henc _ _ cid st _ e E).
Qed.

Lemma view_deletion_witness :
  _process toy (VDict msg_view_delete) 0 VNone (toy_manager_tv true)
  = (Ok tt,
     @Manager toy [(VStr "t", TTable 0)] [] [] true 2
       [EvCall (OnView 1) "delete" [] []]).
Proof.
  exact (proj1 (view_deletion toy (toy_manager_tv true) msg_view_delete 0 VNone
                  (VStr "v") (VInt 9) (VEntry 1 (VStr "c1")) (JInt 9)
                  eq_refl eq_refl eq_refl eq_refl eq_refl eq_refl eq_refl
                  eq_refl eq_refl)).
Defined.

(** The body of the [try] block for a call of any other method. *)
Lemma plain_call_body (rt : Runtime) (st1 : manager rt) (msg : dict)
    (tp : transport) (cid cmd : pyval) (m : string) (t : target)
    (pos : list pyval) :
  t <> OnNone ->
  py_getattr rt t m (world st1) = Ok tt ->
  is_True (dict_get_default msg "subscribe" (VBool false)) = false ->
  dict_get msg "method" = Some (VStr m) ->
  str_in m ["schema"; "computed_schema"; "get_computation_input_types";
            "update"; "remove"; "delete"] = false ->
  prefix "to_" m = false ->
  py_star (dict_get_default msg "args" (VList [])) = Ok pos ->
  method_call_body rt msg cmd t tp cid st1
  = match invoke rt t m pos [] (world st1) with
    | (Ok r, w) =>
        deliver_result rt msg m r tp
          (set_world rt w (add_event (EvCall t m pos []) st1))
    | (Raise e, w) =>
        (Raise e, set_world rt w (add_event (EvCall t m pos []) st1))
    end.
Proof.
  intros Ht Hattr Hsub Hm Hno Hto Hpos.
  pose proof (getattr_ok rt t m st1 Ht Hattr) as Hg.
  assert (Hs : str_in m ["schema"; "computed_schema";
                         "get_computation_input_types"] = false
               /\ str_in m ["update"; "remove"] = false
               /\ str_in m ["computed_schema"; "get_computation_input_types"]
                  = false
               /\ String.eqb m "delete" = false).
  { unfold str_in in *. simpl in Hno. simpl.
    repeat (apply orb_false_iff in Hno; destruct Hno as [? Hno]).
    repeat match goal with H : String.eqb m _ = false |- _ => rewrite H end.
    repeat split; reflexivity. }
  destruct Hs as [Hs1 [Hs2 [Hs3 Hd]]].
  unfold method_call_body. rewrite Hsub.
  unfold invocation, getitem. rewrite Hm.
  repeat (progress (unfold try_except, bind, lift, ret;
                    cbn beta iota delta [method_name])).
  unfold assemble_args, call_method.
  rewrite Hs1, Hs2, Hs3, Hd, Hto. cbn [orb andb negb]. cbn beta iota.
  repeat (progress (unfold bind, lift, ret; cbn beta iota)).
  rewrite Hg. cbn beta iota. rewrite Hpos. cbn [in_call]. cbn beta iota.
  unfold call, emit, with_world.
  repeat (progress (unfold bind, lift, ret; cbn beta iota)).
  cbn [world].
  destruct (invoke rt t m pos [] (world st1)) as [[r | e] w]; reflexivity.
Qed.

(** X15: a call of any other method (not one of the schema methods, not
    [update], [remove] or [delete], no [to_] method) on a resolved handle
    that has it: the elements of [args] are the positional arguments and
    there is no keyword; a result that encodes is sent as {id, data}, an
    exception of the engine as {id, error} with its text. *)
Theorem plain_call (rt : Runtime) (st st1 : manager rt) (msg : dict)
    (tp : transport) (cid idv : pyval) (jid : json) (c m : string)
    (t : target) (pos : list pyval) :
  dict_get msg "cmd" = Some (VStr c) ->
  c = "table_method" \/ c = "view_method" ->
  _is_locked_command (_lock st) msg = Ok false ->
  resolve rt msg (VStr c) tp st = (Ok t, st1) ->
  t <> OnNone ->
  py_getattr rt t m (world st1) = Ok tt ->
  is_True (dict_get_default msg "subscribe" (VBool false)) = false ->
  dict_get msg "method" = Some (VStr m) ->
  str_in m ["schema"; "computed_schema"; "get_computation_input_types";
            "update"; "remove"; "delete"] = false ->
  prefix "to_" m = false ->
  py_star (dict_get_default msg "args" (VList [])) = Ok pos ->
  dict_get msg "id" = Some idv -> encodes rt idv jid ->
  let st2 := add_event (EvCall t m pos []) st1 in
  match invoke rt t m pos [] (world st1) with
  | (Ok r, w) =>
      forall jr, json_dumps (to_timestamp rt) false true r = Ok jr ->
        _process rt (VDict msg) tp cid st
        = (Ok tt, add_event (EvPost tp (data_response jid jr))
                    (set_world rt w st2))
  | (Raise e, w) =>
      _process rt (VDict msg) tp cid st
      = (Ok tt, add_event (EvPost tp (error_response jid (exn_text e)))
                  (set_world rt w st2))
  end.
Proof.
  intros Hc Hcc Hgate Hres Ht Hattr Hsub Hm Hno Hto Hpos Hid Henc st2.
  rewrite (process_method_call rt msg tp idv jid Hid Henc c t cid st st1
             Hc Hcc Hgate Hres).
  pose proof (plain_call_body rt st1 msg tp cid (VStr c) m t pos Ht Hattr Hsub
                Hm Hno Hto Hpos) as E.
  fold st2 in E.
  destruct (invoke rt t m pos [] (world st1)) as [[r | e] w].
  - intros jr Hr.
    apply (method_call_on_done rt msg tp _ _ cid st1 _). rewrite E.
    assert (Ed : deliver_result rt msg m r tp (set_world rt w st2)
                 = respond_data rt msg tp r (set_world rt w st2)).
    { unfold deliver_result. destruct r; try reflexivity. discriminate Hr. }
    rewrite Ed. apply (respond_data_run rt msg tp idv jid Hid Henc r jr _ Hr).
  - apply (method_call_on_raise rt msg tp idv jid Hid Henc _ _ cid st1 _ e E).
Qed.

Lemma plain_call_witness :
  _process faulty (VDict msg_size) 0 VNone faulty_manager_tv
  = (Ok tt,
     @Manager faulty [(VStr "t", TTable 0)] [(VStr "v", VEntry 1 (VStr "c1"))]
       [] false 2
       [EvCall (OnTable 0) "size" [] [];
        EvPost 0 (error_response (JInt 10) "engine failure")]).
Proof.
  exact (plain_call faulty faulty_manager_tv faulty_manager_tv msg_size 0 VNone
           (VInt 10) (JInt 10) "table_method" "size" (OnTable 0) []
           eq_refl (or_introl eq_refl) eq_refl eq_refl ltac:(discriminate)
           eq_refl eq_refl eq_refl eq_refl eq_refl eq_refl eq_refl eq_refl).
Defined.

(** ** Subscriptions and the callback they install *)

(** X16: a subscription to an [on] method of a resolved handle, with no
    callback id to record, hands the engine the wrapped callback as the one
    positional argument: [on_update] with the first element of [args] as
    keywords, or [mode="none"] when [args] is empty or absent, any other
    [on] method without keywords.  When the engine accepts, nothing is
    sent; when it raises, the text is sent as an error. *)
Theorem subscription_call (rt : Runtime) (st : manager rt) (msg : dict)
    (t : target) (tp : transport) (cid idv : pyval) (jid : json) (m : string)
    (kw : dict) :
  dict_get msg "method" = Some (VStr m) -> prefix "on" m = true ->
  truthy (dict_get_default msg "callback_id" VNone) = false ->
  t <> OnNone -> py_getattr rt t m (world st) = Ok tt ->
  (m <> "on_update" /\ kw = [])
  \/ (m = "on_update" /\ dict_get_default msg "args" (VList []) = VList []
      /\ kw = [("mode", VStr "none")])
  \/ (m = "on_update" /\
      exists rest, dict_get_default msg "args" (VList []) = VList (VDict kw :: rest)) ->
  dict_get msg "id" = Some idv -> encodes rt idv jid ->
  let st1 := add_event (EvSubscribe t m (Callback msg tp) kw) st in
  _process_subscribe rt msg t tp cid st
  = match subscribe rt t m (Callback msg tp) kw (world st) with
    | (Ok _, w) => (Ok tt, set_world rt w st1)
    | (Raise e, w) =>
        (Ok tt, add_event (EvPost tp (error_response jid (exn_text e)))
                  (set_world rt w st1))
    end.
Proof.
  intros Hm Hon Hcb Ht Hattr Hkw Hid Henc st1.
  destruct (prefix_on m Hon) as [rest Hr].
  assert (Hom : on_method (VStr m) = Ok (Some m)).
  { unfold on_method. rewrite Hon. subst m. reflexivity. }
  pose proof (getattr_ok rt t m st Ht Hattr) as Hg.
  assert (F : _process_subscribe rt msg t tp cid st
              = try_except
                  (getattr rt t m ;;
                   call_on rt t m (Callback msg tp) kw ;; ret tt)
                  is_Exception
                  (fun error => respond_error rt msg tp (exn_text error)) st).
  { unfold _process_subscribe.
    replace (dict_get_default msg "method" VNone) with (VStr m)
      by (unfold dict_get_default; rewrite Hm; reflexivity).
    rewrite Hom, Hcb.
    destruct Hkw as [[Hne Hk] | [[He [Ha Hk]] | [He [r1 Ha]]]].
    - apply String.eqb_neq in Hne. subst kw.
      unfold try_except, bind, lift, ret. cbn beta iota.
      rewrite Hne. reflexivity.
    - subst m kw. rewrite Ha. reflexivity.
    - subst m. rewrite Ha. reflexivity. }
  rewrite F. unfold try_except, bind at 1. rewrite Hg. cbn beta iota.
  unfold call_on, emit, with_world, bind, ret. cbn beta iota. cbn [world].
  destruct (subscribe rt t m (Callback msg tp) kw (world st)) as [[r | e] w];
    cbn beta iota; [reflexivity |].
  apply (respond_error_run rt msg tp _ _ idv jid Hid Henc).
Qed.

Lemma subscription_call_witness :
  _process_subscribe toy msg_subscribe_id0 (OnView 1) 0 (VStr "c1")
    (toy_manager_tv false)
  = (Ok tt,
     add_event
       (EvSubscribe (OnView 1) "on_update" (Callback msg_subscribe_id0 0)
          [("mode", VStr "none")])
       (toy_manager_tv false)).
Proof.
  apply (subscription_call toy (toy_manager_tv false) msg_subscribe_id0
           (OnView 1) 0 (VStr "c1") (VInt 1) (JInt 1) "on_update"
           [("mode", VStr "none")]); try reflexivity.
  - discriminate.
  - right. left. repeat split; reflexivity.
Defined.



(** X18: the callback a subscription installs, when the engine fires it:
    with one argument, or a second that is no bytes, one text frame
    {id, data: {port_id}} with the id of the subscribing message goes to
    the transport that message came on; with bytes as second argument the
    same message marked transferable goes out, followed by the bytes as a
    binary frame; fired without argument it raises the [IndexError] of
    the empty tuple into the engine and sends nothing. *)
Theorem fired_callback (rt : Runtime) (st : manager rt) (cb : callback)
    (idv : pyval) (jid : json) :
  dict_get (cb_msg cb) "id" = Some idv -> encodes rt idv jid ->
  fire_callback rt cb [] st = (Raise (index_error "tuple"), st)
  /\ (forall port rest jp,
        json_dumps (to_timestamp rt) false true port = Ok jp ->
        match rest with VBytes _ :: _ => False | _ => True end ->
        fire_callback rt cb (port :: rest) st
        = (Ok tt,
           add_event
             (EvPost (cb_post cb)
                (data_response jid (JObj [("port_id", jp)]))) st))
  /\ (forall port b rest jp,
        json_dumps (to_timestamp rt) true true port = Ok jp ->
        fire_callback rt cb (port :: VBytes b :: rest) st
        = (Ok tt,
           add_event (EvPost (cb_post cb) (Binary b))
             (add_event
                (EvPost (cb_post cb)
                   (Text (JObj [("id", jid);
                                ("data", JObj [("port_id", jp)]);
                                ("is_transferable", JBool true)]))) st))).
Proof.
  intros Hid Henc. split; [| split].
  - unfold fire_callback, bind, lift, getitem. rewrite Hid. reflexivity.
  - intros port rest jp Hp Hrest.
    unfold fire_callback, getitem. rewrite Hid.
    unfold bind at 1 2, lift. cbn [nth_error]. cbn beta iota.
    assert (E : respond rt (_make_message idv (VDict [("port_id", port)]))
                  (cb_post cb) (_make_message idv (VDict [("port_id", port)])) st
                = (Ok tt,
                   add_event
                     (EvPost (cb_post cb)
                        (data_response jid (JObj [("port_id", jp)]))) st)).
    { unfold respond, _message_to_json, dumps, try_except, bind, lift, getitem.
      cbn [dict_get _make_message String.eqb Ascii.eqb Bool.eqb].
      cbn [json_dumps _make_message obind].
      rewrite (encodes_any _ _ _ false true Henc), Hp. reflexivity. }
    destruct rest as [| [] rest']; try exact E. contradiction Hrest.
  - intros port b rest jp Hp.
    unfold fire_callback, getitem. rewrite Hid.
    unfold bind at 1 2, lift. cbn [nth_error]. cbn beta iota.
    unfold _process_bytes, dumps, bind, lift, post, emit.
    cbn [dict_set _make_message String.eqb Ascii.eqb Bool.eqb].
    cbn [json_dumps _make_message obind].
    rewrite (encodes_any _ _ _ true true Henc), Hp. reflexivity.
Qed.

Lemma fired_callback_witness :
  fire_callback toy (Callback msg_subscribe_id7 3) [VStr "p"; VBytes "ARROW1"]
    (toy_manager_tv false)
  = (Ok tt,
     add_event (EvPost 3 (Binary "ARROW1"))
       (add_event
          (EvPost 3
             (Text (JObj [("id", JInt 1);
                          ("data", JObj [("port_id", JStr "p")]);
                          ("is_transferable", JBool true)])))
          (toy_manager_tv false))).
Proof.
  exact (proj2 (proj2 (fired_callback toy (toy_manager_tv false)
                         (Callback msg_subscribe_id7 3) (VInt 1) (JInt 1)
                         eq_refl eq_refl))
           (VStr "p") "ARROW1" [] (JStr "p") eq_refl).
Defined.

(** ** Garbage collection *)

Section RegistryOfStrings.

Context {V : Type}.

Lemma reg_get_app (pre l : list (pyval * V)) (a : string) :
  ~ In (VStr a) (map fst pre) ->
  reg_get (pre ++ l) (VStr a) = reg_get l (VStr a).
Proof.
  induction pre as [| [k v] r IH]; simpl; intros H; [reflexivity |].
  destruct (py_eq k (VStr a)) eqn:E.
  - apply py_eq_str_r in E. contradiction H. left. exact E.
  - apply IH. intros Hin. apply H. right. exact Hin.
Qed.

Lemma reg_pop_app (pre l : list (pyval * V)) (a : string) :
  ~ In (VStr a) (map fst pre) ->
  reg_pop (pre ++ l) (VStr a) = (pre ++ reg_pop l (VStr a))%list.
Proof.
  induction pre as [| [k v] r IH]; simpl; intros H; [reflexivity |].
  destruct (py_eq k (VStr a)) eqn:E.
  - apply py_eq_str_r in E. contradiction H. left. exact E.
  - rewrite IH; [reflexivity |]. intros Hin. apply H. right. exact Hin.
Qed.

End RegistryOfStrings.

Section Collection.

Variable rt : Runtime.
Variable client_id : pyval.

Lemma set_views_same (st : manager rt) : set_views rt (_views st) st = st.
Proof. destruct st. reflexivity. Qed.

(** The second loop, on the names the first loop noted: the entries the
    client owns go, the others stay in their order. *)
Lemma pop_run (p : pyval * ventry -> bool) (r pre : list (pyval * ventry))
    (st : manager rt) :
  _views st = (pre ++ r)%list ->
  NoDup (map fst (pre ++ r)) ->
  Forall (fun kv => is_str (fst kv) = true) r ->
  pop_views rt (map fst (filter p r)) st
  = (Ok tt, set_views rt (pre ++ filter (fun kv => negb (p kv)) r) st).
Proof.
  revert pre st. induction r as [| [k v] r IH]; intros pre st Hv Hnd Hs.
  - simpl. rewrite <- Hv. rewrite set_views_same. reflexivity.
  - inversion Hs as [| x l Hk Hr]; subst. simpl in Hk.
    destruct k; try discriminate Hk. rename s into a.
    assert (Hnot : ~ In (VStr a) (map fst pre)).
    { intros Hin. rewrite map_app in Hnd. simpl in Hnd.
      apply NoDup_remove_2 in Hnd. apply Hnd. apply in_or_app. left. exact Hin. }
    simpl. destruct (p (VStr a, v)) eqn:Ep; simpl.
    + unfold views_pop_strict, views_getitem, views_get, views_pop,
        check_hashable.
      repeat (progress (unfold bind, ret; cbn beta iota)). cbn [hashable].
      cbn beta iota. rewrite Hv, (reg_get_app pre _ a Hnot). cbn [reg_get].
      rewrite py_eq_str_refl. cbn beta iota. cbn [hashable]. cbn beta iota.
      cbn [_views set_views].
      rewrite ?Hv, (reg_pop_app pre _ a Hnot). cbn [reg_pop].
      rewrite py_eq_str_refl.
      rewrite (IH pre (set_views rt (pre ++ r) st)); [reflexivity | reflexivity | | exact Hr].
      rewrite map_app in *. simpl in Hnd. apply NoDup_remove_1 in Hnd. exact Hnd.
    + rewrite (IH (pre ++ [(VStr a, v)])%list st).
      * rewrite <- app_assoc. reflexivity.
      * rewrite <- app_assoc. exact Hv.
      * rewrite <- app_assoc. exact Hnd.
      * exact Hr.
Qed.

(** The first loop: nothing but the engine changes; the engine is asked to
    delete the views the client owns, in the order of the registry, up to
    the first failure; when there is none, all of their names are noted. *)
Lemma sweep_run (items : list (pyval * ventry)) (names : list pyval)
    (st : manager rt) :
  _tables (snd (sweep_views rt client_id items names st)) = _tables st
  /\ _views (snd (sweep_views rt client_id items names st)) = _views st
  /\ (exists n,
        trace (snd (sweep_views rt client_id items names st))
        = (trace st
             ++ firstn n (map delete_call (filter (owned_by client_id) items)))%list)
  /\ (forall ns, fst (sweep_views rt client_id items names st) = Ok ns ->
      ns = (names ++ map fst (filter (owned_by client_id) items))%list
      /\ trace (snd (sweep_views rt client_id items names st))
         = (trace st ++ map delete_call (filter (owned_by client_id) items))%list).
Proof.
  revert names st. induction items as [| [name view] items IH]; intros names st.
  - simpl. repeat split; try reflexivity.
    + exists O. rewrite app_nil_r. reflexivity.
    + inversion H. rewrite app_nil_r. reflexivity.
    + rewrite app_nil_r. reflexivity.
  - cbn [filter].
    change (owned_by client_id (name, view))
      with (py_eq (v_client_id view) client_id).
    destruct (py_eq (v_client_id view) client_id) eqn:Eo;
      [| cbn [sweep_views]; rewrite Eo; apply IH].
    assert (Er : sweep_views rt client_id ((name, view) :: items) names st
                 = match py_getattr rt (OnView (v_handle view)) "delete" (world st) with
                   | Ok _ =>
                       match invoke rt (OnView (v_handle view)) "delete" [] []
                               (world st) with
                       | (Ok _, w) =>
                           sweep_views rt client_id items (names ++ [name])
                             (set_world rt w (add_event (delete_call (name, view)) st))
                       | (Raise e, w) =>
                           (Raise e,
                            set_world rt w (add_event (delete_call (name, view)) st))
                       end
                   | Raise e => (Raise e, st)
                   end).
    { cbn [sweep_views]. rewrite Eo.
      unfold bind, call, emit, with_world, getattr. cbn [world].
      destruct (py_getattr rt (OnView (v_handle view)) "delete" (world st));
        [| reflexivity].
      unfold bind. cbn [world].
      destruct (invoke rt (OnView (v_handle view)) "delete" [] [] (world st))
        as [[res | e] w]; reflexivity. }
    rewrite Er. clear Er.
    destruct (py_getattr rt (OnView (v_handle view)) "delete" (world st)).
    + destruct (invoke rt (OnView (v_handle view)) "delete" [] [] (world st))
        as [[res | e] w].
      * specialize (IH (names ++ [name])%list
                      (set_world rt w (add_event (delete_call (name, view)) st))).
        destruct IH as [Ht [Hv [[n Hn] Hok]]].
        rewrite Ht, Hv. repeat split; try reflexivity.
        -- exists (S n). rewrite Hn. simpl. rewrite <- app_assoc. reflexivity.
        -- destruct (Hok ns H) as [E _]. rewrite E, <- app_assoc. reflexivity.
        -- destruct (Hok ns H) as [_ E]. rewrite E. simpl.
           rewrite <- app_assoc. reflexivity.
      * repeat split; try reflexivity.
        -- exists 1%nat. reflexivity.
        -- discriminate H.
        -- discriminate H.
    + repeat split; try reflexivity.
      * exists O. rewrite app_nil_r. reflexivity.
      * discriminate H.
      * discriminate H.
Qed.

(** When the engine deletes without failure, the first loop ends. *)
Lemma sweep_total (items : list (pyval * ventry)) (names : list pyval)
    (st : manager rt) :
  (forall h w, py_getattr rt (OnView h) "delete" w = Ok tt) ->
  (forall h w, exists r, fst (invoke rt (OnView h) "delete" [] [] w) = Ok r) ->
  exists ns, fst (sweep_views rt client_id items names st) = Ok ns.
Proof.
  intros Hattr Hinv. revert names st.
  induction items as [| [name view] items IH]; intros names st.
  - exists names. reflexivity.
  - simpl. destruct (py_eq (v_client_id view) client_id); [| apply IH].
    unfold bind at 1, getattr. rewrite Hattr. cbn beta iota.
    unfold bind at 1, call, emit, with_world. unfold bind at 1. cbn beta iota.
    cbn [world].
    destruct (Hinv (v_handle view) (world st)) as [res Hres].
    destruct (invoke rt (OnView (v_handle view)) "delete" [] [] (world st))
      as [[res' | e] w]; [| discriminate Hres].
    cbn beta iota. apply IH.
Qed.

End Collection.

(** X19: garbage collection is all or nothing on the registry.  For a
    client id that is true in the sense of Python and views registered
    under distinct text names, [clear_views] either ends, and the views
    left are those of the other clients in their order, or it raises, and
    then every view is registered as before, although the engine has been
    asked to delete the client's views one after the other up to the one
    that failed. *)
Theorem clear_views_all_or_nothing (rt : Runtime) (st : manager rt)
    (client_id : pyval) :
  truthy client_id = true ->
  string_named (_views st) ->
  let st' := snd (clear_views rt client_id st) in
  let owned := filter (owned_by client_id) (_views st) in
  (fst (clear_views rt client_id st) = Ok tt
   /\ _views st' = filter (fun kv => negb (owned_by client_id kv)) (_views st))
  \/ (exists e n,
        fst (clear_views rt client_id st) = Raise e
        /\ _views st' = _views st
        /\ trace st' = (trace st ++ firstn n (map delete_call owned))%list).
Proof.
  intros Hc [Hs Hnd] st' owned.
  assert (E : clear_views rt client_id st
              = match sweep_views rt client_id (_views st) [] st with
                | (Ok ns, s1) =>
                    (pop_views rt ns ;;
                     emit rt (EvLogWarning (gc_report (length ns)))) s1
                | (Raise e, s1) => (Raise e, s1)
                end).
  { unfold clear_views. rewrite Hc. reflexivity. }
  unfold st'. rewrite E. clear E.
  destruct (sweep_run rt client_id (_views st) [] st) as [Ht [Hv [[n Hn] Hok]]].
  destruct (sweep_views rt client_id (_views st) [] st) as [[ns | e] s1];
    simpl in Ht, Hv, Hn, Hok.
  - left. destruct (Hok ns eq_refl) as [Ens _]. subst ns.
    unfold bind.
    rewrite (pop_run rt (owned_by client_id) (_views st) [] s1); try assumption.
    split; reflexivity.
  - right. exists e, n. repeat split; assumption.
Qed.

Lemma clear_views_all_or_nothing_witness :
  (fst (clear_views toy (VStr "c1") (toy_manager_tv false)) = Ok tt
   /\ _views (snd (clear_views toy (VStr "c1") (toy_manager_tv false)))
      = filter (fun kv => negb (owned_by (VStr "c1") kv))
          (_views (toy_manager_tv false)))
  \/ (exists e n,
        fst (clear_views toy (VStr "c1") (toy_manager_tv false)) = Raise e
        /\ _views (snd (clear_views toy (VStr "c1") (toy_manager_tv false)))
           = _views (toy_manager_tv false)
        /\ trace (snd (clear_views toy (VStr "c1") (toy_manager_tv false)))
           = (trace (toy_manager_tv false)
                ++ firstn n
                     (map delete_call
                        (filter (owned_by (VStr "c1"))
                           (_views (toy_manager_tv false)))))%list).
Proof.
  apply (clear_views_all_or_nothing toy (toy_manager_tv false) (VStr "c1")
           eq_refl).
  split.
  - repeat constructor.
  - repeat constructor. simpl. intuition.
Defined.

(** X20: when the engine deletes without failure, [clear_views] ends: the
    engine has been asked to delete each view of the client, once, in the
    order of the registry, and the last thing done is the warning that
    counts them. *)
Theorem clear_views_trace (rt : Runtime) (st : manager rt) (client_id : pyval) :
  truthy client_id = true ->
  string_named (_views st) ->
  (forall h w, py_getattr rt (OnView h) "delete" w = Ok tt) ->
  (forall h w, exists r, fst (invoke rt (OnView h) "delete" [] [] w) = Ok r) ->
  let owned := filter (owned_by client_id) (_views st) in
  fst (clear_views rt client_id st) = Ok tt
  /\ trace (snd (clear_views rt client_id st))
     = (trace st ++ map delete_call owned
          ++ [EvLogWarning (gc_report (length owned))])%list.
Proof.
  intros Hc [Hs Hnd] Hattr Hinv owned.
  assert (E : clear_views rt client_id st
              = match sweep_views rt client_id (_views st) [] st with
                | (Ok ns, s1) =>
                    (pop_views rt ns ;;
                     emit rt (EvLogWarning (gc_report (length ns)))) s1
                | (Raise e, s1) => (Raise e, s1)
                end).
  { unfold clear_views. rewrite Hc. reflexivity. }
  rewrite E. clear E.
  destruct (sweep_run rt client_id (_views st) [] st) as [_ [Hv [_ Hok]]].
  destruct (sweep_total rt client_id (_views st) [] st Hattr Hinv) as [ns Hns].
  destruct (sweep_views rt client_id (_views st) [] st) as [[ns' | e] s1];
    simpl in Hv, Hok, Hns; [| discriminate Hns].
  destruct (Hok ns' eq_refl) as [Ens Etr]. subst ns'.
  unfold bind.
  rewrite (pop_run rt (owned_by client_id) (_views st) [] s1); try assumption.
  split; [reflexivity |]. simpl. rewrite Etr, length_map, <- app_assoc.
  reflexivity.
Qed.

Lemma clear_views_trace_witness :
  fst (clear_views toy (VStr "c1") (toy_manager_tv false)) = Ok tt
  /\ trace (snd (clear_views toy (VStr "c1") (toy_manager_tv false)))
     = [EvCall (OnView 1) "delete" [] []; EvLogWarning "GC 1 views in memory"].
Proof.
  apply (clear_views_trace toy (toy_manager_tv false) (VStr "c1") eq_refl).
  - split; [repeat constructor | repeat constructor; simpl; intuition].
  - intros h w. reflexivity.
  - intros h w. eexists. reflexivity.
Defined.

Section Scope.

Variable rt : Runtime.

Lemma collects_refl (st : manager rt) : collects st st.
Proof.
  repeat split. exists []. rewrite app_nil_r. split; reflexivity.
Qed.

Lemma collects_trans (a b c : manager rt) :
  collects a b -> collects b c -> collects a c.
Proof.
  intros [T1 [C1 [L1 [e1 [E1 F1]]]]] [T2 [C2 [L2 [e2 [E2 F2]]]]].
  repeat split; try congruence.
  exists (e1 ++ e2)%list. split.
  - rewrite E2, E1, app_assoc. reflexivity.
  - rewrite frames_app, F1, F2. reflexivity.
Qed.

#[global] Instance collects_steps : Steps (@collects rt) :=
  {| steps_refl := collects_refl; steps_trans := collects_trans |}.

Lemma collects_emit (e : event) :
  frames [e] = [] -> invariant rt collects (emit rt e).
Proof. intros H st. repeat split. exists [e]. split; [reflexivity | exact H]. Qed.

Lemma collects_with_world {A} (f : W rt -> outcome A * W rt) :
  invariant rt collects (with_world rt f).
Proof.
  intros st. unfold with_world. destruct (f (world st)) as [o w].
  repeat split. exists []. simpl. rewrite app_nil_r. split; reflexivity.
Qed.

Lemma collects_set_views (f : manager rt -> list (pyval * ventry)) :
  invariant rt collects (fun st => (Ok tt, set_views rt (f st) st)).
Proof.
  intros st. repeat split. exists []. simpl. rewrite app_nil_r.
  split; reflexivity.
Qed.

Lemma collects_getattr (t : target) (name : string) :
  invariant rt collects (getattr rt t name).
Proof.
  unfold getattr. destruct t; try apply (@invariant_read rt _ collects_steps).
  destruct (prefix "__" name);
    [apply (@invariant_read rt _ collects_steps)
    | apply (@invariant_raise rt _ collects_steps)].
Qed.

Ltac collect :=
  repeat first
    [ apply (@invariant_ret rt _ collects_steps)
    | apply (@invariant_raise rt _ collects_steps)
    | apply (@invariant_lift rt _ collects_steps)
    | apply collects_emit; reflexivity
    | apply collects_with_world | apply collects_getattr
    | apply collects_set_views
    | apply (@invariant_read rt _ collects_steps)
    | apply (@invariant_bind rt _ collects_steps); [| intros ?]
    | match goal with
      | |- invariant _ _ (if ?b then _ else _) => destruct b eqn:?
      | |- invariant _ _ (match ?x with _ => _ end) => destruct x eqn:?
      end ].

Lemma collects_sweep (client_id : pyval) (items : list (pyval * ventry))
    (names : list pyval) :
  invariant rt collects (sweep_views rt client_id items names).
Proof.
  revert names. induction items as [| [name view] items IH]; intros names;
    cbn [sweep_views]; [collect |].
  destruct (py_eq (v_client_id view) client_id); [| apply IH].
  unfold call. collect. apply IH.
Qed.

Lemma collects_pop (names : list pyval) :
  invariant rt collects (pop_views rt names).
Proof.
  induction names as [| name names IH]; cbn [pop_views]; [collect |].
  unfold views_pop_strict, views_getitem, views_get, views_pop, check_hashable.
  collect. exact IH.
Qed.

Lemma collects_clear_views (client_id : pyval) :
  invariant rt collects (clear_views rt client_id).
Proof.
  unfold clear_views. destruct (negb (truthy client_id)); [collect |].
  apply (@invariant_bind rt _ collects_steps).
  - intros st. apply collects_sweep.
  - intros names. apply (@invariant_bind rt _ collects_steps);
      [apply collects_pop | intros _; collect].
Qed.

End Scope.

(** X21: garbage collection stays within the views: whatever the engine
    does and whether it ends or raises, [clear_views] sends no frame and
    leaves the tables, the callback registry and the lock as they are, so
    that the subscriptions of the client outlive its views; called
    with a client id that is false in the sense of Python (None, the empty
    string, 0) it raises [PerspectiveError] and does nothing. *)
Theorem clear_views_scope (rt : Runtime) (st : manager rt) (client_id : pyval) :
  collects st (snd (clear_views rt client_id st))
  /\ (truthy client_id = false ->
      clear_views rt client_id st
      = (Raise (Exn PerspectiveError
           "Cannot garbage collect views that are not linked to a specific client ID!"),
         st)).
Proof.
  split; [apply collects_clear_views |].
  intros H. unfold clear_views. rewrite H. reflexivity.
Qed.

(** ** Where the frames go *)

Section Routing.

Variable rt : Runtime.
Variable tp : transport.

Lemma answers_on_refl (st : manager rt) : answers_on tp st st.
Proof.
  split; [reflexivity |]. exists []. rewrite app_nil_r. split; [reflexivity | constructor].
Qed.

Lemma answers_on_trans (a b c : manager rt) :
  answers_on tp a b -> answers_on tp b c -> answers_on tp a c.
Proof.
  intros [L1 [e1 [E1 F1]]] [L2 [e2 [E2 F2]]]. split; [congruence |].
  exists (e1 ++ e2)%list. split.
  - rewrite E2, E1, app_assoc. reflexivity.
  - apply Forall_app. split; assumption.
Qed.

#[global] Instance answers_steps : Steps (@answers_on rt tp) :=
  {| steps_refl := answers_on_refl; steps_trans := answers_on_trans |}.

Lemma routed_emit (e : event) :
  addressed_to tp e -> invariant rt (answers_on tp) (emit rt e).
Proof.
  intros H st. split; [reflexivity |]. exists [e].
  split; [reflexivity | constructor; [exact H | constructor]].
Qed.

Lemma routed_with_world {A} (f : W rt -> outcome A * W rt) :
  invariant rt (answers_on tp) (with_world rt f).
Proof.
  intros st. unfold with_world. destruct (f (world st)) as [o w].
  split; [reflexivity |]. exists []. simpl. rewrite app_nil_r.
  split; [reflexivity | constructor].
Qed.

(** A step that changes a registry only. *)
Lemma routed_update (f : manager rt -> manager rt) :
  (forall st, _lock (f st) = _lock st /\ trace (f st) = trace st) ->
  invariant rt (answers_on tp) (fun st => (Ok tt, f st)).
Proof.
  intros H st. destruct (H st) as [L T]. split; [exact L |].
  exists []. simpl. rewrite app_nil_r. split; [exact T | constructor].
Qed.

Lemma routed_getattr (t : target) (name : string) :
  invariant rt (answers_on tp) (getattr rt t name).
Proof.
  unfold getattr. destruct t; try apply (@invariant_read rt _ answers_steps).
  destruct (prefix "__" name);
    [apply (@invariant_read rt _ answers_steps)
    | apply (@invariant_raise rt _ answers_steps)].
Qed.

Ltac route :=
  repeat first
    [ apply (@invariant_ret rt _ answers_steps)
    | apply (@invariant_raise rt _ answers_steps)
    | apply (@invariant_lift rt _ answers_steps)
    | apply routed_emit; solve [exact I | reflexivity]
    | apply routed_with_world | apply routed_getattr
    | apply routed_update; intros ?; split; reflexivity
    | apply (@invariant_read rt _ answers_steps)
    | apply (@invariant_bind rt _ answers_steps); [| intros ?]
    | apply (@invariant_try rt _ answers_steps); [| intros ?]
    | match goal with
      | |- invariant _ _ (if ?b then _ else _) => destruct b eqn:?
      | |- invariant _ _ (match ?x with _ => _ end) => destruct x eqn:?
      end ].

Lemma routed_respond msg message :
  invariant rt (answers_on tp) (respond rt msg tp message).
Proof. unfold respond, _message_to_json, dumps, post. route. Qed.

Lemma routed_respond_error msg text :
  invariant rt (answers_on tp) (respond_error rt msg tp text).
Proof.
  unfold respond_error. route; try apply routed_respond.
Qed.

Lemma routed_respond_data msg result :
  invariant rt (answers_on tp) (respond_data rt msg tp result).
Proof.
  unfold respond_data. route; try apply routed_respond.
Qed.

Lemma routed_process_bytes b msg :
  invariant rt (answers_on tp) (_process_bytes rt b msg tp).
Proof. unfold _process_bytes, dumps, post. route. Qed.

Lemma routed_process_subscribe msg t cid :
  invariant rt (answers_on tp) (_process_subscribe rt msg t tp cid).
Proof.
  unfold _process_subscribe. apply (@invariant_try rt _ answers_steps).
  - unfold add_callback, remove_callbacks, call_on. route.
  - intros e. apply routed_respond_error.
Qed.

Lemma routed_deliver_result msg m result :
  invariant rt (answers_on tp) (deliver_result rt msg m result tp).
Proof.
  unfold deliver_result.
  route; try first [apply routed_process_bytes | apply routed_respond_data].
Qed.

Lemma routed_resolve msg cmd :
  invariant rt (answers_on tp) (resolve rt msg cmd tp).
Proof.
  unfold resolve, tables_get, views_get, check_hashable.
  route; try apply routed_respond_error.
Qed.

Lemma routed_invocation msg cmd t :
  invariant rt (answers_on tp) (invocation rt msg cmd t).
Proof.
  unfold invocation, assemble_args, call_method, call, views_getitem, views_get,
    views_pop, check_hashable.
  route.
Qed.

Lemma routed_method_call_on msg cmd t cid :
  invariant rt (answers_on tp) (method_call_on rt msg cmd t tp cid).
Proof.
  unfold method_call_on, method_call_body.
  apply (@invariant_try rt _ answers_steps);
    [| intros e; apply routed_respond_error].
  destruct (is_True _); [apply routed_process_subscribe |].
  apply (@invariant_bind rt _ answers_steps); [apply routed_invocation |].
  intros [m [result |]]; simpl;
    [apply routed_deliver_result | apply (@invariant_ret rt _ answers_steps)].
Qed.

Lemma routed_process_dict msg cid :
  invariant rt (answers_on tp) (_process_dict rt msg tp cid).
Proof.
  unfold _process_dict.
  apply (@invariant_bind rt _ answers_steps);
    [apply (@invariant_lift rt _ answers_steps) | intros cmd].
  apply (@invariant_bind rt _ answers_steps);
    [apply (@invariant_read rt _ answers_steps) | intros locked].
  destruct locked.
  - route; try apply routed_respond_error.
  - apply (@invariant_try rt _ answers_steps);
      [| intros e; apply routed_respond_error].
    destruct (eq_str cmd "init"); [apply routed_respond_data |].
    destruct (eq_str cmd "table");
      [unfold tables_setitem, check_hashable; route |].
    destruct (eq_str cmd "view");
      [unfold tables_getitem, tables_get, views_setitem, check_hashable; route |].
    destruct (eq_str cmd "table_method" || eq_str cmd "view_method");
      [| apply (@invariant_ret rt _ answers_steps)].
    unfold _process_method_call.
    apply (@invariant_bind rt _ answers_steps);
      [apply (@invariant_lift rt _ answers_steps) | intros c].
    apply (@invariant_bind rt _ answers_steps);
      [apply routed_resolve | intros t].
    apply routed_method_call_on.
Qed.

Lemma routed_process msg cid :
  invariant rt (answers_on tp) (_process rt msg tp cid).
Proof.
  unfold _process.
  destruct msg; try apply (@invariant_raise rt _ answers_steps).
  - destruct (String.eqb s "heartbeat");
      [apply (@invariant_ret rt _ answers_steps) |].
    apply (@invariant_bind rt _ answers_steps);
      [apply (@invariant_lift rt _ answers_steps) | intros v].
    destruct v; try apply (@invariant_raise rt _ answers_steps).
    apply routed_process_dict.
  - apply routed_process_dict.
Qed.

End Routing.

Lemma routed_fire_callback (rt : Runtime) (cb : callback) (args : list pyval) :
  invariant rt (answers_on (cb_post cb)) (fire_callback rt cb args).
Proof.
  unfold fire_callback.
  apply (@invariant_bind rt _ (answers_steps rt (cb_post cb)));
    [apply (@invariant_lift rt _ (answers_steps rt (cb_post cb))) | intros id].
  apply (@invariant_bind rt _ (answers_steps rt (cb_post cb)));
    [apply (@invariant_lift rt _ (answers_steps rt (cb_post cb))) | intros port].
  destruct args as [| a0 [| [] rest]];
    first [apply routed_respond | apply routed_process_bytes].
Qed.

(** X22: whatever the message, every frame [_process] sends goes to the
    [post_callback] it was called with, every callback it hands to the
    engine or to the callback registry answers on that same transport, and
    the lock is as before: no message locks or unlocks the manager.  A
    callback fired later sends its frames to the transport of the message
    that installed it. *)
Theorem frames_go_to_the_caller (rt : Runtime) (st : manager rt) (msg : pyval)
    (tp : transport) (cid : pyval) (cb : callback) (args : list pyval) :
  answers_on tp st (snd (_process rt msg tp cid st))
  /\ answers_on (cb_post cb) st (snd (fire_callback rt cb args st)).
Proof.
  split; [apply routed_process | apply routed_fire_callback].
Qed.

(** ** A result that cannot be sent *)

(** X23: a result of the engine made of JSON values among which there is a
    NaN or an infinity is not sent: the encoder refuses it, a warning is
    logged, and the request is answered by the error for its id whose text
    names NaN and Infinity; the call itself has been made. *)
Theorem nonfinite_result (rt : Runtime) (st st1 : manager rt) (msg : dict)
    (tp : transport) (cid idv r : pyval) (jid : json) (c m : string)
    (t : target) (pos : list pyval) (w : W rt) :
  dict_get msg "cmd" = Some (VStr c) ->
  c = "table_method" \/ c = "view_method" ->
  _is_locked_command (_lock st) msg = Ok false ->
  resolve rt msg (VStr c) tp st = (Ok t, st1) ->
  t <> OnNone ->
  py_getattr rt t m (world st1) = Ok tt ->
  is_True (dict_get_default msg "subscribe" (VBool false)) = false ->
  dict_get msg "method" = Some (VStr m) ->
  str_in m ["schema"; "computed_schema"; "get_computation_input_types";
            "update"; "remove"; "delete"] = false ->
  prefix "to_" m = false ->
  py_star (dict_get_default msg "args" (VList [])) = Ok pos ->
  dict_get msg "id" = Some idv -> encodes rt idv jid ->
  invoke rt t m pos [] (world st1) = (Ok r, w) ->
  from_json r = true -> has_nonfinite r = true ->
  let text := "JSON serialization error: Cannot serialize `NaN`, `Infinity` or `-Infinity` to JSON." in
  _process rt (VDict msg) tp cid st
  = (Ok tt,
     add_event (EvPost tp (error_response jid text))
       (add_event (EvLogWarning text)
          (set_world rt w (add_event (EvCall t m pos []) st1)))).
Proof.
  intros Hc Hcc Hgate Hres Ht Hattr Hsub Hm Hno Hto Hpos Hid Henc Hinv Hj Hn text.
  rewrite (process_method_call rt msg tp idv jid Hid Henc c t cid st st1
             Hc Hcc Hgate Hres).
  apply (method_call_on_done rt msg tp _ _ cid st1 _).
  rewrite (plain_call_body rt st1 msg tp cid (VStr c) m t pos Ht Hattr Hsub
             Hm Hno Hto Hpos), Hinv.
  assert (Ed : forall s, deliver_result rt msg m r tp s
                         = respond_data rt msg tp r s).
  { intros s. unfold deliver_result. destruct r; try reflexivity.
    discriminate Hj. }
  rewrite Ed.
  pose proof (strict_from_json (to_timestamp rt) r true Hj) as H.
  rewrite Hn in H.
  unfold respond_data, respond, _message_to_json, dumps, try_except, bind, lift,
    getitem, post, emit.
  rewrite Hid. cbn [json_dumps _make_message obind].
  rewrite (encodes_any _ _ _ false true Henc), H.
  cbn [obind exn_class is_ValueError exn_text String.eqb].
  cbn [json_dumps _make_error_message obind].
  rewrite (encodes_any _ _ _ true false Henc). reflexivity.
Qed.

Lemma nonfinite_result_witness :
  _process (returning (VList [VFloat FNaN])) (VDict msg_size) 0 VNone
    (@Manager (returning (VList [VFloat FNaN])) [(VStr "t", TTable 0)] [] []
       false 1 [])
  = (Ok tt,
     @Manager (returning (VList [VFloat FNaN])) [(VStr "t", TTable 0)] [] []
       false 1
       [EvCall (OnTable 0) "size" [] [];
        EvLogWarning
          "JSON serialization error: Cannot serialize `NaN`, `Infinity` or `-Infinity` to JSON.";
        EvPost 0
          (error_response (JInt 10)
             "JSON serialization error: Cannot serialize `NaN`, `Infinity` or `-Infinity` to JSON.")]).
Proof.
  exact (nonfinite_result (returning (VList [VFloat FNaN]))
           (@Manager (returning (VList [VFloat FNaN])) [(VStr "t", TTable 0)] []
              [] false 1 [])
           (@Manager (returning (VList [VFloat FNaN])) [(VStr "t", TTable 0)] []
              [] false 1 [])
           msg_size 0 VNone (VInt 10) (VList [VFloat FNaN]) (JInt 10)
           "table_method" "size" (OnTable 0) [] 1
           eq_refl (or_introl eq_refl) eq_refl eq_refl ltac:(discriminate)
           eq_refl eq_refl eq_refl eq_refl eq_refl eq_refl eq_refl eq_refl
           eq_refl eq_refl eq_refl).
Defined.
